(** * Conversation-extract tooling: renamer and reconciler

    A shallow embedding of [scripts/rename-extracts.py] (module [Rename])
    and [scripts/update-extracts.py] (module [Update]), with the Python
    string, regular-expression, date and directory operations they use
    (modules [Text], [Regex], [Dates], [Dir]).

    Text is a list of 8-bit characters.  Character classes ([\s], [\d],
    [str.lower], [str.rstrip]) are those of Python on ASCII text, where the
    embedding is exact; a non-ASCII character such as the emoji of the
    user heading is the sequence of its UTF-8 bytes, none of which is a
    digit, a letter or white space here, whereas Python knows digits,
    letters and white space outside ASCII.  Where a statement would not
    hold of the scripts on such characters, it is made of ASCII text
    ([Vocabulary.ascii_text]).  The content of a file is the text
    [read_text] gives for it. *)

From Stdlib Require Import Ascii String List Arith Lia.
From stdpp Require Import gmap strings list fin_maps pretty sorting.
Import ListNotations.

Abbreviation text := (list ascii).
Abbreviation T s := (list_ascii_of_string s).

(* ===================================================================== *)
(** ** Python [str] operations *)
(* ===================================================================== *)

Module Text.

Definition code (c : ascii) : nat := nat_of_ascii c.

Definition between (lo hi : nat) (c : ascii) : bool :=
  (lo <=? code c) && (code c <=? hi).

(** [str.isspace] on ASCII: TAB, LF, VT, FF, CR, the separators FS GS RS US,
    and the space; also the class [\s] of [re] on [str] patterns. *)
Definition is_space (c : ascii) : bool :=
  between 9 13 c || between 28 31 c || (code c =? 32).

(** The digits [0] to [9]: the class [\d] of [re], and what [int] and
    [strptime] read, on ASCII text.  Python also takes the decimal digits
    of other scripts, which are outside this class. *)
Definition is_digit (c : ascii) : bool := between 48 57 c.
Definition is_upper (c : ascii) : bool := between 65 90 c.
Definition is_lower (c : ascii) : bool := between 97 122 c.
Definition is_alpha (c : ascii) : bool := is_upper c || is_lower c.

Definition lower_char (c : ascii) : ascii :=
  if is_upper c then ascii_of_nat (code c + 32) else c.
Definition upper_char (c : ascii) : ascii :=
  if is_lower c then ascii_of_nat (code c - 32) else c.

(** [s.lower()] on ASCII text: the letters [A] to [Z] are lowered, every
    other character is kept.  Python also lowers the cased characters of
    other scripts, some of them to a different number of characters. *)
Definition lower (s : text) : text := map lower_char s.

Definition hyphen : ascii := "-"%char.
Definition newline : ascii := "010"%char.
Definition dquote : ascii := "034"%char.
Definition backslash : ascii := "092"%char.

Fixpoint drop_while (p : ascii -> bool) (s : text) : text :=
  match s with
  | [] => []
  | c :: s' => if p c then drop_while p s' else s
  end.

Fixpoint take_while (p : ascii -> bool) (s : text) : text :=
  match s with
  | [] => []
  | c :: s' => if p c then c :: take_while p s' else []
  end.

(** [s.lstrip()], [s.rstrip()], [s.strip()] *)
Definition lstrip (s : text) : text := drop_while is_space s.
Definition rstrip (s : text) : text := rev (drop_while is_space (rev s)).
Definition strip (s : text) : text := rstrip (lstrip s).

(** [s.strip(chars)] for a one-character set *)
Definition strip_char (x : ascii) (s : text) : text :=
  rev (drop_while (Ascii.eqb x) (rev (drop_while (Ascii.eqb x) s))).

(** [s.startswith(p)] *)
Fixpoint starts_with (p s : text) : bool :=
  match p, s with
  | [], _ => true
  | _ :: _, [] => false
  | a :: p', b :: s' => Ascii.eqb a b && starts_with p' s'
  end.

(** [s.find(sub)]: the index of the first occurrence, [None] for Python's -1. *)
Fixpoint find_from (sub s : text) (i : nat) : option nat :=
  if starts_with sub s then Some i
  else match s with
       | [] => None
       | _ :: s' => find_from sub s' (S i)
       end.

Definition find (sub s : text) : option nat := find_from sub s 0.

(** [sub in s] *)
Definition contains (sub s : text) : bool :=
  match find sub s with Some _ => true | None => false end.

(** [s[a:b]] for [0 <= a], [0 <= b] *)
Definition slice (a b : nat) (s : text) : text := take (b - a) (drop a s).

(** [s.replace(old, new)] for a non-empty [old]: every occurrence met in a
    left-to-right scan is replaced, the scan resuming after the occurrence.
    [skip] counts the characters of the current occurrence still to pass. *)
Fixpoint replace_go (old new : text) (skip : nat) (s : text) : text :=
  match s with
  | [] => []
  | c :: s' =>
      match skip with
      | S k => replace_go old new k s'
      | O => if starts_with old s
             then new ++ replace_go old new (length old - 1) s'
             else c :: replace_go old new 0 s'
      end
  end.

Definition replace (old new s : text) : text :=
  match old with
  | [] => s
  | _ :: _ => replace_go old new 0 s
  end.

(** [s.replace(a, b)] for single characters *)
Definition replace_char (a b : ascii) (s : text) : text :=
  map (fun c => if Ascii.eqb c a then b else c) s.

(** [s.title()]: a cased character is upper-cased when the character before
    it is not cased, lower-cased otherwise. *)
Fixpoint title_go (prev_cased : bool) (s : text) : text :=
  match s with
  | [] => []
  | c :: s' =>
      if is_alpha c
      then (if prev_cased then lower_char c else upper_char c) :: title_go true s'
      else c :: title_go false s'
  end.

Definition title (s : text) : text := title_go false s.

(** ["sep".join(lines)] *)
Fixpoint join (sep : text) (lines : list text) : text :=
  match lines with
  | [] => []
  | [l] => l
  | l :: ls => l ++ sep ++ join sep ls
  end.

(** [s.split('-')[0]] *)
Definition first_segment (x : ascii) (s : text) : text :=
  take_while (fun c => negb (Ascii.eqb c x)) s.

(** Truthiness of an optional string: [None] and the empty string are false. *)
Definition truthy (o : option text) : bool :=
  match o with
  | Some (_ :: _) => true
  | _ => false
  end.

(** [f"{n}"] for a natural number *)
Definition of_nat (n : nat) : text := list_ascii_of_string (pretty n).

(** [int(s)] for a string of ASCII digits *)
Definition to_nat (s : text) : nat :=
  fold_left (fun acc c => 10 * acc + (code c - 48)) s 0.

(** [f"{n:0kd}"]: the last [k] decimal digits are all of them for [n < 10^k]. *)
Fixpoint pad (k n : nat) : text :=
  match k with
  | O => []
  | S k' => pad k' (n / 10) ++ [ascii_of_nat (48 + n mod 10)]
  end.

(** Code-point order of Python strings *)
Fixpoint text_leb (a b : text) : bool :=
  match a, b with
  | [], _ => true
  | _ :: _, [] => false
  | x :: a', y :: b' =>
      if code x <? code y then true
      else if code y <? code x then false
      else text_leb a' b'
  end.

End Text.

(* ===================================================================== *)
(** ** The fragment of Python's [re] used by the scripts *)
(* ===================================================================== *)

Module Regex.
Import Text.

(** A pattern is a sequence of atoms; every repetition in the scripts'
    patterns is over a single character class, so [Star] (greedy, with
    backtracking) over a class is enough: [p+] is [One p; Star p] and
    [p{n,}] is [n] times [One p] then [Star p]. *)
Inductive atom : Type :=
| One (p : ascii -> bool)
| Star (p : ascii -> bool)
| Open
| Close
| Eol.

Abbreviation regex := (list atom).

(** The match of a pattern: where it starts, where it ends, and the
    positions of its parentheses in pattern order. *)
Record rmatch : Type := mk_match {
  m_start : nat;
  m_end : nat;
  m_marks : list nat
}.

Definition lit (s : text) : regex := map (fun c => One (Ascii.eqb c)) s.

(** A literal under [re.IGNORECASE] *)
Definition lit_i (s : text) : regex :=
  map (fun c => One (fun x => Ascii.eqb (lower_char x) (lower_char c))) s.

Definition plus (p : ascii -> bool) : regex := [One p; Star p].
Definition exactly (n : nat) (p : ascii -> bool) : regex := repeat (One p) n.
Definition at_least (n : nat) (p : ascii -> bool) : regex :=
  repeat (One p) n ++ [Star p].
Definition group (r : regex) : regex := Open :: r ++ [Close].

(** Match the pattern at the head of [s], which is at offset [pos] of the
    subject: the end offset and the parenthesis positions of the first
    match in backtracking order (greedy repetitions give back one character
    at a time). *)
Fixpoint match_here (r : regex) (pos : nat) (s : text) {struct r}
  : option (nat * list nat) :=
  match r with
  | [] => Some (pos, [])
  | One p :: r' =>
      match s with
      | c :: s' => if p c then match_here r' (S pos) s' else None
      | [] => None
      end
  | Star p :: r' =>
      (fix star (pos : nat) (s : text) {struct s} : option (nat * list nat) :=
         match s with
         | c :: s' =>
             if p c
             then match star (S pos) s' with
                  | Some m => Some m
                  | None => match_here r' pos s
                  end
             else match_here r' pos s
         | [] => match_here r' pos []
         end) pos s
  | Open :: r' | Close :: r' =>
      match match_here r' pos s with
      | Some (e, ms) => Some (e, pos :: ms)
      | None => None
      end
  | Eol :: r' =>
      match s with
      | [] => match_here r' pos s
      | c :: _ => if Ascii.eqb c newline then match_here r' pos s else None
      end
  end.

(** [re.search]: the match at the leftmost position that has one.  With
    [bol] the pattern starts with [^] under [re.MULTILINE] and may only
    start at the beginning of the subject or after a newline. *)
Fixpoint search_go (bol : bool) (r : regex) (at_bol : bool) (pos : nat)
  (s : text) : option rmatch :=
  match (if bol && negb at_bol then None else match_here r pos s) with
  | Some (e, ms) => Some (mk_match pos e ms)
  | None =>
      match s with
      | [] => None
      | c :: s' => search_go bol r (Ascii.eqb c newline) (S pos) s'
      end
  end.

Definition search (r : regex) (s : text) : option rmatch :=
  search_go false r true 0 s.

Definition search_bol (r : regex) (s : text) : option rmatch :=
  search_go true r true 0 s.

(** [re.finditer]: the matches of a left-to-right scan that resumes at the
    end of each match, so matches never overlap. *)
Fixpoint finditer_go (r : regex) (skip pos : nat) (s : text) : list rmatch :=
  match skip with
  | S k =>
      match s with
      | [] => []
      | _ :: s' => finditer_go r k (S pos) s'
      end
  | O =>
      match match_here r pos s with
      | Some (e, ms) =>
          mk_match pos e ms ::
          match s with
          | [] => []
          | _ :: s' => finditer_go r (e - pos - 1) (S pos) s'
          end
      | None =>
          match s with
          | [] => []
          | _ :: s' => finditer_go r 0 (S pos) s'
          end
      end
  end.

Definition finditer (r : regex) (s : text) : list rmatch :=
  finditer_go r 0 0 s.

(** [m.group(i)], [i >= 1], on the subject [s] *)
Definition group_of (s : text) (m : rmatch) (i : nat) : text :=
  match m_marks m !! (2 * (i - 1)), m_marks m !! (2 * (i - 1) + 1) with
  | Some a, Some b => slice a b s
  | _, _ => []
  end.

End Regex.

(* ===================================================================== *)
(** ** Calendar dates: the [datetime] values the renamer builds *)
(* ===================================================================== *)

Module Dates.
Import Text.

(** Every [datetime] of the script is at midnight, so a date is its
    year, month and day. *)
Record date : Type := mk_date { year : nat; month : nat; day : nat }.

Definition is_leap (y : nat) : bool :=
  (y mod 4 =? 0) && (negb (y mod 100 =? 0) || (y mod 400 =? 0)).

Definition days_in_month (y m : nat) : nat :=
  match m with
  | 2 => if is_leap y then 29 else 28
  | 4 | 6 | 9 | 11 => 30
  | _ => 31
  end.

Definition valid (y m d : nat) : bool :=
  (1 <=? y) && (y <? 10 * 1000) && (1 <=? m) && (m <=? 12) &&
  (1 <=? d) && (d <=? days_in_month y m).

(** [datetime(y, m, d)]; [None] stands for [ValueError]. *)
Definition make (y m d : nat) : option date :=
  if valid y m d then Some (mk_date y m d) else None.

(** [a < b] *)
Definition ltb (a b : date) : bool :=
  (year a <? year b) ||
  ((year a =? year b) &&
   ((month a <? month b) || ((month a =? month b) && (day a <? day b)))).


(** [max(dates)]: the first of the greatest elements; [None] on an empty list
    (which the script never passes). *)
Definition maximum (dates : list date) : option date :=
  match dates with
  | [] => None
  | d :: rest => Some (fold_left (fun m x => if ltb m x then x else m) rest d)
  end.

(** [d.strftime('%Y-%m-%d')] *)
Definition iso (d : date) : text :=
  pad 4 (year d) ++ T "-" ++ pad 2 (month d) ++ T "-" ++ pad 2 (day d).

(** [d.strftime('%m-%d-%Y')] *)
Definition mdy (d : date) : text :=
  pad 2 (month d) ++ T "-" ++ pad 2 (day d) ++ T "-" ++ pad 4 (year d).

End Dates.

(* ===================================================================== *)
(** ** One directory of files, and the console *)
(* ===================================================================== *)

Module Dir.
Import Text.

(** The files of one directory by name, and the lines printed so far. *)
Record world : Type := mk_world {
  files : gmap text text;
  stdout : list text
}.

(** [path.exists()] *)
Definition exists_ (d : gmap text text) (name : text) : bool :=
  bool_decide (is_Some (d !! name)).

(** [print(line)] *)
Definition print (line : text) (w : world) : world :=
  mk_world (files w) (stdout w ++ [line]).

(** [path.write_text(content)] *)
Definition write_text (name content : text) (w : world) : world :=
  mk_world (<[name := content]> (files w)) (stdout w).

(** [path.unlink()] *)
Definition unlink (name : text) (w : world) : world :=
  mk_world (delete name (files w)) (stdout w).

Definition ends_with (suffix s : text) : bool :=
  starts_with (rev suffix) (rev s).

(** [dir.glob(prefix + "*" + suffix)]: the names of the directory that
    match, in the directory's iteration order. *)
Definition matches (prefix suffix name : text) : bool :=
  (length prefix + length suffix <=? length name)
  && starts_with prefix name && ends_with suffix name.

Definition glob {A : Type} (prefix suffix : text) (d : gmap text A) : list text :=
  filter (fun name => matches prefix suffix name = true) (map fst (map_to_list d)).

Definition text_le (a b : text) : Prop := text_leb a b = true.

#[global] Instance text_le_dec : RelDecision text_le.
Proof. intros a b. unfold text_le. apply _. Defined.

(** [sorted(paths)] for paths of one directory *)
Definition sorted (names : list text) : list text := merge_sort text_le names.

End Dir.

(* ===================================================================== *)
(** ** [scripts/rename-extracts.py] *)
(* ===================================================================== *)

Module Rename.
Import Text Regex Dates Dir.

(** [[a-f0-9-]] under [re.IGNORECASE] *)
Definition hex_or_hyphen_i (c : ascii) : bool :=
  between 97 102 (lower_char c) || is_digit c || Ascii.eqb c hyphen.

(** [r'Session ID:\s*([a-f0-9-]+)'], [re.IGNORECASE] *)
Definition re_session_id : regex :=
  lit_i (T "Session ID:") ++ [Star is_space] ++ group (plus hex_or_hyphen_i).

Definition extract_session_id (content : text) : option text :=
  match search re_session_id content with
  | Some m => Some (group_of content m 1)
  | None => None
  end.

(** [\d{4}-\d{2}-\d{2}] *)
Definition re_ymd : regex :=
  exactly 4 is_digit ++ lit (T "-") ++ exactly 2 is_digit ++ lit (T "-")
  ++ exactly 2 is_digit.

(** [r'^Date:\s*(\d{4}-\d{2}-\d{2})'], [re.MULTILINE] *)
Definition re_start_date : regex :=
  lit (T "Date:") ++ [Star is_space] ++ group re_ymd.

(** What evaluating an expression of the script gives: a value, or an
    exception that the script does not catch. *)
Inductive raising (A : Type) : Type :=
| Value (a : A)
| ValueError.
Arguments Value {A} a.
Arguments ValueError {A}.

(** [datetime.strptime(s, "%Y-%m-%d")] on a string of the shape
    [\d{4}-\d{2}-\d{2}] *)
Definition strptime_ymd (s : text) : raising date :=
  match make (to_nat (slice 0 4 s)) (to_nat (slice 5 7 s)) (to_nat (slice 8 10 s)) with
  | Some d => Value d
  | None => ValueError
  end.

Definition extract_start_date (content : text) : raising (option date) :=
  match search_bol re_start_date content with
  | Some m =>
      match strptime_ymd (group_of content m 1) with
      | Value d => Value (Some d)
      | ValueError => ValueError
      end
  | None => Value None
  end.

(** [r'(\d{4})-(\d{2})-(\d{2})'] *)
Definition re_date : regex :=
  group (exactly 4 is_digit) ++ lit (T "-") ++ group (exactly 2 is_digit)
  ++ lit (T "-") ++ group (exactly 2 is_digit).

(** The body of the loop of [extract_latest_date]: the date of one match,
    when [datetime] accepts it and its year passes the sanity check. *)
Definition candidate (content : text) (m : rmatch) : option date :=
  match make (to_nat (group_of content m 1)) (to_nat (group_of content m 2))
             (to_nat (group_of content m 3)) with
  | Some d => if (2020 <=? year d) && (year d <=? 2030) then Some d else None
  | None => None
  end.

Definition extract_latest_date (content : text) : option date :=
  let dates := omap (candidate content) (finditer re_date content) in
  maximum dates.

(** [[a-zA-Z0-9_-]] *)
Definition project_char (c : ascii) : bool :=
  is_alpha c || is_digit c || Ascii.eqb c "_"%char || Ascii.eqb c hyphen.

Definition not_backslash (c : ascii) : bool := negb (Ascii.eqb c backslash).

(** The class after the project name in the third pattern: white space,
    a backslash or a double quote *)
Definition project_end (c : ascii) : bool :=
  is_space c || Ascii.eqb c backslash || Ascii.eqb c dquote.

Definition users_dir (folder : text) : regex :=
  lit (T ":\Users\") ++ plus not_backslash
  ++ lit (backslash :: folder ++ [backslash]) ++ group (plus project_char).

Definition patterns : list regex :=
  [ lit (T "Working directory:") ++ [Star is_space; One is_upper]
      ++ users_dir (T "Projects");
    lit (T "Working directory:") ++ [Star is_space; One is_upper]
      ++ users_dir (T "Downloads");
    lit (T "C") ++ users_dir (T "Projects") ++ [One project_end] ].

Fixpoint first_project (ps : list regex) (content : text) : option text :=
  match ps with
  | [] => None
  | pattern :: rest =>
      match search pattern content with
      | Some m =>
          let project := group_of content m 1 in
          if (2 <? length project) && (length project <? 50)
             && negb (starts_with (T "-") project)
          then Some project
          else first_project rest content
      | None => first_project rest content
      end
  end.

Definition extract_project_name (content : text) : option text :=
  first_project patterns content.

(** [[a-z0-9-]] *)
Definition slug_char (c : ascii) : bool :=
  is_lower c || is_digit c || Ascii.eqb c hyphen.

(** [re.sub(r'[^a-z0-9-]', '-', s)] *)
Definition sub_non_slug (s : text) : text :=
  map (fun c => if slug_char c then c else hyphen) s.

(** [re.sub(r'-+', '-', s)]: a hyphen followed by a hyphen is dropped, so
    each run of hyphens leaves its last one. *)
Fixpoint collapse_hyphens (s : text) : text :=
  match s with
  | [] => []
  | c :: s' =>
      if Ascii.eqb c hyphen && starts_with [hyphen] s'
      then collapse_hyphens s'
      else c :: collapse_hyphens s'
  end.

Definition sanitize_description (desc : text) : text :=
  let desc := sub_non_slug (lower desc) in
  let desc := collapse_hyphens desc in
  let desc := strip_char hyphen desc in
  match desc with
  | [] => T "conversation"
  | _ :: _ => take 50 desc
  end.

Definition is_agent_session (content filename : text) : bool :=
  if contains (T "agent-") (lower filename) then true
  else if contains (T "subagent") (take 500 (lower content)) then true
  else false.

Definition not_newline (c : ascii) : bool := negb (Ascii.eqb c newline).
Definition not_hash_newline (c : ascii) : bool :=
  negb (Ascii.eqb c "#"%char) && negb (Ascii.eqb c newline).

(** What follows the heading in the two heading patterns: white space with
    a newline in it, then the captured line, which starts with a character
    other than a hash and a newline and runs to the end of its line *)
Definition first_line_after : regex :=
  [Star is_space; One (Ascii.eqb newline); Star is_space]
  ++ group [One not_hash_newline; Star not_newline].

(** The bust-in-silhouette emoji U+1F464, in UTF-8 *)
Definition bust : text :=
  [ascii_of_nat 240; ascii_of_nat 159; ascii_of_nat 145; ascii_of_nat 164].

Definition re_user : regex :=
  lit (T "## " ++ bust ++ T " User") ++ first_line_after.
Definition re_human : regex := lit (T "## Human") ++ first_line_after.

(** The keyword rules of [generate_description], in order *)
Definition topic (first_msg_lower : text) : option text :=
  let has w := contains (T w) first_msg_lower in
  if has "excel" && (has "google" || has "sheet")
  then Some (T "excel-to-sheets-migration")
  else if has "mitel" then Some (T "mitel-skill-development")
  else if has "read" && has "ai" then Some (T "read-ai-clone")
  else if has "milestone" || has "powershell" then Some (T "milestone-powershell")
  else if has "plugin" then Some (T "plugin-development")
  else if has "test" then Some (T "testing")
  else if has "bug" || has "fix" then Some (T "bugfix")
  else if has "feature" then Some (T "feature-development")
  else if has "extract" && has "conversation" then Some (T "conversation-extraction")
  else None.

Definition generate_description (content : text) (project_name : option text)
  (filename : text) : text :=
  let fallback :=
    match project_name with
    | Some (c :: p) => sanitize_description (c :: p)
    | _ => T "conversation"
    end in
  if is_agent_session content filename then
    match project_name with
    | Some (c :: p) =>
        if length (c :: p) <? 30 then
          let clean_name := sanitize_description (c :: p) in
          if truthy (Some clean_name) && (2 <? length clean_name)
          then clean_name ++ T "-subagent"
          else T "subagent"
        else T "subagent"
    | _ => T "subagent"
    end
  else
    let found :=
      match search re_user content with
      | Some m => Some m
      | None => search re_human content
      end in
    match found with
    | Some m =>
        let first_msg := take 200 (strip (group_of content m 1)) in
        if starts_with (T "`") first_msg || starts_with (T "{") first_msg
           || contains (T "Caveat:") first_msg
        then fallback
        else match topic (lower first_msg) with
             | Some slug => slug
             | None => fallback
             end
    | None => fallback
    end.

Definition create_frontmatter (session_id : text) (start_date end_date : date)
  (title : text) (project : option text) (is_subagent : bool) : text :=
  let q s := [dquote] ++ s ++ [dquote] in
  let lines :=
    [ T "---";
      T "session_id: " ++ session_id;
      T "title: " ++ q title;
      T "start_date: " ++ iso start_date;
      T "end_date: " ++ iso end_date ] in
  let lines :=
    match project with
    | Some (c :: p) => lines ++ [T "project: " ++ q (c :: p)]
    | _ => lines
    end in
  let conv_type := if is_subagent then T "subagent" else T "conversation" in
  let lines := lines ++
    [ T "conversation_type: " ++ q conv_type;
      T "status: " ++ q (T "complete");
      T "is_archived: false";
      T "has_actionable_outcomes: false";
      T "outcome_summary: " ++ q [];
      T "ai_model: " ++ q (T "claude-opus-4-5");
      T "is_reviewed: false";
      T "topics: []";
      T "related_conversations: []";
      T "tags: [claude-code, conversation]";
      T "---";
      [] ] in
  join [newline] lines.

(** [r'^---\s*$'], [re.MULTILINE] *)
Definition re_frontmatter_end : regex := lit (T "---") ++ [Star is_space; Eol].

Definition add_frontmatter_to_content (content frontmatter : text) : text :=
  let content :=
    if starts_with (T "---") content then
      match search_bol re_frontmatter_end (drop 3 content) with
      | Some end_match => lstrip (drop (3 + m_end end_match) content)
      | None => content
      end
    else content in
  frontmatter ++ content.

(** The dictionary [process_file] returns *)
Record result : Type := mk_result {
  old_name : text;
  new_name : text;
  session_id : text;
  start_date : text;
  end_date : text;
  description : text
}.

(** Why [process_file] returned [None] *)
Inductive skip_reason : Type :=
| ReadFailed
| NoSessionId
| NoStartDate.

(** How a call of [process_file] ends: it returns [None] ([Skipped]) or a
    dictionary ([Processed]), an exception leaves it ([Raised]: the
    [ValueError] of [strptime]), or its collision loop is still running
    after more rounds than the directory has files ([Unfinished]). *)
Inductive outcome : Type :=
| Skipped (why : skip_reason)
| Processed (r : result)
| Raised
| Unfinished.

(** The name of a rendered date range and description, suffixed or not *)
Definition stem (start_date end_date : date) (description : text) : text :=
  mdy start_date ++ T "--" ++ mdy end_date ++ T "-" ++ description.

(** The collision loop of [process_file]: [new_name] is the name to test,
    [counter] the suffix of the next one; [fuel] bounds the number of
    rounds. *)
Fixpoint resolve_collision (fuel : nat) (d : gmap text text)
  (filepath name_stem new_name : text) (counter : nat) : option text :=
  if exists_ d new_name && negb (bool_decide (new_name = filepath))
  then match fuel with
       | O => None
       | S fuel' =>
           resolve_collision fuel' d filepath name_stem
             (name_stem ++ T "-" ++ of_nat counter ++ T ".md") (S counter)
       end
  else Some new_name.

(** The text of the exception of a failed read *)
Definition read_error : text := T "No such file or directory".

(** [process_file(filepath, dry_run)] on the file named [filepath] of the
    directory. *)
Definition process_file (filepath : text) (dry_run : bool) (w : world)
  : world * outcome :=
  match files w !! filepath with
  | None =>
      (print (T "  Error reading " ++ filepath ++ T ": " ++ read_error) w,
       Skipped ReadFailed)
  | Some content =>
  match extract_session_id content with
  | None | Some [] =>
      (print (T "  Skipping " ++ filepath ++ T ": No session ID found") w,
       Skipped NoSessionId)
  | Some (c :: sid) =>
  let session_id := c :: sid in
  match extract_start_date content with
  | ValueError => (w, Raised)
  | Value start_date =>
  let end_date := extract_latest_date content in
  match start_date with
  | None =>
      (print (T "  Skipping " ++ filepath ++ T ": No start date found") w,
       Skipped NoStartDate)
  | Some start_date =>
  let end_date :=
    match end_date with
    | None => start_date
    | Some e => if ltb e start_date then start_date else e
    end in
  let project_name := extract_project_name content in
  let description := generate_description content project_name filepath in
  let title := title (replace_char hyphen " "%char description) in
  let is_subagent := is_agent_session content filepath in
  let frontmatter :=
    create_frontmatter session_id start_date end_date title project_name
      is_subagent in
  let name_stem := stem start_date end_date description in
  match resolve_collision (S (size (files w))) (files w) filepath name_stem
          (name_stem ++ T ".md") 1 with
  | None => (w, Unfinished)
  | Some new_name =>
  let result :=
    mk_result filepath new_name session_id (iso start_date) (iso end_date)
      description in
  if dry_run then
    (print (T "           to: " ++ new_name)
       (print (T "  Would rename: " ++ filepath) w),
     Processed result)
  else
    let new_content := add_frontmatter_to_content content frontmatter in
    let w := write_text new_name new_content w in
    let w := if bool_decide (new_name = filepath) then w else unlink filepath w in
    (print (T "       to: " ++ new_name) (print (T "  Renamed: " ++ filepath) w),
     Processed result)
  end end end end end.

(** The loop of [main] over the sorted files: the results so far, or
    [None] when a call of [process_file] did not return. *)
Fixpoint process_all (fs : list text) (dry_run : bool) (w : world)
  (results : list result) : world * option (list result) :=
  match fs with
  | [] => (w, Some results)
  | f :: rest =>
      match process_file f dry_run w with
      | (w, Processed r) => process_all rest dry_run (print [] w) (results ++ [r])
      | (w, Skipped _) => process_all rest dry_run (print [] w) results
      | (w, Raised) | (w, Unfinished) => (w, None)
      end
  end.

(** [main()] once the directory argument is known to exist *)
Definition main (backup_dir : text) (dry_run : bool) (w : world)
  : world * option (list result) :=
  let w := print (T "Processing files in: " ++ backup_dir) w in
  let w := if dry_run then print (T "DRY RUN - no changes will be made") w else w in
  let w := print [] w in
  let fs := glob [] (T ".md") (files w) in
  let w := print (T "Found " ++ of_nat (length fs) ++ T " markdown files") w in
  let w := print [] w in
  match process_all (sorted fs) dry_run w [] with
  | (w, Some results) =>
      let w := print (T "=== Summary ===") w in
      let w := print (T "  Processed: " ++ of_nat (length results) ++ T " files") w in
      let w := if dry_run then print (T "  (dry run - no changes made)") w else w in
      (w, Some results)
  | (w, None) => (w, None)
  end.

End Rename.

(* ===================================================================== *)
(** ** [scripts/update-extracts.py] *)
(* ===================================================================== *)

Module Update.
Import Text Regex Dir.

Definition USER_NOTES_START : text :=
  T "<!-- USER NOTES - This section will be preserved on update -->".
Definition USER_NOTES_END : text := T "<!-- END USER NOTES -->".

(** [[a-f0-9-]] under [re.IGNORECASE] *)
Definition hex_or_hyphen_i (c : ascii) : bool :=
  between 97 102 (lower_char c) || is_digit c || Ascii.eqb c hyphen.

(** [[a-f0-9]] *)
Definition hex (c : ascii) : bool := between 97 102 c || is_digit c.

(** [r'Session ID:\s*([a-f0-9-]+)'], [re.IGNORECASE] *)
Definition re_session_id : regex :=
  lit_i (T "Session ID:") ++ [Star is_space] ++ group (plus hex_or_hyphen_i).

Definition extract_session_id_from_content (content : text) : option text :=
  match search re_session_id content with
  | Some m =>
      let session_id := group_of content m 1 in
      Some (if contains (T "-") session_id
            then first_segment hyphen session_id
            else session_id)
  | None => None
  end.

(** [r'claude-conversation-\d{4}-\d{2}-\d{2}-([a-f0-9]{8,})'] *)
Definition re_dated_name : regex :=
  lit (T "claude-conversation-") ++ exactly 4 is_digit ++ lit (T "-")
  ++ exactly 2 is_digit ++ lit (T "-") ++ exactly 2 is_digit ++ lit (T "-")
  ++ group (at_least 8 hex).

(** [r'agent-([a-f0-9]{2,})'] *)
Definition re_agent_name : regex := lit (T "agent-") ++ group (at_least 2 hex).

Definition extract_session_id_from_filename (filename : text) : option text :=
  match search re_dated_name filename with
  | Some m => Some (group_of filename m 1)
  | None =>
      match search re_agent_name filename with
      | Some m => Some (group_of filename m 1)
      | None => None
      end
  end.

Definition extract_user_notes (content : text) : option text :=
  match find USER_NOTES_START content, find USER_NOTES_END content with
  | Some start_idx, Some end_idx =>
      if start_idx <? end_idx
      then Some (slice start_idx (end_idx + length USER_NOTES_END) content)
      else None
  | _, _ => None
  end.

Definition merge_with_user_notes (new_content : text) (user_notes : option text)
  : text :=
  match user_notes with
  | Some (c :: n) => rstrip new_content ++ [newline; newline] ++ (c :: n) ++ [newline]
  | _ => new_content
  end.

(** The session id of a file: from its content, and from its name when the
    content gives none (or an empty one); the two steps both
    [get_existing_files] and [update_extracts] take. *)
Definition session_id_of (content filename : text) : option text :=
  match extract_session_id_from_content content with
  | Some (c :: sid) => Some (c :: sid)
  | _ =>
      match extract_session_id_from_filename filename with
      | Some (c :: sid) => Some (c :: sid)
      | _ => None
      end
  end.

(** The dictionary [existing]: session id to (file name, user notes) *)
Abbreviation index := (gmap text (text * option text)).

(** The loop of [get_existing_files] over the names the glob gave *)
Fixpoint index_files (names : list text) (w : world) (existing : index)
  : world * index :=
  match names with
  | [] => (w, existing)
  | f :: rest =>
      match files w !! f with
      | None =>
          index_files rest
            (print (T "  Warning: Could not read " ++ f ++ T ": "
                    ++ Rename.read_error) w) existing
      | Some content =>
          match session_id_of content f with
          | Some session_id =>
              let user_notes := extract_user_notes content in
              index_files rest w (<[session_id := (f, user_notes)]> existing)
          | None => index_files rest w existing
          end
      end
  end.

Definition get_existing_files (w : world) : world * index :=
  index_files (glob [] (T ".md") (files w)) w ∅.

(** What [new_file.read_text(encoding="utf-8")] gives for a file of the
    scratch directory: the text its bytes decode to, or a
    [UnicodeDecodeError] when they are not UTF-8. *)
Inductive scratch_file : Type :=
| Utf8 (content : text)
| NotUtf8.

(** What [run_extraction] found the collaborator to have done: a failure
    with its diagnostic, or its output and the files of the scratch
    directory. *)
Inductive extraction : Type :=
| Failed (stderr : text)
| Extracted (out : text) (scratch : gmap text scratch_file).

(** The dictionary [stats] *)
Record stats : Type := mk_stats {
  updated : nat;
  new : nat;
  unchanged : nat;
  skipped : nat;
  notes_preserved : nat
}.

(** The body of the loop of [update_extracts] for one fresh file, given by
    its name and its content; [None] when an exception leaves it (the
    indexed file cannot be read). *)
Definition reconcile (existing : index) (new_file : text * text)
  (state : world * stats) : option (world * stats) :=
  let '(name, new_content) := new_file in
  let '(w, st) := state in
  match session_id_of new_content name with
  | None =>
      Some (print (T "  Skipping " ++ name ++ T " (no session ID found)") w,
            mk_stats (updated st) (new st) (unchanged st) (S (skipped st))
              (notes_preserved st))
  | Some session_id =>
      match existing !! session_id with
      | Some (existing_file, user_notes) =>
          match files w !! existing_file with
          | None => None
          | Some old_content =>
              let final_content := merge_with_user_notes new_content user_notes in
              let old_without_notes :=
                match user_notes with
                | Some (c :: n) =>
                    if contains (c :: n) old_content
                    then rstrip (replace (c :: n) [] old_content)
                    else old_content
                | _ => old_content
                end in
              if bool_decide (rstrip new_content = rstrip old_without_notes)
              then
                Some (print (T "  Unchanged: " ++ existing_file) w,
                      mk_stats (updated st) (new st) (S (unchanged st))
                        (skipped st) (notes_preserved st))
              else
                let w := write_text existing_file final_content w in
                let note_msg :=
                  if truthy user_notes then T " (notes preserved)" else [] in
                Some (print (T "  Updated: " ++ existing_file ++ note_msg) w,
                      mk_stats (S (updated st)) (new st) (unchanged st)
                        (skipped st)
                        (if truthy user_notes then S (notes_preserved st)
                         else notes_preserved st))
          end
      | None =>
          let w := write_text name new_content w in
          Some (print (T "  New: " ++ name) w,
                mk_stats (updated st) (S (new st)) (unchanged st) (skipped st)
                  (notes_preserved st))
      end
  end.

(** The loop of [update_extracts] over the fresh files: each is read, which
    no [try] guards, and reconciled.  The result is the directory as the
    loop left it, and the counts, or [None] when an exception ended the
    loop. *)
Fixpoint reconcile_all (existing : index)
  (new_files : list (text * scratch_file)) (state : world * stats)
  : world * option stats :=
  match new_files with
  | [] => (state.1, Some state.2)
  | (name, NotUtf8) :: _ => (state.1, None)
  | (name, Utf8 new_content) :: rest =>
      match reconcile existing (name, new_content) state with
      | Some state => reconcile_all existing rest state
      | None => (state.1, None)
      end
  end.

(** The files [temp_path.glob("claude-conversation-*.md")] lists, each with
    what is in it *)
Definition new_files_of (scratch : gmap text scratch_file)
  : list (text * scratch_file) :=
  omap (fun name => match scratch !! name with
                    | Some file => Some (name, file)
                    | None => None
                    end)
       (glob (T "claude-conversation-") (T ".md") scratch).

(** What [update_extracts] gives back: the error dictionary, the counts, or
    nothing because an exception left it. *)
Inductive run : Type :=
| Error (msg : text)
| Counts (st : stats)
| Exception.

(** [update_extracts(backup_dir, session_numbers)], the outcome of the
    collaborator's run being [ext] *)
Definition update_extracts (backup_dir : text) (ext : extraction) (w : world)
  : world * run :=
  let '(w, existing) := get_existing_files w in
  let w := print (T "Found " ++ of_nat (size existing) ++ T " existing extracts in "
                  ++ backup_dir) w in
  let w := print (T "Extracting to temp directory...") w in
  match ext with
  | Failed _ => (w, Error (T "Extraction failed"))
  | Extracted out scratch =>
      let w := print out w in
      let new_files := new_files_of scratch in
      let w := print (T "Extracted " ++ of_nat (length new_files) ++ T " files") w in
      match reconcile_all existing new_files (w, mk_stats 0 0 0 0 0) with
      | (w, Some st) => (w, Counts st)
      | (w, None) => (w, Exception)
      end
  end.

End Update.

(* ===================================================================== *)
(** ** Vocabulary of the properties *)
(* ===================================================================== *)

Module Vocabulary.
Import Text Dir Update.

(** The first occurrence of [sub] in [s] is at index [i]. *)
Definition first_at (sub s : text) (i : nat) : Prop :=
  (exists a b, s = a ++ sub ++ b /\ length a = i) /\
  (forall a b, s = a ++ sub ++ b -> i <= length a).

(** Two texts that differ only in the white space they end with *)
Definition same_but_trailing_space (a b : text) : Prop :=
  exists core wa wb,
    a = core ++ wa /\ b = core ++ wb /\
    Forall (fun c => is_space c = true) wa /\
    Forall (fun c => is_space c = true) wb.

(** The content of an archive file with the indexed notes textually
    removed *)
Definition without_notes (old_content : text) (user_notes : option text) : text :=
  match user_notes with
  | Some (c :: n) => replace (c :: n) [] old_content
  | _ => old_content
  end.

(** The four ways the reconciler counts a fresh file *)
Inductive verdict : Type :=
| VUpdated
| VNew
| VUnchanged
| VSkipped.

#[global] Instance verdict_eq_dec : EqDecision verdict.
Proof. solve_decision. Defined.

(** How many files of a run got the verdict [v] *)
Definition tally (v : verdict) (vs : list verdict) : nat :=
  length (filter (fun x => x = v) vs).

(** The collaborator's naming of its files, as the reconciler globs it *)
Definition dated_export (name : text) : Prop :=
  matches (T "claude-conversation-") (T ".md") name = true.

(** Every file the index names is in the directory. *)
Definition index_in_dir (existing : index) (d : gmap text text) : Prop :=
  forall sid path un, existing !! sid = Some (path, un) -> is_Some (d !! path).

(** The name [stem-N.md] the collision loop builds *)
Definition suffixed (name_stem : text) (n : nat) : text :=
  name_stem ++ T "-" ++ of_nat n ++ T ".md".

(** The condition of the collision loop: the name is that of a file of the
    directory other than the file being processed. *)
Definition taken (d : gmap text text) (filepath name : text) : bool :=
  exists_ d name && negb (bool_decide (name = filepath)).


(** The end date [process_file] settles on, from the start date and the
    latest date of the content *)
Definition end_date_of (s : Dates.date) (latest : option Dates.date) : Dates.date :=
  match latest with
  | None => s
  | Some l => if Dates.ltb l s then s else l
  end.

(** The dates the scan of [extract_latest_date] keeps.  The scan goes from
    left to right and resumes after each match of the pattern, so a date
    that shares characters with an earlier match is not among them. *)
Definition candidates (content : text) : list Dates.date :=
  omap (Rename.candidate content) (Regex.finditer Rename.re_date content).

(** A text of ASCII characters ([str.isascii]) *)
Definition ascii_text (s : text) : Prop :=
  Forall (fun c => code c < 128) s.





(** A file of the scratch directory that can be read *)
Definition readable (file : scratch_file) : Prop :=
  exists content, file = Utf8 content.

(** An atom that consumes characters or tests a position, but marks no
    group *)
Definition plain (a : Regex.atom) : bool :=
  match a with
  | Regex.One _ | Regex.Star _ | Regex.Eol => true
  | Regex.Open | Regex.Close => false
  end.

(** The pattern [pre(p{n,})post] with one group *)
Definition one_group (pre : Regex.regex) (n : nat) (p : ascii -> bool)
  (post : Regex.regex) : Regex.regex :=
  pre ++ Regex.group (Regex.at_least n p) ++ post.

End Vocabulary.

(* ===================================================================== *)
(** ** Sample transcripts and directories *)
(* ===================================================================== *)

Module Examples.
Import Text Dates Dir.

(** The text of some lines, each ended by a newline *)
Definition lines (ls : list text) : text :=
  concat (map (fun l => l ++ [newline]) ls).

(** A transcript with the header of the export format *)
Definition transcript (session_id date : text) (body : list text) : text :=
  lines ([ T "# Claude Conversation Log"; [];
           T "Session ID: " ++ session_id;
           T "Date: " ++ date; [];
           T "---"; [] ] ++ body).

Definition session_a : text := T "ef08bb5d-596c-4ea9-b88c-a0c5e2415da0".
Definition session_b : text := T "0a1b2c3d-1111-2222-3333-444455556666".

Definition export_a : text := T "claude-conversation-2026-01-13-ef08bb5d.md".
Definition export_b : text := T "claude-conversation-2026-01-14-0a1b2c3d.md".

Definition transcript_a : text :=
  transcript session_a (T "2026-01-13 22:58:44")
    [T "## Human"; []; T "hello there"].

(** The same conversation, one answer later *)
Definition transcript_a_longer : text :=
  transcript session_a (T "2026-01-13 22:58:44")
    [T "## Human"; []; T "hello there"; []; T "## Assistant"; [];
     T "hello, on 2026-01-15"].

Definition transcript_b : text :=
  transcript session_b (T "2026-01-14 08:00:00")
    [T "## Human"; []; T "good morning"].

Definition notes_block : text :=
  Update.USER_NOTES_START ++ lines [[]; T "remember to follow up"]
  ++ Update.USER_NOTES_END.

(** An archive of two entries, the first with notes of its owner *)
Definition archive : world :=
  mk_world (<[T "notes-on-a.md" := transcript_a ++ notes_block ++ [newline]]>
            (<[export_b := transcript_b]> ∅)) [].

(** A scratch directory with the two conversations as archived *)
Definition scratch_same : gmap text Update.scratch_file :=
  <[export_a := Update.Utf8 (transcript_a ++ [newline])]>
  (<[export_b := Update.Utf8 transcript_b]> ∅).

(** A scratch directory where the first conversation went on, and with a
    file that names no session *)
Definition scratch_changed : gmap text Update.scratch_file :=
  <[export_a := Update.Utf8 transcript_a_longer]>
  (<[T "claude-conversation-draft.md" := Update.Utf8 (T "no header here")]> ∅).

(** The same scratch directory with a Markdown file that is not named as
    the collaborator names its exports *)
Definition scratch_with_agent : gmap text Update.scratch_file :=
  <[T "agent-a1b2c3d4.md" := Update.Utf8 transcript_b]> scratch_changed.

(** A scratch directory with only such a file *)
Definition scratch_agent_only : gmap text Update.scratch_file :=
  <[T "agent-a1b2c3d4.md" := Update.Utf8 transcript_b]> ∅.

(** A scratch directory with an export whose bytes are not UTF-8 *)
Definition scratch_undecodable : gmap text Update.scratch_file :=
  <[export_a := Update.NotUtf8]> ∅.







(** A conversation held in a project directory named [agent-tools] *)
Definition transcript_tools : text :=
  transcript session_a (T "2026-01-13 22:58:44")
    [T "## Human"; []; T "hello there"; []; T "## Assistant"; [];
     T "Working directory: C:\Users\bob\Projects\agent-tools";
     T "seen again on 2026-01-15"].

Definition inbox_tools : world := mk_world (<[export_a := transcript_tools]> ∅) [].

(** The name the renamer gives that conversation *)
Definition renamed_tools : text := T "01-13-2026--01-15-2026-agent-tools.md".

(** A string of 51 characters with a hyphen as its 50th *)
Definition long_name : text := repeat "a"%char 49 ++ T "-b".




(** A second session of the date range and description of an entry that is
    already there *)
Definition transcript_topic : text :=
  transcript session_b (T "2024-01-01 10:00:00")
    [T "## Human"; []; T "hello there"; []; T "## Assistant"; [];
     T "Working directory: C:\Users\bob\Projects\topic";
     T "see you on 2024-01-02"].

Definition export_topic : text := T "claude-conversation-2024-01-01-0a1b2c3d.md".

Definition inbox_topic : world :=
  mk_world (<[T "01-01-2024--01-02-2024-topic.md" := T "an earlier session"]>
            (<[export_topic := transcript_topic]> ∅)) [].

(** Files that lack the session line, or the date line *)
Definition inbox_headerless : world :=
  mk_world (<[T "a-readme.md" := lines [T "Date: 2026-01-13"; T "just notes"]]>
            (<[T "b-undated.md" := lines [T "Session ID: " ++ session_b; T "no date"]]>
             (<[export_a := transcript_a]> ∅))) [].

(** A subagent session in a project whose name has 30 characters *)
Definition transcript_long_project : text :=
  transcript session_b (T "2026-01-14 08:00:00")
    [T "Working directory: C:\Users\bob\Projects\my-very-long-project-name-2026"].


(** What the renamer reports for the second session of the topic *)
Definition result_topic : Rename.result :=
  Rename.mk_result export_topic (T "01-01-2024--01-02-2024-topic-1.md")
    session_b (T "2024-01-01") (T "2024-01-02") (T "topic").

(** The archive after the update of its first entry with the longer
    transcript *)
Definition archive_updated : world :=
  print (T "  Updated: notes-on-a.md (notes preserved)")
    (write_text (T "notes-on-a.md")
       (Update.merge_with_user_notes transcript_a_longer (Some notes_block))
       archive).

End Examples.

(* ===================================================================== *)
(** ** Facts about the string operations *)
(* ===================================================================== *)

Section TextFacts.
Import Text Vocabulary.

Lemma starts_with_app (p r : text) : starts_with p (p ++ r) = true.
Proof.
  induction p as [|a p IH]; simpl; [done|].
  by rewrite Ascii.eqb_refl, IH.
Qed.

Lemma starts_with_inv (p s : text) :
  starts_with p s = true -> exists r, s = p ++ r.
Proof.
  revert s. induction p as [|a p IH]; intros s H; simpl in *.
  - by exists s.
  - destruct s as [|b s]; [done|].
    apply andb_true_iff in H as [Hab Hp].
    apply Ascii.eqb_eq in Hab as ->.
    destruct (IH _ Hp) as [r ->]. by exists r.
Qed.

Lemma find_from_Some (sub s : text) (k i : nat) :
  find_from sub s k = Some i ->
  exists pre post, s = pre ++ sub ++ post /\ i = k + length pre.
Proof.
  revert k. induction s as [|c s IH]; intros k; simpl.
  - destruct (starts_with sub []) eqn:E; [|done].
    intros [= <-]. apply starts_with_inv in E as [r Hr].
    exists [], r. split; [done | simpl; lia].
  - destruct (starts_with sub (c :: s)) eqn:E.
    + intros [= <-]. apply starts_with_inv in E as [r Hr].
      exists [], r. split; [done | simpl; lia].
    + intros H. destruct (IH _ H) as (pre & post & -> & ->).
      exists (c :: pre), post. split; [done | simpl; lia].
Qed.

Lemma find_from_occurs (sub pre post : text) (k : nat) :
  is_Some (find_from sub (pre ++ sub ++ post) k).
Proof.
  revert k. induction pre as [|c pre IH]; intros k.
  - destruct sub as [|a sub]; simpl.
    + destruct post; eauto.
    + rewrite Ascii.eqb_refl, starts_with_app. eauto.
  - simpl. destruct (starts_with sub (c :: pre ++ sub ++ post)); eauto.
Qed.

Lemma find_from_le (sub pre post : text) (k i : nat) :
  find_from sub (pre ++ sub ++ post) k = Some i -> i <= k + length pre.
Proof.
  revert k. induction pre as [|c pre IH]; intros k.
  - destruct (find_from_occurs sub [] post k) as [j Hj]. simpl in *.
    assert (starts_with sub (sub ++ post) = true) as Hs by apply starts_with_app.
    destruct (sub ++ post); simpl; rewrite Hs; intros [= <-]; lia.
  - simpl. destruct (starts_with sub (c :: pre ++ sub ++ post)).
    + intros [= <-]. lia.
    + intros H%IH. lia.
Qed.

(** [find] gives the first occurrence. *)
Lemma find_first_at (sub s : text) (i : nat) :
  first_at sub s i -> find sub s = Some i.
Proof.
  intros [(a & b & -> & Ha) Hmin]. unfold find.
  destruct (find_from_occurs sub a b 0) as [j Hj]. rewrite Hj. f_equal.
  pose proof (find_from_le _ _ _ _ _ Hj) as Hle.
  apply find_from_Some in Hj as (a' & b' & Heq & ->).
  apply Hmin in Heq. lia.
Qed.

Lemma find_at_first (sub s : text) (i : nat) :
  find sub s = Some i -> first_at sub s i.
Proof.
  unfold find. intros H. split.
  - apply find_from_Some in H as (a & b & -> & ->). by exists a, b.
  - intros a b ->. apply find_from_le in H. lia.
Qed.

Lemma contains_occurs (sub pre post : text) :
  contains sub (pre ++ sub ++ post) = true.
Proof.
  unfold contains, find.
  by destruct (find_from_occurs sub pre post 0) as [i ->].
Qed.

Lemma find_from_None_head (sub s : text) (k : nat) :
  find_from sub s k = None -> starts_with sub s = false.
Proof. destruct s; simpl; by destruct (starts_with sub _). Qed.

(** Replacing a string that does not occur changes nothing. *)
Lemma replace_go_absent (old new s : text) (k : nat) :
  find_from old s k = None -> replace_go old new 0 s = s.
Proof.
  revert k. induction s as [|c s IH]; intros k H; [done|].
  pose proof (find_from_None_head _ _ _ H) as Hh.
  cbn [replace_go]. rewrite Hh.
  simpl in H. rewrite Hh in H. f_equal. by eapply IH.
Qed.

Lemma replace_absent (old new s : text) :
  contains old s = false -> replace old new s = s.
Proof.
  unfold contains, find, replace. destruct old as [|a old]; [done|].
  destruct (find_from (a :: old) s 0) eqn:E; [done|].
  intros _. by eapply replace_go_absent.
Qed.

Lemma last_rev (s : text) : last (rev s) = head s.
Proof. rewrite rev_alt. apply (last_reverse s). Qed.

Lemma head_rev (s : text) : head (rev s) = last s.
Proof. rewrite rev_alt. apply (head_reverse s). Qed.

Lemma drop_while_app_all (p : ascii -> bool) (ws s : text) :
  Forall (fun c => p c = true) ws -> drop_while p (ws ++ s) = drop_while p s.
Proof. induction 1 as [|c ws Hc _ IH]; simpl; [done|]. by rewrite Hc. Qed.

Lemma drop_while_idemp (p : ascii -> bool) (s : text) :
  drop_while p (drop_while p s) = drop_while p s.
Proof.
  induction s as [|c s IH]; simpl; [done|].
  destruct (p c) eqn:E; [done|]. simpl. by rewrite E.
Qed.

Lemma drop_while_head (p : ascii -> bool) (s : text) (c : ascii) (r : text) :
  drop_while p s = c :: r -> p c = false.
Proof.
  induction s as [|a s IH]; simpl; [done|].
  destruct (p a) eqn:E; [done|]. by intros [= <- <-].
Qed.

Lemma drop_while_suffix (p : ascii -> bool) (s : text) :
  exists ws, s = ws ++ drop_while p s /\ Forall (fun c => p c = true) ws.
Proof.
  induction s as [|a s (ws & Hs & Hws)]; simpl.
  - by exists [].
  - destruct (p a) eqn:E.
    + exists (a :: ws). split; [by rewrite Hs at 1 | by constructor].
    + by exists [].
Qed.

(** Trailing white space does not survive [rstrip]. *)
Lemma rstrip_app_space (s ws : text) :
  Forall (fun c => is_space c = true) ws -> rstrip (s ++ ws) = rstrip s.
Proof.
  intros H. unfold rstrip. rewrite rev_app_distr, drop_while_app_all; [done|].
  by apply Forall_rev.
Qed.

Lemma rstrip_idemp (s : text) : rstrip (rstrip s) = rstrip s.
Proof. unfold rstrip. by rewrite rev_involutive, drop_while_idemp. Qed.

(** What [rstrip] removes is white space at the end. *)
Lemma rstrip_decompose (s : text) :
  exists ws, s = rstrip s ++ ws /\ Forall (fun c => is_space c = true) ws.
Proof.
  unfold rstrip. destruct (drop_while_suffix is_space (rev s)) as (ws & Hs & Hws).
  exists (rev ws). split; [|by apply Forall_rev].
  rewrite <- rev_app_distr, <- Hs. by rewrite rev_involutive.
Qed.

(** Between the first occurrence of an opening marker and the first
    occurrence, further right, of a closing marker whose first character
    the opening marker has only at its start, the slice from the one to the
    end of the other is the opening marker, what lies between, and the
    closing marker. *)
Lemma slice_between (st en content : text) (i j : nat) (c0 : ascii) (en' : text) :
  en = c0 :: en' ->
  c0 ∉ tail st ->
  find st content = Some i ->
  find en content = Some j ->
  i < j ->
  exists pre mid post,
    content = pre ++ (st ++ mid ++ en) ++ post /\
    length pre = i /\
    slice i (j + length en) content = st ++ mid ++ en.
Proof.
  intros Hen Hno Hs He Hij. unfold find in *.
  apply find_from_Some in Hs as (pre & post & Hc & ->).
  apply find_from_Some in He as (pre2 & post2 & Hc2 & ->).
  rewrite !Nat.add_0_l in *.
  assert (Heq : pre ++ st ++ post = pre2 ++ en ++ post2) by congruence.
  assert (Hgoal : forall mid, content = pre ++ (st ++ mid ++ en) ++ post2 ->
            length pre2 = length pre + length st + length mid ->
            slice (length pre) (length pre2 + length en) content = st ++ mid ++ en).
  { intros mid -> Hl. unfold slice. rewrite drop_app_length.
    replace (length pre2 + length en - length pre)
      with (length (st ++ mid ++ en)) by (rewrite !length_app; lia).
    by rewrite take_app_length. }
  apply app_eq_app in Heq as [l [[Hp _]|[Hp Hrest]]].
  { subst pre. rewrite length_app in Hij. lia. }
  apply app_eq_app in Hrest as [l2 [[Hst Hpost]|[Hl Hpost]]].
  - destruct l2 as [|c l2].
    + rewrite app_nil_r in Hst. subst l. simpl in Hpost. subst post pre2.
      assert (Hcontent : content = pre ++ (st ++ [] ++ en) ++ post2)
        by (by rewrite Hc, <- !app_assoc).
      exists pre, [], post2. split; [done|]. split; [done|].
      apply Hgoal; [done | rewrite length_app; simpl; lia].
    + exfalso. apply Hno. subst en. injection Hpost as <- _.
      destruct l as [|a l]; [subst pre2; rewrite app_nil_r in Hij; lia|].
      rewrite Hst. simpl. apply elem_of_app. right. by left.
  - subst l post pre2.
    assert (Hcontent : content = pre ++ (st ++ l2 ++ en) ++ post2)
      by (by rewrite Hc, <- !app_assoc).
    exists pre, l2, post2. split; [done|]. split; [done|].
    apply Hgoal; [done | rewrite !length_app; lia].
Qed.

End TextFacts.

(* ===================================================================== *)
(** ** Facts about the reconciler *)
(* ===================================================================== *)

Section UpdateFacts.
Import Text Dir Update Vocabulary.

Lemma start_sentinel_single_opening :
  "<"%char ∉ tail USER_NOTES_START.
Proof. by apply (bool_decide_unpack _); vm_compute. Qed.

(** The notes the reconciler extracts are a region of the content that
    opens with the start sentinel and closes with the end sentinel. *)
Lemma extract_user_notes_region (content notes : text) :
  extract_user_notes content = Some notes ->
  exists pre mid post,
    content = pre ++ notes ++ post /\
    notes = USER_NOTES_START ++ mid ++ USER_NOTES_END.
Proof.
  unfold extract_user_notes.
  destruct (find USER_NOTES_START content) as [i|] eqn:Hs; [|done].
  destruct (find USER_NOTES_END content) as [j|] eqn:He; [|done].
  destruct (i <? j) eqn:Hij; [|done]. apply Nat.ltb_lt in Hij.
  intros Hnotes.
  assert (notes = slice i (j + length USER_NOTES_END) content) as ->
    by congruence.
  destruct (slice_between USER_NOTES_START USER_NOTES_END content i j
              "<"%char (tail USER_NOTES_END) eq_refl
              start_sentinel_single_opening Hs He Hij)
    as (pre & mid & post & Hc & _ & Hn).
  exists pre, mid, post. by rewrite Hn.
Qed.

Lemma extract_user_notes_nonempty (content : text) :
  extract_user_notes content <> Some [].
Proof.
  intros H. apply extract_user_notes_region in H as (? & ? & ? & _ & H).
  discriminate H.
Qed.

(** The index holds, for each session id, a file of the directory and the
    notes extracted from that file's content. *)
Lemma index_files_sound (names : list text) (w : world) (existing : index) :
  files (index_files names w existing).1 = files w /\
  forall sid path un,
    (index_files names w existing).2 !! sid = Some (path, un) ->
    existing !! sid = Some (path, un) \/
    exists content,
      files w !! path = Some content /\ un = extract_user_notes content.
Proof.
  revert w existing. induction names as [|f rest IH]; intros w existing; simpl.
  - split; [done | by left].
  - destruct (files w !! f) as [content|] eqn:Hf.
    + destruct (session_id_of content f) as [sid'|]; [|apply IH].
      destruct (IH w (<[sid' := (f, extract_user_notes content)]> existing))
        as [Hfiles Hix].
      split; [done|]. intros sid path un H.
      destruct (Hix _ _ _ H) as [Hin|?]; [|by right].
      destruct (decide (sid' = sid)) as [->|Hne].
      * rewrite lookup_insert_eq in Hin. injection Hin as <- <-. right. eauto.
      * rewrite lookup_insert_ne in Hin by done. by left.
    + destruct (IH (print (T "  Warning: Could not read " ++ f ++ T ": "
                            ++ Rename.read_error) w) existing) as [Hfiles Hix].
      split; [done|]. intros sid path un H. by apply Hix.
Qed.

Lemma get_existing_files_sound (w : world) (sid path : text) (un : option text) :
  (get_existing_files w).2 !! sid = Some (path, un) ->
  exists content,
    files w !! path = Some content /\ un = extract_user_notes content.
Proof.
  intros H. unfold get_existing_files in H.
  destruct (index_files_sound (glob [] (T ".md") (files w)) w ∅) as [_ Hix].
  destruct (Hix _ _ _ H) as [Hin|?]; [|done].
  by rewrite lookup_empty in Hin.
Qed.

Lemma get_existing_files_files (w : world) :
  files (get_existing_files w).1 = files w.
Proof. apply index_files_sound. Qed.

(** The text the change detection compares the fresh content with is, up to
    the white space at its end, the old content without the indexed notes. *)
Lemma old_without_notes_rstrip (old_content : text) (user_notes : option text) :
  rstrip match user_notes with
         | Some (c :: n) =>
             if contains (c :: n) old_content
             then rstrip (replace (c :: n) [] old_content)
             else old_content
         | _ => old_content
         end
  = rstrip (without_notes old_content user_notes).
Proof.
  destruct user_notes as [[|c n]|]; unfold without_notes; [done| |done].
  destruct (contains (c :: n) old_content) eqn:E.
  - apply rstrip_idemp.
  - by rewrite (replace_absent _ _ _ E).
Qed.

(** A fresh file whose session id is indexed and whose content is, up to
    trailing white space, the indexed file's content without its notes:
    counted as unchanged, nothing written. *)
Lemma reconcile_unchanged (existing : index) (name new_content : text)
  (w : world) (st : stats) (sid path old_content : text) (un : option text) :
  session_id_of new_content name = Some sid ->
  existing !! sid = Some (path, un) ->
  files w !! path = Some old_content ->
  rstrip new_content = rstrip (without_notes old_content un) ->
  reconcile existing (name, new_content) (w, st)
  = Some (print (T "  Unchanged: " ++ path) w,
          mk_stats (updated st) (new st) (S (unchanged st)) (skipped st)
            (notes_preserved st)).
Proof.
  intros Hsid Hix Hold Heq. unfold reconcile.
  rewrite Hsid, Hix, Hold, old_without_notes_rstrip.
  by rewrite bool_decide_eq_true_2.
Qed.

(** Otherwise the indexed file is rewritten with the merged content and the
    file is counted as updated. *)
Lemma reconcile_updated (existing : index) (name new_content : text)
  (w : world) (st : stats) (sid path old_content : text) (un : option text) :
  session_id_of new_content name = Some sid ->
  existing !! sid = Some (path, un) ->
  files w !! path = Some old_content ->
  rstrip new_content <> rstrip (without_notes old_content un) ->
  reconcile existing (name, new_content) (w, st)
  = Some (print (T "  Updated: " ++ path
                 ++ (if truthy un then T " (notes preserved)" else []))
            (write_text path (merge_with_user_notes new_content un) w),
          mk_stats (S (updated st)) (new st) (unchanged st) (skipped st)
            (if truthy un then S (notes_preserved st) else notes_preserved st)).
Proof.
  intros Hsid Hix Hold Hne. unfold reconcile.
  rewrite Hsid, Hix, Hold, old_without_notes_rstrip.
  by rewrite bool_decide_eq_false_2.
Qed.

Lemma tally_cons (v x : verdict) (vs : list verdict) :
  tally v (x :: vs) = tally v [x] + tally v vs.
Proof.
  unfold tally. rewrite !filter_cons, filter_nil.
  by destruct (decide (x = v)).
Qed.

(** One round of the loop: it ends without an exception when the index
    names files of the directory, it still does afterwards, and exactly one
    of the four counters moves, by one: which one is settled by the
    session id of the fresh file and by the index. *)
Lemma reconcile_step (existing : index) (name new_content : text)
  (w : world) (st : stats) :
  index_in_dir existing (files w) ->
  exists w' st' v,
    reconcile existing (name, new_content) (w, st) = Some (w', st') /\
    index_in_dir existing (files w') /\
    updated st' = updated st + tally VUpdated [v] /\
    new st' = new st + tally VNew [v] /\
    unchanged st' = unchanged st + tally VUnchanged [v] /\
    skipped st' = skipped st + tally VSkipped [v] /\
    (session_id_of new_content name = None -> files w' = files w) /\
    (v = VSkipped <-> session_id_of new_content name = None) /\
    (v = VNew <->
     exists sid, session_id_of new_content name = Some sid /\
                 existing !! sid = None) /\
    (v = VUpdated \/ v = VUnchanged <->
     exists sid, session_id_of new_content name = Some sid /\
                 is_Some (existing !! sid)).
Proof.
  intros Hinv.
  assert (Hgrow : forall n c, index_in_dir existing (<[n := c]> (files w))).
  { intros n c sid path un H. destruct (decide (n = path)) as [->|Hne].
    - rewrite lookup_insert_eq. eauto.
    - rewrite lookup_insert_ne by done. by eapply Hinv. }
  unfold reconcile.
  destruct (session_id_of new_content name) as [sid|] eqn:Hsid.
  - destruct (existing !! sid) as [[path un]|] eqn:Hix.
    + assert (Hkind : forall v, v = VUpdated \/ v = VUnchanged ->
                (v = VSkipped <-> Some sid = @None text) /\
                (v = VNew <-> exists sid', Some sid = Some sid' /\
                                           existing !! sid' = None) /\
                (v = VUpdated \/ v = VUnchanged <->
                 exists sid', Some sid = Some sid' /\
                              is_Some (existing !! sid'))).
      { intros v Hv. repeat split; try done.
        - intros ->. by destruct Hv.
        - intros ->. by destruct Hv.
        - intros (sid' & [= <-] & Hnone). congruence.
        - intros _. exists sid. split; [done|]. rewrite Hix. eauto. }
      destruct (Hinv _ _ _ Hix) as [old_content Hold]. rewrite Hold.
      destruct (bool_decide _).
      * eexists _, _, VUnchanged. split; [done|]. simpl.
        split; [done|]. do 4 (split; [unfold tally; simpl; lia|]).
        split; [done|]. apply Hkind. by right.
      * eexists _, _, VUpdated. split; [done|]. simpl.
        split; [apply Hgrow|]. do 4 (split; [unfold tally; simpl; lia|]).
        split; [done|]. apply Hkind. by left.
    + eexists _, _, VNew. split; [done|]. simpl.
      split; [apply Hgrow|]. do 4 (split; [unfold tally; simpl; lia|]).
      split; [done|]. repeat split; try done.
      * intros _. by exists sid.
      * intros [|]; done.
      * intros (sid' & [= <-] & [x Hx]). congruence.
  - eexists _, _, VSkipped. split; [done|]. simpl.
    split; [done|]. do 4 (split; [unfold tally; simpl; lia|]).
    split; [done|]. repeat split; try done.
    + intros (sid' & ? & _). done.
    + intros [|]; done.
    + intros (sid' & ? & _). done.
Qed.

(** The whole loop over fresh files that can all be read: it ends with
    its counts, there is one verdict for each fresh file, in order, settled
    by the file's session id and the index, and the counters are the
    tallies of the verdicts. *)
Lemma reconcile_all_counts (existing : index)
  (new_files : list (text * scratch_file)) (w : world) (st : stats) :
  index_in_dir existing (files w) ->
  Forall (fun new_file => readable new_file.2) new_files ->
  exists w' st' vs,
    reconcile_all existing new_files (w, st) = (w', Some st') /\
    length vs = length new_files /\
    updated st' = updated st + tally VUpdated vs /\
    new st' = new st + tally VNew vs /\
    unchanged st' = unchanged st + tally VUnchanged vs /\
    skipped st' = skipped st + tally VSkipped vs /\
    (forall i name content,
        new_files !! i = Some (name, Utf8 content) ->
        exists v,
          vs !! i = Some v /\
          (v = VSkipped <-> session_id_of content name = None) /\
          (v = VNew <->
           exists sid, session_id_of content name = Some sid /\
                       existing !! sid = None) /\
          (v = VUpdated \/ v = VUnchanged <->
           exists sid, session_id_of content name = Some sid /\
                       is_Some (existing !! sid))).
Proof.
  intros Hinv Hread. revert w st Hinv.
  induction Hread as [|[name file] rest [content Hfile] _ IH]; intros w st Hinv.
  - exists w, st, []. simpl. unfold tally. simpl.
    repeat split; try done; lia.
  - simpl in Hfile. subst file.
    destruct (reconcile_step existing name content w st Hinv)
      as (w1 & st1 & v & Hstep & Hinv1 & Hu & Hn & Hc & Hs & _ & Hkind).
    destruct (IH w1 st1 Hinv1)
      as (w2 & st2 & vs & Hall & Hlen & Hu2 & Hn2 & Hc2 & Hs2 & Hkinds).
    exists w2, st2, (v :: vs). cbn [reconcile_all]. rewrite Hstep.
    rewrite !(tally_cons _ v vs).
    split; [done|]. split; [simpl; lia|]. do 4 (split; [lia|]).
    intros [|i] name' content' Hi; simpl in Hi.
    + injection Hi as <- <-. exists v. by split.
    + by apply Hkinds.
Qed.

(** Fresh files that all are their archived counterparts: no round writes,
    each counts as unchanged. *)
Lemma reconcile_all_unchanged (existing : index)
  (new_files : list (text * scratch_file)) (w : world) (st : stats) :
  (forall name file, (name, file) ∈ new_files ->
     exists new_content sid path un old_content,
       file = Utf8 new_content /\
       session_id_of new_content name = Some sid /\
       existing !! sid = Some (path, un) /\
       files w !! path = Some old_content /\
       rstrip new_content = rstrip (without_notes old_content un)) ->
  exists w',
    reconcile_all existing new_files (w, st)
    = (w', Some (mk_stats (updated st) (new st) (unchanged st + length new_files)
                   (skipped st) (notes_preserved st))) /\
    files w' = files w.
Proof.
  revert w st. induction new_files as [|[name file] rest IH]; intros w st H.
  - exists w. simpl. rewrite Nat.add_0_r. by destruct st.
  - destruct (H name file)
      as (content & sid & path & un & old & -> & Hsid & Hix & Hold & Heq);
      [by left|].
    cbn [reconcile_all]. rewrite (reconcile_unchanged _ _ _ _ _ _ _ _ _ Hsid Hix Hold Heq).
    destruct (IH (print (T "  Unchanged: " ++ path) w)
                (mk_stats (updated st) (new st) (S (unchanged st)) (skipped st)
                   (notes_preserved st))) as (w' & Hall & Hfiles).
    { intros n c Hin. apply H. by right. }
    exists w'. rewrite Hall. simpl. split; [|done].
    do 2 f_equal. f_equal. lia.
Qed.

(** An exception ends the loop at the first fresh file that cannot be
    read. *)
Lemma reconcile_all_unreadable (existing : index)
  (new_files : list (text * scratch_file)) (w : world) (st : stats) :
  (exists name, (name, NotUtf8) ∈ new_files) ->
  (reconcile_all existing new_files (w, st)).2 = None.
Proof.
  intros [bad Hbad]. revert w st.
  induction new_files as [|[name file] rest IH]; intros w st.
  - by apply elem_of_nil in Hbad.
  - cbn [reconcile_all]. destruct file as [content|]; [|done].
    apply elem_of_cons in Hbad as [[=]|Hbad].
    destruct (reconcile existing (name, content) (w, st)) as [[w1 st1]|]; [|done].
    by apply IH.
Qed.

Lemma get_existing_files_in_dir (w : world) :
  index_in_dir (get_existing_files w).2 (files w).
Proof.
  intros sid path un H.
  destruct (get_existing_files_sound _ _ _ _ H) as (content & Hc & _). eauto.
Qed.

(** When every name of the scratch directory is a dated export, the glob
    lists every file of the directory. *)
Lemma new_files_of_all (scratch : gmap text scratch_file) :
  (forall name, is_Some (scratch !! name) -> dated_export name) ->
  new_files_of scratch = map_to_list scratch.
Proof.
  intros H. unfold new_files_of, glob.
  assert (Hl : Forall (fun kv => scratch !! kv.1 = Some kv.2) (map_to_list scratch)).
  { apply Forall_forall. intros [k v] Hin. by apply elem_of_map_to_list in Hin. }
  generalize dependent (map_to_list scratch). intros l.
  induction 1 as [|[k v] l Hkv _ IH]; [done|].
  cbn [map fst]. rewrite filter_cons.
  destruct (decide (matches (T "claude-conversation-") (T ".md") k = true)) as [_|Hn].
  - cbn [omap list_omap]. simpl in Hkv. rewrite Hkv. by rewrite IH.
  - exfalso. apply Hn. apply H. simpl in Hkv. eauto.
Qed.

(** The fresh files are the files of the scratch directory that are named
    as dated exports, each once. *)
Lemma new_files_of_lists (scratch : gmap text scratch_file) (name : text)
  (file : scratch_file) :
  (name, file) ∈ new_files_of scratch <->
  scratch !! name = Some file /\ dated_export name.
Proof.
  unfold new_files_of, glob, dated_export. rewrite list_elem_of_omap. split.
  - intros (n & Hn & Hg). apply list_elem_of_filter in Hn as [Hm _].
    destruct (scratch !! n) as [f|] eqn:E; [|done].
    injection Hg as <- <-. done.
  - intros [Hfile Hm]. exists name. rewrite Hfile. split; [|done].
    apply list_elem_of_filter. split; [done|].
    apply (list_elem_of_fmap_2 fst (map_to_list scratch) (name, file)).
    by apply elem_of_map_to_list.
Qed.

Lemma new_files_of_NoDup (scratch : gmap text scratch_file) :
  NoDup (new_files_of scratch).*1.
Proof.
  unfold new_files_of.
  assert (Hall : Forall (fun n => is_Some (scratch !! n))
                   (glob (T "claude-conversation-") (T ".md") scratch)).
  { apply Forall_forall. intros n [_ Hn]%list_elem_of_filter.
    apply (list_elem_of_fmap_1 fst) in Hn as ([k v] & -> & Hkv).
    apply elem_of_map_to_list in Hkv. simpl. eauto. }
  assert (Hnd : NoDup (glob (T "claude-conversation-") (T ".md") scratch)).
  { unfold glob. apply NoDup_filter. apply NoDup_fst_map_to_list. }
  induction Hall as [|n l [f Hf] _ IH]; [constructor|].
  apply NoDup_cons in Hnd as [Hn Hnd].
  cbn [omap list_omap]. rewrite Hf. cbn [fmap list_fmap fst].
  apply NoDup_cons. split; [|by apply IH].
  intros ([n' f'] & Heq & Hin)%list_elem_of_fmap. simpl in Heq. subst n'.
  apply list_elem_of_omap in Hin as (m & Hm & Hg).
  destruct (scratch !! m); [|done]. injection Hg as -> _. done.
Qed.

(** The reconciler looks for the first end sentinel of the whole content:
    when one stands before the first start sentinel, it extracts no
    notes. *)
Lemma end_sentinel_first_hides_notes :
  extract_user_notes (USER_NOTES_END ++ [newline] ++ Examples.notes_block) = None.
Proof. vm_compute. reflexivity. Qed.

(** A file of the scratch directory that is not named as a dated export is
    not among the fresh files. *)
Lemma new_files_of_skips_other_names :
  new_files_of Examples.scratch_agent_only = [].
Proof. vm_compute. reflexivity. Qed.

End UpdateFacts.

(* ===================================================================== *)
(** ** Facts about the renamer *)
(* ===================================================================== *)

Section RenameFacts.
Import Text Regex Dates Dir Rename Vocabulary.









(** A project name the renamer extracts obeys the rules for project names. *)
Lemma first_project_valid (ps : list regex) (content project : text) :
  first_project ps content = Some project ->
  2 < length project < 50 /\ starts_with (T "-") project = false.
Proof.
  induction ps as [|pattern rest IH]; simpl; [done|].
  destruct (search pattern content) as [m|]; [|done].
  case_match eqn:E; [|done].
  intros [= <-].
  apply andb_true_iff in E as [E Hs]. apply andb_true_iff in E as [H1 H2].
  apply Nat.ltb_lt in H1, H2. apply negb_true_iff in Hs. done.
Qed.

Lemma of_nat_inj (a b : nat) : of_nat a = of_nat b -> a = b.
Proof.
  unfold of_nat. intros H.
  apply (f_equal string_of_list_ascii) in H.
  rewrite !string_of_list_ascii_of_string in H.
  by apply (inj pretty).
Qed.

Lemma suffixed_inj (name_stem : text) : Inj (=) (=) (suffixed name_stem).
Proof.
  intros a b H. unfold suffixed in H.
  apply app_inv_head in H. apply app_inv_head in H.
  apply app_inv_tail in H. by apply of_nat_inj.
Qed.

Lemma taken_in_dir (d : gmap text text) (filepath name : text) :
  taken d filepath name = true -> name ∈ (map_to_list d).*1.
Proof.
  unfold taken, exists_. intros [H _]%andb_true_iff.
  apply bool_decide_eq_true_1 in H as [c Hc].
  apply list_elem_of_fmap. exists (name, c). split; [done|].
  by apply elem_of_map_to_list.
Qed.

(** When the loop runs out of rounds, every name it tested was taken. *)
Lemma resolve_collision_None (fuel : nat) (d : gmap text text)
  (filepath name_stem name : text) (k : nat) :
  resolve_collision fuel d filepath name_stem name k = None ->
  taken d filepath name = true /\
  forall M, k <= M < k + fuel -> taken d filepath (suffixed name_stem M) = true.
Proof.
  revert name k. induction fuel as [|fuel IH]; intros name k; simpl;
    fold (taken d filepath name); destruct (taken d filepath name) eqn:E; try done.
  - intros _. split; [done|]. intros M HM. lia.
  - intros H. apply IH in H as [Hk Hrest]. split; [done|].
    intros M HM. destruct (decide (M = k)) as [->|Hne]; [done|].
    apply Hrest. lia.
Qed.

(** The name the loop ends with: the first one it tests when that is not
    taken, and otherwise the suffixed name of the least number, from the
    counter on, that is not taken. *)
Lemma resolve_collision_Some (fuel : nat) (d : gmap text text)
  (filepath name_stem name : text) (k : nat) (chosen : text) :
  resolve_collision fuel d filepath name_stem name k = Some chosen ->
  (taken d filepath name = false /\ chosen = name) \/
  (taken d filepath name = true /\
   exists N, k <= N /\ chosen = suffixed name_stem N /\
     taken d filepath chosen = false /\
     forall M, k <= M < N -> taken d filepath (suffixed name_stem M) = true).
Proof.
  revert name k. induction fuel as [|fuel IH]; intros name k; simpl;
    fold (taken d filepath name); destruct (taken d filepath name) eqn:E; try done.
  - intros [= <-]. by left.
  - intros H. right. split; [done|].
    apply IH in H as [[Hfree ->]|(Htaken & N & HN & -> & Hfree & Hbelow)].
    + exists k. repeat split; try done. intros M HM. lia.
    + exists N. repeat split; try done; [lia|].
      intros M HM. destruct (decide (M = k)) as [->|Hne]; [done|].
      apply Hbelow. lia.
  - intros [= <-]. by left.
Qed.

(** A directory has fewer files than the rounds the renamer allows the
    loop, so the loop ends with a name. *)
Lemma resolve_collision_total (d : gmap text text) (filepath name_stem name : text) :
  is_Some (resolve_collision (S (size d)) d filepath name_stem name 1).
Proof.
  destruct (resolve_collision _ _ _ _ _ _) as [chosen|] eqn:E; [eauto|].
  exfalso. apply resolve_collision_None in E as [_ Hall].
  assert (Hsub : suffixed name_stem <$> seq 1 (S (size d)) ⊆+ (map_to_list d).*1).
  { apply NoDup_submseteq.
    - pose proof (suffixed_inj name_stem) as Hinj.
      apply (NoDup_fmap_2 _), NoDup_seq.
    - intros x (M & -> & HM)%list_elem_of_fmap.
      apply elem_of_seq in HM. eapply taken_in_dir, Hall. lia. }
  apply submseteq_length in Hsub.
  rewrite !length_fmap, length_seq, length_map_to_list in Hsub. lia.
Qed.

(** What a call of [process_file] that returns a dictionary did. *)
Lemma process_file_Processed (filepath : text) (dry_run : bool) (w w' : world)
  (r : result) :
  process_file filepath dry_run w = (w', Processed r) ->
  exists content sid s e,
    files w !! filepath = Some content /\
    extract_session_id content = Some sid /\
    extract_start_date content = Value (Some s) /\
    e = match extract_latest_date content with
        | None => s
        | Some l => if ltb l s then s else l
        end /\
    let description :=
      generate_description content (extract_project_name content) filepath in
    resolve_collision (S (size (files w))) (files w) filepath
      (stem s e description) (stem s e description ++ T ".md") 1
    = Some (new_name r) /\
    r = mk_result filepath (new_name r) sid (iso s) (iso e) description /\
    (dry_run = true -> files w' = files w) /\
    (dry_run = false ->
     files w'
     = (if bool_decide (new_name r = filepath) then fun d => d
        else delete filepath)
         (<[new_name r :=
              add_frontmatter_to_content content
                (create_frontmatter sid s e
                   (title (replace_char hyphen " "%char description))
                   (extract_project_name content)
                   (is_agent_session content filepath))]> (files w))).
Proof.
  unfold process_file.
  destruct (files w !! filepath) as [content|]; [|done].
  destruct (extract_session_id content) as [[|c sid]|] eqn:Hsid; [done| |done].
  destruct (extract_start_date content) as [[s|]|] eqn:Hstart; [|done|done].
  destruct (resolve_collision _ _ _ _ _ _) as [chosen|] eqn:Hname; [|done].
  destruct dry_run; intros [= <- <-]; simpl;
    exists content, (c :: sid), s; eexists; repeat split; try done.
  by destruct (bool_decide (chosen = filepath)).
Qed.

(** A call of [process_file] always ends: the collision loop finds a name
    within the rounds it is given. *)
Lemma process_file_finishes (filepath : text) (dry_run : bool) (w : world) :
  (process_file filepath dry_run w).2 <> Unfinished.
Proof.
  unfold process_file.
  destruct (files w !! filepath) as [content|]; [|done].
  destruct (extract_session_id content) as [[|c sid]|]; [done| |done].
  destruct (extract_start_date content) as [[s|]|]; [|done|done].
  match goal with
  | |- context [resolve_collision ?f ?d ?p ?st ?n 1] =>
      destruct (resolve_collision_total d p st n) as [chosen ->]
  end.
  by destruct dry_run.
Qed.

Lemma drop_while_Forall (P : ascii -> Prop) (p : ascii -> bool) (s : text) :
  Forall P s -> Forall P (drop_while p s).
Proof.
  induction 1 as [|c s Hc Hs IH]; simpl; [done|].
  destruct (p c); [done | by constructor].
Qed.

Lemma drop_while_length (p : ascii -> bool) (s : text) :
  length (drop_while p s) <= length s.
Proof. induction s as [|c s IH]; simpl; [done|]. destruct (p c); simpl; lia. Qed.

Lemma drop_while_all (p : ascii -> bool) (s : text) :
  Forall (fun c => p c = true) s -> drop_while p s = [].
Proof. induction 1 as [|c s Hc _ IH]; simpl; [done|]. by rewrite Hc. Qed.

Lemma strip_char_Forall (P : ascii -> Prop) (x : ascii) (s : text) :
  Forall P s -> Forall P (strip_char x s).
Proof.
  intros H. unfold strip_char.
  by apply Forall_rev, drop_while_Forall, Forall_rev, drop_while_Forall.
Qed.

Lemma strip_char_length (x : ascii) (s : text) :
  length (strip_char x s) <= length s.
Proof.
  unfold strip_char. rewrite length_rev.
  etrans; [apply drop_while_length|]. rewrite length_rev.
  apply drop_while_length.
Qed.

(** [strip] leaves nothing of the stripped character at either end. *)
Lemma strip_char_ends (x : ascii) (s : text) :
  head (strip_char x s) <> Some x /\ last (strip_char x s) <> Some x.
Proof.
  unfold strip_char. set (t := drop_while (Ascii.eqb x) s).
  destruct (drop_while_suffix (Ascii.eqb x) (rev t)) as (ws & Ht & Hws).
  set (u := drop_while (Ascii.eqb x) (rev t)) in *.
  split.
  - destruct (rev u) as [|c r] eqn:Hu; [done|]. simpl. intros [= ->].
    assert (Hrt : t = (x :: r) ++ rev ws).
    { rewrite <- Hu, <- rev_app_distr, <- Ht. by rewrite rev_involutive. }
    simpl in Hrt. apply drop_while_head in Hrt.
    by rewrite Ascii.eqb_refl in Hrt.
  - rewrite last_rev.
    destruct u as [|c r] eqn:Hu; [done|]. simpl. intros [= ->].
    subst u. apply drop_while_head in Hu. by rewrite Ascii.eqb_refl in Hu.
Qed.

Lemma collapse_hyphens_Forall (P : ascii -> Prop) (s : text) :
  Forall P s -> Forall P (collapse_hyphens s).
Proof.
  induction 1 as [|c s Hc Hs IH]; simpl; [done|].
  destruct (Ascii.eqb c hyphen && _); [done | by constructor].
Qed.

Lemma collapse_hyphens_length (s : text) :
  length (collapse_hyphens s) <= length s.
Proof.
  induction s as [|c s IH]; simpl; [done|].
  destruct (Ascii.eqb c hyphen && _); simpl; lia.
Qed.

Lemma sub_non_slug_Forall (s : text) :
  Forall (fun c => slug_char c = true) (sub_non_slug s).
Proof.
  unfold sub_non_slug. apply Forall_map, Forall_forall. intros c _. simpl.
  by destruct (slug_char c) eqn:E.
Qed.

(** What the slug sanitizer does ensure: a non-empty slug over the slug
    alphabet, of at most 50 characters, that does not start with a hyphen
    and, for an input of at most 50 characters, does not end with one; and
    the default slug for an input without a letter or a digit. *)
Lemma sanitize_description_spec (desc : text) :
  Forall (fun c => slug_char c = true) (sanitize_description desc) /\
  0 < length (sanitize_description desc) <= 50 /\
  head (sanitize_description desc) <> Some hyphen /\
  (length desc <= 50 -> last (sanitize_description desc) <> Some hyphen) /\
  (Forall (fun c => is_alpha c || is_digit c = false) desc ->
   sanitize_description desc = T "conversation").
Proof.
  unfold sanitize_description.
  set (u := strip_char hyphen (collapse_hyphens (sub_non_slug (lower desc)))).
  assert (Hall : Forall (fun c => slug_char c = true) u)
    by apply strip_char_Forall, collapse_hyphens_Forall, sub_non_slug_Forall.
  assert (Hlen : length u <= length desc).
  { unfold u. etrans; [apply strip_char_length|].
    etrans; [apply collapse_hyphens_length|].
    unfold sub_non_slug, lower. by rewrite !length_map. }
  destruct (strip_char_ends hyphen (collapse_hyphens (sub_non_slug (lower desc))))
    as [Hhead Hlast]. fold u in Hhead, Hlast.
  assert (Hpunct : Forall (fun c => is_alpha c || is_digit c = false) desc -> u = []).
  { intros H. unfold u, strip_char.
    assert (Hin : drop_while (Ascii.eqb hyphen)
                    (collapse_hyphens (sub_non_slug (lower desc))) = []);
      [|by rewrite Hin].
    apply drop_while_all, collapse_hyphens_Forall. unfold sub_non_slug, lower.
    rewrite map_map. apply Forall_map. eapply Forall_impl; [exact H|].
    intros c Hc. simpl.
    apply orb_false_iff in Hc as [Ha Hd]. unfold is_alpha in Ha.
    apply orb_false_iff in Ha as [Hu Hl].
    unfold lower_char. rewrite Hu. unfold slug_char. rewrite Hl, Hd. simpl.
    by destruct (Ascii.eqb c hyphen) eqn:E; [apply Ascii.eqb_eq in E as -> |]. }
  destruct u as [|c r] eqn:Hu.
  - repeat split; try (vm_compute; by auto).
    + by apply (bool_decide_unpack _); vm_compute.
    + vm_compute. lia.
    + vm_compute. lia.
  - split; [by apply Forall_take|]. split.
    + rewrite length_take. cbn [length]. lia.
    + split; [done|]. split.
      * intros H50. rewrite take_ge by lia. done.
      * intros H. by apply Hpunct in H.
Qed.

(** Every match the scan reports is a match of the pattern at its start. *)
Lemma finditer_go_sound (r : regex) (skip pos : nat) (s : text) (m : rmatch) :
  m ∈ finditer_go r skip pos s ->
  exists k, m_start m = pos + k /\
            match_here r (pos + k) (drop k s) = Some (m_end m, m_marks m).
Proof.
  revert skip pos. induction s as [|c s IH]; intros skip pos.
  - destruct skip as [|skip]; simpl; [|by intros ?%elem_of_nil].
    destruct (match_here r pos []) as [[e ms]|] eqn:E; [|by intros ?%elem_of_nil].
    intros ->%list_elem_of_singleton. exists 0. simpl.
    by rewrite Nat.add_0_r.
  - assert (Hshift : forall skip', m ∈ finditer_go r skip' (S pos) s ->
              exists k, m_start m = pos + k /\
                match_here r (pos + k) (drop k (c :: s)) = Some (m_end m, m_marks m)).
    { intros skip' H. apply IH in H as (k & Hk & Hm). exists (S k).
      replace (pos + S k) with (S pos + k) by lia. by split. }
    destruct skip as [|skip]; cbn [finditer_go]; [|apply Hshift].
    destruct (match_here r pos (c :: s)) as [[e ms]|] eqn:E; [|apply Hshift].
    intros [->|H]%elem_of_cons; [|by eapply Hshift].
    exists 0. simpl. by rewrite Nat.add_0_r.
Qed.

(** A match of the date pattern covers four digits, a hyphen, two digits, a
    hyphen and two digits, and its groups are the three numbers. *)
Lemma match_here_re_date (pos : nat) (s : text) (e : nat) (ms : list nat) :
  match_here re_date pos s = Some (e, ms) ->
  exists y1 y2 y3 y4 m1 m2 d1 d2 rest,
    s = [y1; y2; y3; y4; hyphen; m1; m2; hyphen; d1; d2] ++ rest /\
    Forall (fun c => is_digit c = true) [y1; y2; y3; y4; m1; m2; d1; d2] /\
    ms = [pos; 4 + pos; 5 + pos; 7 + pos; 8 + pos; 10 + pos].
Proof.
  unfold re_date, group, exactly, lit. cbn [repeat app map list_ascii_of_string].
  cbn [match_here].
  repeat (destruct s as [|? s]; [done|];
          match goal with
          | |- context [if ?b then _ else _] => destruct b eqn:?; [|done]
          end).
  intros [= <- <-].
  repeat match goal with
         | H : Ascii.eqb _ _ = true |- _ => apply Ascii.eqb_eq in H; subst
         end.
  eexists _, _, _, _, _, _, _, _, s. split; [reflexivity|].
  split; [by repeat constructor | done].
Qed.

Lemma to_nat_snoc (ds : text) (c : ascii) :
  to_nat (ds ++ [c]) = 10 * to_nat ds + (code c - 48).
Proof. unfold to_nat. by rewrite fold_left_app. Qed.

(** Reading a string of digits and writing the number with as many digits
    gives the string back. *)
Lemma pad_to_nat (ds : text) :
  Forall (fun c => is_digit c = true) ds -> pad (length ds) (to_nat ds) = ds.
Proof.
  induction ds as [|c ds IH] using rev_ind; [done|].
  intros [Hds Hc]%Forall_app. rewrite Forall_singleton in Hc.
  rewrite length_app, Nat.add_1_r, to_nat_snoc. cbn [pad].
  unfold is_digit, between in Hc. apply andb_true_iff in Hc as [H1 H2].
  apply Nat.leb_le in H1, H2.
  assert (Hq : (10 * to_nat ds + (code c - 48)) / 10 = to_nat ds)
    by (symmetry; apply (Nat.div_unique _ 10 _ (code c - 48)); lia).
  assert (Hr : (10 * to_nat ds + (code c - 48)) mod 10 = code c - 48)
    by (symmetry; apply (Nat.mod_unique _ 10 (to_nat ds)); lia).
  rewrite Hq, Hr, (IH Hds). f_equal. f_equal.
  replace (48 + (code c - 48)) with (code c) by lia.
  apply ascii_nat_embedding.
Qed.

(** A date the scan keeps is written, as YYYY-MM-DD, in the content. *)
Lemma candidates_occur (content : text) (d : date) :
  d ∈ candidates content ->
  exists i, slice i (i + 10) content = iso d.
Proof.
  intros (m & Hm & Hd)%list_elem_of_omap.
  apply finditer_go_sound in Hm as (k & Hk & Hmatch). simpl in Hk, Hmatch.
  apply match_here_re_date in Hmatch
    as (y1 & y2 & y3 & y4 & m1 & m2 & d1 & d2 & rest & Hs & Hdig & Hms).
  exists k.
  assert (Hg : forall a b, slice (a + k) (b + k) content
                           = take (b - a) (drop a (drop k content))).
  { intros a b. unfold slice. rewrite drop_drop.
    replace (k + a) with (a + k) by lia.
    replace (b + k - (a + k)) with (b - a) by lia. done. }
  assert (G1 : group_of content m 1 = slice (0 + k) (4 + k) content)
    by (unfold group_of; rewrite Hms; reflexivity).
  assert (G2 : group_of content m 2 = slice (5 + k) (7 + k) content)
    by (unfold group_of; rewrite Hms; reflexivity).
  assert (G3 : group_of content m 3 = slice (8 + k) (10 + k) content)
    by (unfold group_of; rewrite Hms; reflexivity).
  unfold candidate in Hd. rewrite G1, G2, G3, !Hg, Hs in Hd.
  cbn [drop take app Nat.sub] in Hd.
  apply Forall_cons in Hdig as [Hy1 Hdig]. apply Forall_cons in Hdig as [Hy2 Hdig].
  apply Forall_cons in Hdig as [Hy3 Hdig]. apply Forall_cons in Hdig as [Hy4 Hdig].
  apply Forall_cons in Hdig as [Hm1 Hdig]. apply Forall_cons in Hdig as [Hm2 Hdig].
  apply Forall_cons in Hdig as [Hd1 Hdig]. apply Forall_cons in Hdig as [Hd2 _].
  unfold make in Hd.
  destruct (valid _ _ _); [|done]. cbn [year] in Hd.
  destruct (_ && _) in Hd; [|done]. injection Hd as <-.
  unfold iso. cbn [year month day].
  assert (P4 : pad 4 (to_nat [y1; y2; y3; y4]) = [y1; y2; y3; y4])
    by (apply (pad_to_nat [y1; y2; y3; y4]); by repeat constructor).
  assert (P2 : pad 2 (to_nat [m1; m2]) = [m1; m2])
    by (apply (pad_to_nat [m1; m2]); by repeat constructor).
  assert (P2' : pad 2 (to_nat [d1; d2]) = [d1; d2])
    by (apply (pad_to_nat [d1; d2]); by repeat constructor).
  rewrite take_0, P4, P2, P2'.
  replace (k + 10) with (10 + k) by lia.
  change (slice k (10 + k) content) with (slice (0 + k) (10 + k) content).
  by rewrite Hg, Hs.
Qed.

(** The scan does not look inside a match: of two dates that share
    characters only the left one is found. *)
Lemma scan_passes_over_overlapped_date :
  candidates (T "2021-01-2029-12-31") = [mk_date 2021 1 20].
Proof. vm_compute. reflexivity. Qed.

End RenameFacts.

(* ===================================================================== *)
(** ** The scan for dates and the dates of the content *)
(* ===================================================================== *)

Section ScanFacts.
Import Text Regex Dates Dir Rename Vocabulary.














End ScanFacts.

(* ===================================================================== *)
(** ** The reconciler's properties *)
(* ===================================================================== *)

Import Text Regex Dates Dir Vocabulary Examples.




(** C10. Change detection is modulo trailing white space.  For a fresh file
    whose session is indexed, the loop decides by comparing the fresh
    content with the existing file's content from which the indexed notes
    were textually removed, both without their trailing white space: when
    they agree the file is counted as unchanged and the directory is left
    as it was, otherwise the file is rewritten and counted as updated.
    Hence a stored content that differs from the fresh transcript only in
    trailing white space is never rewritten. *)
Theorem C10_change_detection_modulo_trailing_space
  (existing : Update.index) (w : world) (st : Update.stats)
  (name new_content sid path old_content : text) (un : option text) :
  Update.session_id_of new_content name = Some sid ->
  existing !! sid = Some (path, un) ->
  files w !! path = Some old_content ->
  (exists w' st',
      Update.reconcile existing (name, new_content) (w, st) = Some (w', st') /\
      ((rstrip new_content = rstrip (without_notes old_content un) /\
        files w' = files w /\
        Update.unchanged st' = S (Update.unchanged st) /\
        Update.updated st' = Update.updated st)
       \/
       (rstrip new_content <> rstrip (without_notes old_content un) /\
        files w' = <[path := Update.merge_with_user_notes new_content un]> (files w) /\
        Update.updated st' = S (Update.updated st) /\
        Update.unchanged st' = Update.unchanged st))) /\
  (same_but_trailing_space new_content (without_notes old_content un) ->
   exists w',
     Update.reconcile existing (name, new_content) (w, st)
     = Some (w', Update.mk_stats (Update.updated st) (Update.new st)
                   (S (Update.unchanged st)) (Update.skipped st)
                   (Update.notes_preserved st)) /\
     files w' = files w).
Proof.
  intros Hsid Hix Hold. split.
  - destruct (decide (rstrip new_content
                      = rstrip (without_notes old_content un))) as [Heq|Hne].
    + rewrite (reconcile_unchanged _ _ _ _ _ _ _ _ _ Hsid Hix Hold Heq).
      eexists _, _. split; [done|]. left. by repeat split.
    + rewrite (reconcile_updated _ _ _ _ _ _ _ _ _ Hsid Hix Hold Hne).
      eexists _, _. split; [done|]. right. by repeat split.
  - intros (core & wa & wb & Ha & Hb & Hwa & Hwb).
    assert (Heq : rstrip new_content = rstrip (without_notes old_content un)).
    { rewrite Ha, Hb. by rewrite !rstrip_app_space. }
    rewrite (reconcile_unchanged _ _ _ _ _ _ _ _ _ Hsid Hix Hold Heq).
    by eexists.
Qed.

Lemma C10_change_detection_modulo_trailing_space_witness :
  exists w',
    Update.reconcile (Update.get_existing_files archive).2
      (export_a, transcript_a ++ T "   " ++ [newline; newline])
      (archive, Update.mk_stats 0 0 0 0 0)
    = Some (w', Update.mk_stats 0 0 1 0 0) /\
    files w' = files archive.
Proof.
  apply (C10_change_detection_modulo_trailing_space
           (Update.get_existing_files archive).2 archive
           (Update.mk_stats 0 0 0 0 0) export_a
           (transcript_a ++ T "   " ++ [newline; newline])
           (T "ef08bb5d") (T "notes-on-a.md")
           (transcript_a ++ notes_block ++ [newline]) (Some notes_block)).
  - vm_compute. reflexivity.
  - vm_compute. reflexivity.
  - vm_compute. reflexivity.
  - exists transcript_a, (T "   " ++ [newline; newline]), [newline].
    split; [reflexivity|]. split; [vm_compute; reflexivity|].
    split; repeat constructor.
Defined.

(** C3. A run that finds nothing new.  When each fresh file the glob lists
    has an indexed session id and is the content of the indexed file with
    the indexed notes removed, reconciliation ends with the counts
    updated 0, new 0, unchanged N, skipped 0, N being the number of fresh
    files, and the archive directory holds what it held before. *)
Theorem C3_unchanged_transcripts_rewrite_nothing
  (backup_dir out : text) (scratch : gmap text Update.scratch_file) (w : world) :
  Forall (fun new_file =>
            exists new_content sid path un old_content,
              new_file.2 = Update.Utf8 new_content /\
              Update.session_id_of new_content new_file.1 = Some sid /\
              (Update.get_existing_files w).2 !! sid = Some (path, un) /\
              files w !! path = Some old_content /\
              new_content = without_notes old_content un)
         (Update.new_files_of scratch) ->
  exists w',
    Update.update_extracts backup_dir (Update.Extracted out scratch) w
    = (w', Update.Counts
             (Update.mk_stats 0 0 (length (Update.new_files_of scratch)) 0 0)) /\
    files w' = files w.
Proof.
  intros H. unfold Update.update_extracts.
  pose proof (get_existing_files_files w) as Hfiles.
  destruct (Update.get_existing_files w) as [w1 existing]. simpl in *.
  match goal with
  | |- context [Update.reconcile_all existing ?nf (?w2, ?st0)] =>
      destruct (reconcile_all_unchanged existing nf w2 st0) as (w' & Hall & Hw')
  end.
  - intros name file Hin.
    rewrite Forall_forall in H.
    destruct (H _ Hin)
      as (new_content & sid & path & un & old & Hfile & Hsid & Hix & Hold & Heq).
    exists new_content, sid, path, un, old. simpl in *. rewrite Hfiles.
    repeat split; try done. by rewrite Heq.
  - rewrite Hall. simpl. exists w'. split; [done|]. by rewrite Hw'.
Qed.

Lemma C3_unchanged_transcripts_rewrite_nothing_witness :
  exists w',
    Update.update_extracts (T "/backup") (Update.Extracted (T "ok") scratch_same)
      archive
    = (w', Update.Counts (Update.mk_stats 0 0 2 0 0)) /\
    files w' = files archive.
Proof.
  apply (C3_unchanged_transcripts_rewrite_nothing (T "/backup") (T "ok")
           scratch_same archive).
  assert (Hnew : Update.new_files_of scratch_same
                 = [(export_a, Update.Utf8 (transcript_a ++ [newline]));
                    (export_b, Update.Utf8 transcript_b)])
    by (vm_compute; reflexivity).
  rewrite Hnew. repeat constructor.
  - exists (transcript_a ++ [newline]), (T "ef08bb5d"), (T "notes-on-a.md"),
      (Some notes_block), (transcript_a ++ notes_block ++ [newline]).
    repeat split; vm_compute; reflexivity.
  - exists transcript_b, (T "0a1b2c3d"), export_b, None, transcript_b.
    repeat split; vm_compute; reflexivity.
Defined.

(** C8. Every listed file is counted once.  The fresh files the loop goes
    through are the files of the scratch directory named
    [claude-conversation-*.md], each once.  When each of them can be read,
    the run ends with its counts (no exception leaves the loop), each file
    gets exactly one of the four verdicts updated, new, unchanged and
    skipped, and the four final counts are the numbers of files with each
    verdict.  The verdict is skipped exactly when the content and the name
    give no session id, new exactly when they give one that the index does
    not have, and updated or unchanged exactly when they give one that the
    index has. *)
Theorem C8_every_listed_file_counted_once
  (backup_dir out : text) (scratch : gmap text Update.scratch_file) (w : world) :
  Forall (fun new_file => readable new_file.2) (Update.new_files_of scratch) ->
  (forall name file,
      (name, file) ∈ Update.new_files_of scratch <->
      scratch !! name = Some file /\ dated_export name) /\
  NoDup (Update.new_files_of scratch).*1 /\
  exists w' st vs,
    Update.update_extracts backup_dir (Update.Extracted out scratch) w
    = (w', Update.Counts st) /\
    length vs = length (Update.new_files_of scratch) /\
    Update.updated st = tally VUpdated vs /\
    Update.new st = tally VNew vs /\
    Update.unchanged st = tally VUnchanged vs /\
    Update.skipped st = tally VSkipped vs /\
    (forall i name content,
        Update.new_files_of scratch !! i = Some (name, Update.Utf8 content) ->
        exists v,
          vs !! i = Some v /\
          (v = VSkipped <-> Update.session_id_of content name = None) /\
          (v = VNew <->
           exists sid, Update.session_id_of content name = Some sid /\
                       (Update.get_existing_files w).2 !! sid = None) /\
          (v = VUpdated \/ v = VUnchanged <->
           exists sid, Update.session_id_of content name = Some sid /\
                       is_Some ((Update.get_existing_files w).2 !! sid))).
Proof.
  intros Hread.
  split; [apply new_files_of_lists|]. split; [apply new_files_of_NoDup|].
  unfold Update.update_extracts.
  pose proof (get_existing_files_files w) as Hfiles.
  pose proof (get_existing_files_in_dir w) as Hinv.
  destruct (Update.get_existing_files w) as [w1 existing]. simpl in *.
  match goal with
  | |- context [Update.reconcile_all existing ?nf (?w2, ?st0)] =>
      destruct (reconcile_all_counts existing nf w2 st0)
        as (w' & st' & vs & Hrun & Hlen & Hu & Hn & Hc & Hs & Hkinds)
  end.
  { simpl. by rewrite Hfiles. }
  { done. }
  rewrite Hrun. exists w', st', vs. simpl in *. by repeat split.
Qed.

Lemma C8_every_listed_file_counted_once_witness :
  (forall name file,
      (name, file) ∈ Update.new_files_of scratch_with_agent <->
      scratch_with_agent !! name = Some file /\ dated_export name) /\
  NoDup (Update.new_files_of scratch_with_agent).*1 /\
  exists w' st vs,
    Update.update_extracts (T "/backup")
      (Update.Extracted (T "ok") scratch_with_agent) archive
    = (w', Update.Counts st) /\
    length vs = length (Update.new_files_of scratch_with_agent) /\
    Update.updated st = tally VUpdated vs /\
    Update.new st = tally VNew vs /\
    Update.unchanged st = tally VUnchanged vs /\
    Update.skipped st = tally VSkipped vs /\
    (forall i name content,
        Update.new_files_of scratch_with_agent !! i
        = Some (name, Update.Utf8 content) ->
        exists v,
          vs !! i = Some v /\
          (v = VSkipped <-> Update.session_id_of content name = None) /\
          (v = VNew <->
           exists sid, Update.session_id_of content name = Some sid /\
                       (Update.get_existing_files archive).2 !! sid = None) /\
          (v = VUpdated \/ v = VUnchanged <->
           exists sid, Update.session_id_of content name = Some sid /\
                       is_Some ((Update.get_existing_files archive).2 !! sid))).
Proof.
  apply (C8_every_listed_file_counted_once (T "/backup") (T "ok")
           scratch_with_agent archive).
  assert (Hnew : Update.new_files_of scratch_with_agent
                 = [(T "claude-conversation-draft.md",
                     Update.Utf8 (T "no header here"));
                    (export_a, Update.Utf8 transcript_a_longer)])
    by (vm_compute; reflexivity).
  rewrite Hnew. repeat constructor; eexists; reflexivity.
Defined.

(** C8, as the claim words it, fails.  A Markdown file of the scratch
    directory that is not named [claude-conversation-*.md] is not looked
    at: the session of the file below is in the archive, and the run counts
    nothing.  And a listed file that cannot be read ends the run with an
    exception. *)
Lemma C8_markdown_file_not_counted :
  scratch_agent_only !! T "agent-a1b2c3d4.md" = Some (Update.Utf8 transcript_b) /\
  matches [] (T ".md") (T "agent-a1b2c3d4.md") = true /\
  is_Some ((Update.get_existing_files archive).2 !! T "0a1b2c3d") /\
  Update.session_id_of transcript_b (T "agent-a1b2c3d4.md") = Some (T "0a1b2c3d") /\
  (Update.update_extracts (T "/backup")
     (Update.Extracted (T "ok") scratch_agent_only) archive).2
  = Update.Counts (Update.mk_stats 0 0 0 0 0) /\
  (Update.update_extracts (T "/backup")
     (Update.Extracted (T "ok") scratch_undecodable) archive).2
  = Update.Exception.
Proof.
  repeat split; try (vm_compute; reflexivity).
  vm_compute. eauto.
Qed.

(* ===================================================================== *)
(** ** The renamer's properties *)
(* ===================================================================== *)

(** C4. The slug sanitizer can end a slug with a hyphen: it trims the
    hyphens before it cuts at 50 characters, so a hyphen that is the 50th
    character of the trimmed text becomes the last one.  On 49 letters [a],
    a hyphen and a [b], the result is the 49 letters and the hyphen. *)
Theorem C4_sanitized_slug_ends_with_hyphen :
  length long_name = 51 /\
  Rename.sanitize_description long_name = repeat "a"%char 49 ++ T "-" /\
  last (Rename.sanitize_description long_name) = Some hyphen.
Proof. repeat split; vm_compute; reflexivity. Qed.

(** C9. The description of a subagent session.  For an agent session, the
    description is the sanitized project name followed by [-subagent] only
    when the extracted project name has fewer than 30 characters and its
    slug more than 2, and it is so whenever both hold; with an extracted
    project name of 30 to 49 characters, which the project-name rules
    accept, and with none, the description is [subagent]. *)
Theorem C9_subagent_description (content filename : text) :
  Rename.is_agent_session content filename = true ->
  let project_name := Rename.extract_project_name content in
  let description := Rename.generate_description content project_name filename in
  (forall p, project_name = Some p ->
     (description = Rename.sanitize_description p ++ T "-subagent" <->
      length p < 30 /\ 2 < length (Rename.sanitize_description p)) /\
     (30 <= length p <= 49 -> description = T "subagent") /\
     2 < length p < 50) /\
  (project_name = None -> description = T "subagent").
Proof.
  intros Hagent project_name description. subst description.
  unfold Rename.generate_description. rewrite Hagent. split.
  - intros p Hp. rewrite Hp.
    destruct (first_project_valid _ _ _ Hp) as [Hlen _].
    destruct p as [|c p]; [simpl in Hlen; lia|].
    assert (Hsub : forall clean : text, T "subagent" <> clean ++ T "-subagent").
    { intros clean H. apply (f_equal length) in H.
      rewrite length_app in H. simpl in H. lia. }
    split; [|split; [|exact Hlen]].
    + destruct (length (c :: p) <? 30) eqn:H30.
      * apply Nat.ltb_lt in H30.
        destruct (Rename.sanitize_description (c :: p)) as [|a clean] eqn:Hclean.
        -- cbn [truthy andb]. split; [done | intros [_ H]; simpl in H; lia].
        -- cbn [truthy andb]. destruct (2 <? length (a :: clean)) eqn:H2.
           ++ apply Nat.ltb_lt in H2. by split.
           ++ apply Nat.ltb_ge in H2.
              split; [intros H; by apply Hsub in H | intros [_ H]; lia].
      * apply Nat.ltb_ge in H30.
        split; [intros H; by apply Hsub in H | intros [H _]; lia].
    + intros [H30 _]. destruct (length (c :: p) <? 30) eqn:E; [|done].
      apply Nat.ltb_lt in E. lia.
  - by intros ->.
Qed.

Lemma C9_subagent_description_witness :
  Rename.extract_project_name transcript_long_project
  = Some (T "my-very-long-project-name-2026") /\
  Rename.generate_description transcript_long_project
    (Rename.extract_project_name transcript_long_project) (T "agent-9f3a.md")
  = T "subagent".
Proof.
  split; [vm_compute; reflexivity|].
  apply (proj1 (C9_subagent_description transcript_long_project (T "agent-9f3a.md")
                  ltac:(vm_compute; reflexivity))
           (T "my-very-long-project-name-2026")
           ltac:(vm_compute; reflexivity)).
  vm_compute. split; apply Nat.leb_le; reflexivity.
Defined.

(** C7. The two hard skips of the renamer.  For a file of the directory
    whose content gives no session id, or gives one but has no line that
    starts with the date header, [process_file] prints the reason with the
    file's name, returns nothing and leaves every file as it was, and the
    loop of [main] goes on with the next file, its results unchanged.
    These are the only ways a readable file is skipped. *)
Theorem C7_renamer_hard_skips (w : world) (filepath content : text)
  (dry_run : bool) :
  files w !! filepath = Some content ->
  (truthy (Rename.extract_session_id content) = false \/
   search_bol Rename.re_start_date content = None ->
   exists why line,
     Rename.process_file filepath dry_run w = (print line w, Rename.Skipped why) /\
     ((why = Rename.NoSessionId /\
       line = T "  Skipping " ++ filepath ++ T ": No session ID found") \/
      (why = Rename.NoStartDate /\
       line = T "  Skipping " ++ filepath ++ T ": No start date found")) /\
     files (print line w) = files w /\
     forall rest results,
       Rename.process_all (filepath :: rest) dry_run w results
       = Rename.process_all rest dry_run (print [] (print line w)) results) /\
  (forall w' why,
      Rename.process_file filepath dry_run w = (w', Rename.Skipped why) ->
      (why = Rename.NoSessionId /\
       truthy (Rename.extract_session_id content) = false) \/
      (why = Rename.NoStartDate /\
       search_bol Rename.re_start_date content = None)).
Proof.
  intros Hfile.
  assert (Hstart : search_bol Rename.re_start_date content = None ->
                   Rename.extract_start_date content = Rename.Value None).
  { intros H. unfold Rename.extract_start_date. by rewrite H. }
  assert (Hstart' : Rename.extract_start_date content = Rename.Value None ->
                    search_bol Rename.re_start_date content = None).
  { unfold Rename.extract_start_date.
    destruct (search_bol Rename.re_start_date content); [|done].
    by destruct (Rename.strptime_ymd _). }
  split.
  - intros Hskip.
    assert (Hcase : truthy (Rename.extract_session_id content) = false \/
                    (truthy (Rename.extract_session_id content) = true /\
                     search_bol Rename.re_start_date content = None)).
    { destruct (truthy (Rename.extract_session_id content)); [|by left].
      destruct Hskip as [?|?]; [done | by right]. }
    destruct Hcase as [Hsid|[Hsid Hdate]].
    + exists Rename.NoSessionId, (T "  Skipping " ++ filepath ++ T ": No session ID found").
      assert (Hp : Rename.process_file filepath dry_run w
                   = (print (T "  Skipping " ++ filepath ++ T ": No session ID found") w,
                      Rename.Skipped Rename.NoSessionId)).
      { unfold Rename.process_file. rewrite Hfile.
        by destruct (Rename.extract_session_id content) as [[|c sid]|]. }
      repeat split; [done | by left |].
      intros rest results. cbn [Rename.process_all]. by rewrite Hp.
    + exists Rename.NoStartDate, (T "  Skipping " ++ filepath ++ T ": No start date found").
      assert (Hp : Rename.process_file filepath dry_run w
                   = (print (T "  Skipping " ++ filepath ++ T ": No start date found") w,
                      Rename.Skipped Rename.NoStartDate)).
      { unfold Rename.process_file. rewrite Hfile.
        destruct (Rename.extract_session_id content) as [[|c sid]|]; [done| |done].
        by rewrite (Hstart Hdate). }
      repeat split; [done | by right |].
      intros rest results. cbn [Rename.process_all]. by rewrite Hp.
  - intros w' why. unfold Rename.process_file. rewrite Hfile.
    destruct (Rename.extract_session_id content) as [[|c sid]|];
      [intros [= <- <-]; by left | | intros [= <- <-]; by left].
    destruct (Rename.extract_start_date content) as [[s|]|] eqn:Hs; [| |done].
    + destruct (Rename.resolve_collision _ _ _ _ _ _); [|done].
      by destruct dry_run.
    + intros [= <- <-]. right. split; [done | by apply Hstart'].
Qed.

Lemma C7_renamer_hard_skips_witness :
  exists why line,
    Rename.process_file (T "b-undated.md") false inbox_headerless
    = (print line inbox_headerless, Rename.Skipped why) /\
    ((why = Rename.NoSessionId /\
      line = T "  Skipping " ++ T "b-undated.md" ++ T ": No session ID found") \/
     (why = Rename.NoStartDate /\
      line = T "  Skipping " ++ T "b-undated.md" ++ T ": No start date found")) /\
    files (print line inbox_headerless) = files inbox_headerless /\
    forall rest results,
      Rename.process_all (T "b-undated.md" :: rest) false inbox_headerless results
      = Rename.process_all rest false (print [] (print line inbox_headerless)) results.
Proof.
  apply (proj1 (C7_renamer_hard_skips inbox_headerless (T "b-undated.md")
                  (lines [T "Session ID: " ++ session_b; T "no date"]) false
                  ltac:(vm_compute; reflexivity))).
  right. vm_compute. reflexivity.
Defined.





(** C6. The collision suffix.  The name [process_file] gives a file is the
    rendered date range and description with [.md] when no other file of
    the directory has that name; otherwise it is that stem with the suffix
    [-N], N being the least positive number for which the suffixed name is
    not that of another file of the directory (it is free, or it is the
    processed file's own name).  The loop that looks for it always ends.
    With [01-01-2024--01-02-2024-topic.md] in the directory, a second
    session of the same date range and description is written as
    [01-01-2024--01-02-2024-topic-1.md], the first file staying as it
    was. *)
Theorem C6_collision_suffix_is_least_free :
  (forall (filepath : text) (dry_run : bool) (w w' : world) (r : Rename.result)
          (content : text) (s : date),
      files w !! filepath = Some content ->
      Rename.extract_start_date content = Rename.Value (Some s) ->
      Rename.process_file filepath dry_run w = (w', Rename.Processed r) ->
      let e := end_date_of s (Rename.extract_latest_date content) in
      let name_stem := Rename.stem s e (Rename.description r) in
      (taken (files w) filepath (name_stem ++ T ".md") = false ->
       Rename.new_name r = name_stem ++ T ".md") /\
      (taken (files w) filepath (name_stem ++ T ".md") = true ->
       exists N,
         1 <= N /\
         Rename.new_name r = suffixed name_stem N /\
         taken (files w) filepath (suffixed name_stem N) = false /\
         forall M, 1 <= M < N ->
                   taken (files w) filepath (suffixed name_stem M) = true) /\
      (dry_run = false -> is_Some (files w' !! Rename.new_name r))) /\
  (forall (filepath : text) (dry_run : bool) (w : world),
      (Rename.process_file filepath dry_run w).2 <> Rename.Unfinished) /\
  (exists w',
      Rename.process_file export_topic false inbox_topic
      = (w', Rename.Processed result_topic) /\
      Rename.new_name result_topic = T "01-01-2024--01-02-2024-topic-1.md" /\
      files w' !! T "01-01-2024--01-02-2024-topic-1.md"
      = Some (Rename.add_frontmatter_to_content transcript_topic
                (Rename.create_frontmatter session_b (mk_date 2024 1 1)
                   (mk_date 2024 1 2) (T "Topic") (Some (T "topic")) false)) /\
      files w' !! T "01-01-2024--01-02-2024-topic.md" = Some (T "an earlier session") /\
      files w' !! export_topic = None).
Proof.
  split; [|split].
  - intros filepath dry_run w w' r content s Hfile Hstart Hrun e name_stem.
    apply process_file_Processed in Hrun
      as (content' & sid & s' & e' & Hfile' & Hsid & Hstart' & He & Hname & Hr & Hdry & Hwet).
    assert (content' = content) as -> by congruence.
    assert (s' = s) as -> by congruence.
    assert (e' = e) as -> by (by subst e').
    assert (Hd : Rename.generate_description content
                   (Rename.extract_project_name content) filepath
                 = Rename.description r) by (by rewrite Hr).
    cbv zeta in Hname. rewrite Hd in Hname. fold name_stem in Hname.
    clearbody name_stem e. clear He Hd Hr.
    assert (Hwritten : dry_run = false -> is_Some (files w' !! Rename.new_name r)).
    { intros ->. rewrite (Hwet eq_refl).
      destruct (bool_decide _) eqn:E; [by rewrite lookup_insert_eq|].
      apply bool_decide_eq_false_1 in E.
      rewrite lookup_delete_ne by done. by rewrite lookup_insert_eq. }
    apply resolve_collision_Some in Hname
      as [[Hfree Hn]|(Htaken & N & HN & Hn & Hfree & Hbelow)].
    + split; [done|]. split; [by rewrite Hfree | done].
    + split; [by rewrite Htaken|]. split; [|done].
      intros _. exists N. rewrite <- Hn. by repeat split.
  - apply process_file_finishes.
  - eexists. split; [vm_compute; reflexivity|].
    repeat split; vm_compute; reflexivity.
Qed.

Lemma C6_collision_suffix_is_least_free_witness :
  exists N,
    1 <= N /\
    Rename.new_name result_topic
    = suffixed (Rename.stem (mk_date 2024 1 1) (mk_date 2024 1 2) (T "topic")) N.
Proof.
  destruct (proj1 C6_collision_suffix_is_least_free export_topic false inbox_topic
              (Rename.process_file export_topic false inbox_topic).1 result_topic
              transcript_topic (mk_date 2024 1 1)
              ltac:(vm_compute; reflexivity) ltac:(vm_compute; reflexivity)
              ltac:(vm_compute; reflexivity))
    as (_ & Hsuffix & _).
  destruct (Hsuffix ltac:(vm_compute; reflexivity)) as (N & HN & Hname & _).
  exists N. split; [done|].
  rewrite Hname. f_equal.
Defined.

(** C2. A second run can rename again.  The renamer gives the conversation
    held in the project directory [agent-tools] a name that contains
    [agent-]; run on that output, it takes the file for a subagent session,
    gives it another description, another name and another frontmatter, and
    deletes the file of the first run. *)
Theorem C2_second_run_renames_agent_named_output :
  exists w1 r1 w2 r2,
    Rename.process_file export_a false inbox_tools = (w1, Rename.Processed r1) /\
    Rename.new_name r1 = renamed_tools /\
    Rename.description r1 = T "agent-tools" /\
    Rename.process_file renamed_tools false w1 = (w2, Rename.Processed r2) /\
    Rename.new_name r2 = T "01-13-2026--01-15-2026-agent-tools-subagent.md" /\
    Rename.description r2 = T "agent-tools-subagent" /\
    files w2 !! renamed_tools = None /\
    files w1 !! renamed_tools
    = Some (Rename.create_frontmatter session_a (mk_date 2026 1 13)
              (mk_date 2026 1 15) (T "Agent Tools") (Some (T "agent-tools")) false
            ++ transcript_tools) /\
    files w2 !! Rename.new_name r2
    = Some (Rename.create_frontmatter session_a (mk_date 2026 1 13)
              (mk_date 2026 1 15) (T "Agent Tools Subagent")
              (Some (T "agent-tools")) true
            ++ transcript_tools).
Proof.
  eexists _, _, _, _.
  split; [vm_compute; reflexivity|].
  split; [vm_compute; reflexivity|].
  split; [vm_compute; reflexivity|].
  split; [vm_compute; reflexivity|].
  repeat split; vm_compute; reflexivity.
Qed.

(* ===================================================================== *)
(** ** Facts about the pattern matcher *)
(* ===================================================================== *)

Section RegexFacts.

Lemma match_here_Star (p : ascii -> bool) (r : regex) (pos : nat) (s : text) :
  match_here (Star p :: r) pos s
  = match s with
    | c :: s' =>
        if p c
        then match match_here (Star p :: r) (S pos) s' with
             | Some m => Some m
             | None => match_here r pos s
             end
        else match_here r pos s
    | [] => match_here r pos []
    end.
Proof. by destruct s. Qed.

(** A repetition consumes characters of its class and hands over to the
    rest of the pattern. *)
Lemma match_here_Star_inv (p : ascii -> bool) (r : regex) (pos : nat) (s : text)
  (e : nat) (ms : list nat) :
  match_here (Star p :: r) pos s = Some (e, ms) ->
  exists k, k <= length s /\
            Forall (fun c => p c = true) (take k s) /\
            match_here r (pos + k) (drop k s) = Some (e, ms).
Proof.
  revert pos. induction s as [|c s IH]; intros pos; rewrite match_here_Star.
  - intros H. exists 0. rewrite Nat.add_0_r. by repeat split.
  - assert (Hstay : match_here r pos (c :: s) = Some (e, ms) ->
              exists k, k <= length (c :: s) /\
                Forall (fun c => p c = true) (take k (c :: s)) /\
                match_here r (pos + k) (drop k (c :: s)) = Some (e, ms)).
    { intros H. exists 0. rewrite Nat.add_0_r. simpl. repeat split; [lia|done|done]. }
    destruct (p c) eqn:Hc; [|done].
    destruct (match_here (Star p :: r) (S pos) s) as [m|] eqn:E; [|done].
    intros [= ->]. apply IH in E as (k & Hk & Hall & Hm).
    exists (S k). simpl. replace (pos + S k) with (S pos + k) by lia.
    repeat split; [lia | by constructor | done].
Qed.

Lemma match_here_repeat_inv (p : ascii -> bool) (n : nat) (r : regex) (pos : nat)
  (s : text) (e : nat) (ms : list nat) :
  match_here (repeat (One p) n ++ r) pos s = Some (e, ms) ->
  n <= length s /\
  Forall (fun c => p c = true) (take n s) /\
  match_here r (pos + n) (drop n s) = Some (e, ms).
Proof.
  revert pos s. induction n as [|n IH]; intros pos s; simpl.
  - intros H. rewrite Nat.add_0_r. repeat split; [lia | | done].
    by rewrite take_0.
  - destruct s as [|c s]; [done|]. destruct (p c) eqn:Hc; [|done].
    intros (Hn & Hall & Hm)%IH. simpl.
    replace (pos + S n) with (S pos + n) by lia.
    repeat split; [lia | by constructor | done].
Qed.

(** Plain atoms mark nothing and end within the subject. *)
Lemma match_here_plain (r : regex) (pos : nat) (s : text) (e : nat)
  (ms : list nat) :
  forallb plain r = true ->
  match_here r pos s = Some (e, ms) ->
  ms = [] /\ pos <= e <= pos + length s.
Proof.
  revert pos s. induction r as [|a r IH]; intros pos s Hr.
  - simpl. intros [= <- <-]. split; [done | lia].
  - simpl in Hr. apply andb_true_iff in Hr as [Ha Hr].
    destruct a as [p|p| | |]; try done.
    + destruct s as [|c s]; [done|]. cbn [match_here].
      destruct (p c); [|done]. intros H%IH; [|done]. simpl. split; [tauto | lia].
    + intros (k & Hk & _ & H)%match_here_Star_inv. apply IH in H; [|done].
      rewrite length_drop in H. split; [tauto | lia].
    + cbn [match_here]. destruct s as [|c s]; [by apply IH|].
      destruct (Ascii.eqb c newline); [by apply IH | done].
Qed.

(** Plain atoms before the rest of a pattern consume some characters and
    hand over. *)
Lemma match_here_plain_prefix (pre r : regex) (pos : nat) (s : text) (e : nat)
  (ms : list nat) :
  forallb plain pre = true ->
  match_here (pre ++ r) pos s = Some (e, ms) ->
  exists k, k <= length s /\
            match_here r (pos + k) (drop k s) = Some (e, ms).
Proof.
  revert pos s. induction pre as [|a pre IH]; intros pos s Hpre.
  - intros H. exists 0. rewrite Nat.add_0_r. split; [lia | done].
  - simpl in Hpre. apply andb_true_iff in Hpre as [Ha Hpre].
    destruct a as [p|p| | |]; try done.
    + destruct s as [|c s]; [done|]. cbn [app match_here].
      destruct (p c); [|done]. intros (k & Hk & H)%IH; [|done].
      exists (S k). simpl. replace (pos + S k) with (S pos + k) by lia.
      split; [lia | done].
    + cbn [app]. intros (k & Hk & _ & H)%match_here_Star_inv.
      apply IH in H as (k' & Hk' & H); [|done].
      rewrite length_drop in Hk'. rewrite drop_drop in H.
      exists (k + k'). rewrite Nat.add_assoc. split; [lia | done].
    + cbn [app match_here].
      destruct s as [|c s]; [by apply IH|].
      destruct (Ascii.eqb c newline); [by apply IH | done].
Qed.

(** The match of a pattern with one group, of a class repeated at least
    [n] times: the group is at least [n] characters of the class. *)
Lemma match_here_one_group (pre : regex) (n : nat) (p : ascii -> bool)
  (post : regex) (pos : nat) (s : text) (e : nat) (ms : list nat) :
  forallb plain pre = true ->
  forallb plain post = true ->
  match_here (one_group pre n p post) pos s = Some (e, ms) ->
  exists a len,
    ms = [pos + a; pos + a + len] /\
    n <= len /\
    a + len <= length s /\
    Forall (fun c => p c = true) (take len (drop a s)).
Proof.
  intros Hpre Hpost H. unfold one_group, group, at_least in H.
  apply match_here_plain_prefix in H as (a & Ha & H); [|done].
  cbn [app match_here] in H.
  destruct (match_here _ _ _) as [[e' ms']|] eqn:E; [|done].
  injection H as <- <-.
  rewrite <- !app_assoc in E.
  apply match_here_repeat_inv in E as (Hn & Hall1 & E).
  cbn [app] in E.
  apply match_here_Star_inv in E as (k & Hk & Hall2 & E).
  cbn [match_here] in E.
  destruct (match_here post _ _) as [[e'' ms'']|] eqn:E2; [|done].
  injection E as <- <-.
  apply match_here_plain in E2 as [-> _]; [|done].
  rewrite length_drop in Hn. rewrite !length_drop in Hk.
  exists a, (n + k). split; [by rewrite !Nat.add_assoc|].
  split; [lia|]. split; [lia|].
  rewrite <- take_take_drop. by apply Forall_app.
Qed.

Lemma search_go_sound (bol : bool) (r : regex) (at_bol : bool) (pos : nat)
  (s : text) (m : rmatch) :
  search_go bol r at_bol pos s = Some m ->
  exists k, m_start m = pos + k /\ k <= length s /\
            match_here r (pos + k) (drop k s) = Some (m_end m, m_marks m).
Proof.
  revert at_bol pos. induction s as [|c s IH]; intros at_bol pos; cbn [search_go].
  - destruct (if bol && negb at_bol then None else match_here r pos [])
      as [[e ms]|] eqn:E; [|done].
    intros [= <-]. exists 0. simpl. rewrite Nat.add_0_r.
    destruct (bol && negb at_bol); [done|]. by repeat split.
  - destruct (if bol && negb at_bol then None else match_here r pos (c :: s))
      as [[e ms]|] eqn:E.
    + intros [= <-]. exists 0. simpl. rewrite Nat.add_0_r.
      destruct (bol && negb at_bol); [done|]. repeat split; [lia | done].
    + intros (k & Hk & Hlen & H)%IH. exists (S k). simpl.
      replace (pos + S k) with (S pos + k) by lia.
      repeat split; [done | lia | done].
Qed.

(** The group of the leftmost match of a one-group pattern is at least [n]
    characters of the class and a stretch of the subject. *)
Lemma search_one_group (bol : bool) (pre : regex) (n : nat) (p : ascii -> bool)
  (post : regex) (s : text) (m : rmatch) :
  forallb plain pre = true ->
  forallb plain post = true ->
  search_go bol (one_group pre n p post) true 0 s = Some m ->
  n <= length (group_of s m 1) /\
  Forall (fun c => p c = true) (group_of s m 1) /\
  exists i, m_start m <= i /\
            slice i (i + length (group_of s m 1)) s = group_of s m 1.
Proof.
  intros Hpre Hpost (k & Hk & Hlen & H)%search_go_sound. simpl in Hk, H.
  apply match_here_one_group in H as (a & len & Hms & Hn & Hal & Hall);
    [|done|done].
  rewrite length_drop in Hal. rewrite drop_drop in Hall.
  assert (Hg : group_of s m 1 = take len (drop (k + a) s)).
  { unfold group_of. rewrite Hms. cbn [lookup list_lookup Nat.mul Nat.sub Nat.add].
    unfold slice. f_equal. lia. }
  assert (Hl : length (group_of s m 1) = len)
    by (rewrite Hg, length_take, length_drop; lia).
  rewrite Hl. split; [done|]. split; [by rewrite Hg|].
  exists (k + a). split; [lia|]. rewrite Hg. unfold slice. f_equal. lia.
Qed.

End RegexFacts.

(* ===================================================================== *)
(** ** What the extractors return *)
(* ===================================================================== *)

Section ExtractorFacts.

Lemma take_while_Forall (p : ascii -> bool) (s : text) :
  Forall (fun c => p c = true) (take_while p s).
Proof.
  induction s as [|c s IH]; simpl; [done|].
  destruct (p c) eqn:E; [by constructor | done].
Qed.

Lemma take_while_prefix (p : ascii -> bool) (s : text) :
  exists rest, s = take_while p s ++ rest /\
               match rest with [] => True | c :: _ => p c = false end.
Proof.
  induction s as [|c s (rest & Hs & Hrest)]; simpl.
  - by exists [].
  - destruct (p c) eqn:E.
    + exists rest. split; [by rewrite Hs at 1 | done].
    + by exists (c :: s).
Qed.

Lemma find_from_None_all (s : text) (k : nat) (c : ascii) :
  find_from [c] s k = None -> Forall (fun x => negb (Ascii.eqb x c) = true) s.
Proof.
  revert k. induction s as [|x s IH]; intros k; simpl; [done|].
  destruct (Ascii.eqb c x) eqn:E; [done|]. simpl.
  intros H. constructor; [|by eapply IH].
  rewrite Ascii.eqb_sym. by rewrite E.
Qed.

Lemma take_while_all (p : ascii -> bool) (s : text) :
  Forall (fun c => p c = true) s -> take_while p s = s.
Proof. induction 1 as [|c s Hc _ IH]; simpl; [done|]. by rewrite Hc, IH. Qed.

(** A session id the renamer finds is a non-empty stretch of the content,
    of hexadecimal digits of either case and hyphens. *)
Lemma extract_session_id_shape (content sid : text) :
  Rename.extract_session_id content = Some sid ->
  0 < length sid /\
  Forall (fun c => Rename.hex_or_hyphen_i c = true) sid /\
  exists i, slice i (i + length sid) content = sid.
Proof.
  unfold Rename.extract_session_id, search.
  destruct (search_go _ _ _ _ _) as [m|] eqn:E; [|done]. intros [= <-].
  change Rename.re_session_id
    with (one_group (lit_i (T "Session ID:") ++ [Star is_space]) 1
            Rename.hex_or_hyphen_i []) in E.
  apply search_one_group in E as (Hn & Hall & i & _ & Hi); [|done|done].
  split; [lia|]. split; [done|]. by exists i.
Qed.

Lemma hex_chars (c : ascii) :
  Update.hex c = true -> Update.hex_or_hyphen_i c = true /\ c <> hyphen.
Proof.
  destruct c as [[] [] [] [] [] [] [] []]; vm_compute; intros H;
    first [discriminate H | split; [reflexivity | discriminate]].
Qed.

(** The reconciler's session id is the renamer's, cut before its first
    hyphen. *)
Lemma truncated_session_id (content : text) :
  Update.extract_session_id_from_content content
  = first_segment hyphen <$> Rename.extract_session_id content.
Proof.
  unfold Update.extract_session_id_from_content, Rename.extract_session_id.
  change Update.re_session_id with Rename.re_session_id.
  destruct (search Rename.re_session_id content) as [m|]; [|done].
  cbn [fmap option_fmap option_map]. f_equal.
  unfold contains, find. change (T "-") with [hyphen].
  destruct (find_from [hyphen] _ 0) eqn:E; [done|].
  apply find_from_None_all in E. symmetry. apply take_while_all.
  eapply Forall_impl; [exact E|]. done.
Qed.

Lemma extract_session_id_from_content_shape (content t : text) :
  Update.extract_session_id_from_content content = Some t ->
  Forall (fun c => Update.hex_or_hyphen_i c = true /\ c <> hyphen) t /\
  exists rest,
    Rename.extract_session_id content = Some (t ++ rest) /\
    (rest = [] \/ head rest = Some hyphen).
Proof.
  rewrite truncated_session_id.
  destruct (Rename.extract_session_id content) as [sid|] eqn:E; [|done].
  intros [= <-]. apply extract_session_id_shape in E as (_ & Hall & _).
  unfold first_segment.
  destruct (take_while_prefix (fun c => negb (Ascii.eqb c hyphen)) sid)
    as (rest & Hsid & Hrest).
  split.
  - assert (Hsub : Forall (fun c => Rename.hex_or_hyphen_i c = true)
                     (take_while (fun c => negb (Ascii.eqb c hyphen)) sid)).
    { rewrite Hsid in Hall. by apply Forall_app in Hall as [? _]. }
    pose proof (take_while_Forall (fun c => negb (Ascii.eqb c hyphen)) sid) as Hno.
    rewrite Forall_forall in Hsub, Hno. apply Forall_forall. intros c Hc.
    split; [by apply Hsub|]. intros ->. apply Hno in Hc.
    by rewrite Ascii.eqb_refl in Hc.
  - exists rest. split; [by rewrite <- Hsid|].
    destruct rest as [|c rest]; [by left|]. right. simpl.
    apply negb_false_iff, Ascii.eqb_eq in Hrest. by subst.
Qed.

(** A session id taken from a file name is at least two lower-case
    hexadecimal digits of the name. *)
Lemma extract_session_id_from_filename_shape (filename sid : text) :
  Update.extract_session_id_from_filename filename = Some sid ->
  2 <= length sid /\
  Forall (fun c => Update.hex c = true) sid /\
  exists i, slice i (i + length sid) filename = sid.
Proof.
  unfold Update.extract_session_id_from_filename, search.
  destruct (search_go false Update.re_dated_name true 0 filename) as [m|] eqn:E.
  - intros [= <-].
    change Update.re_dated_name
      with (one_group (lit (T "claude-conversation-") ++ exactly 4 is_digit
                       ++ lit (T "-") ++ exactly 2 is_digit ++ lit (T "-")
                       ++ exactly 2 is_digit ++ lit (T "-")) 8 Update.hex []) in E.
    apply search_one_group in E as (Hn & Hall & i & _ & Hi); [|done|done].
    split; [lia|]. split; [done|]. by exists i.
  - destruct (search_go false Update.re_agent_name true 0 filename) as [m|] eqn:E2;
      [|done].
    intros [= <-].
    change Update.re_agent_name
      with (one_group (lit (T "agent-")) 2 Update.hex []) in E2.
    apply search_one_group in E2 as (Hn & Hall & i & _ & Hi); [|done|done].
    split; [done|]. split; [done|]. by exists i.
Qed.

(** X13. The session id the reconciler gives a file, from its content or
    else from its name, is a non-empty string of hexadecimal digits, with
    no hyphen. *)
Theorem session_id_of_shape (content filename sid : text) :
  Update.session_id_of content filename = Some sid ->
  0 < length sid /\
  Forall (fun c => Update.hex_or_hyphen_i c = true /\ c <> hyphen) sid.
Proof.
  unfold Update.session_id_of.
  destruct (Update.extract_session_id_from_content content) as [[|c t]|] eqn:E.
  - destruct (Update.extract_session_id_from_filename filename) as [[|c t]|] eqn:E2;
      try done.
    intros [= <-]. apply extract_session_id_from_filename_shape in E2 as (_ & H & _).
    split; [simpl; lia|]. eapply Forall_impl; [exact H|]. apply hex_chars.
  - intros [= <-]. apply extract_session_id_from_content_shape in E as [H _].
    split; [simpl; lia | done].
  - destruct (Update.extract_session_id_from_filename filename) as [[|c t]|] eqn:E2;
      try done.
    intros [= <-]. apply extract_session_id_from_filename_shape in E2 as (_ & H & _).
    split; [simpl; lia|]. eapply Forall_impl; [exact H|]. apply hex_chars.
Qed.

(** A project name the renamer extracts is a stretch of the content of 3 to
    49 letters, digits, underscores and hyphens that does not start with a
    hyphen. *)
Lemma extract_project_name_shape (content project : text) :
  Rename.extract_project_name content = Some project ->
  3 <= length project <= 49 /\
  Forall (fun c => Rename.project_char c = true) project /\
  head project <> Some hyphen /\
  exists i, slice i (i + length project) content = project.
Proof.
  intros H. pose proof (first_project_valid _ _ _ H) as [Hlen Hstart].
  split; [lia|].
  assert (Hhead : head project <> Some hyphen).
  { destruct project as [|c g]; [done|]. simpl. intros [= ->].
    vm_compute in Hstart. discriminate Hstart. }
  assert (Hshape : Forall (fun r => exists pre post,
                       forallb plain pre = true /\ forallb plain post = true /\
                       r = one_group pre 1 Rename.project_char post)
                     Rename.patterns).
  { repeat constructor.
    - exists (lit (T "Working directory:") ++ [Star is_space; One is_upper]
              ++ lit (T ":\Users\") ++ plus Rename.not_backslash
              ++ lit (backslash :: T "Projects" ++ [backslash])), [].
      by repeat split.
    - exists (lit (T "Working directory:") ++ [Star is_space; One is_upper]
              ++ lit (T ":\Users\") ++ plus Rename.not_backslash
              ++ lit (backslash :: T "Downloads" ++ [backslash])), [].
      by repeat split.
    - exists (lit (T "C") ++ lit (T ":\Users\") ++ plus Rename.not_backslash
              ++ lit (backslash :: T "Projects" ++ [backslash])),
        [One Rename.project_end].
      by repeat split. }
  unfold Rename.extract_project_name in H.
  induction Hshape as [|r rs (pre & post & Hpre & Hpost & ->) _ IH]; [done|].
  cbn [Rename.first_project] in H. unfold search in H.
  destruct (search_go false _ true 0 content) as [m|] eqn:E; [|by apply IH].
  destruct ((2 <? _) && _ && _) eqn:Hok; [|by apply IH].
  injection H as <-.
  apply search_one_group in E as (_ & Hall & i & _ & Hi); [|done|done].
  split; [done|]. split; [done | by exists i].
Qed.

End ExtractorFacts.

(* ===================================================================== *)
(** ** What the renamer does to the directory *)
(* ===================================================================== *)

Section RenameDirectoryFacts.
Import Rename.

(** The name the collision loop ends with is not that of another file. *)
Lemma resolve_collision_free (fuel : nat) (d : gmap text text)
  (filepath name_stem name : text) (k : nat) (chosen : text) :
  resolve_collision fuel d filepath name_stem name k = Some chosen ->
  chosen = filepath \/ d !! chosen = None.
Proof.
  intros H.
  assert (Hfree : taken d filepath chosen = false).
  { apply resolve_collision_Some in H as [[Hf ->]|(_ & N & _ & _ & Hf & _)]; done. }
  unfold taken, exists_ in Hfree. apply andb_false_iff in Hfree as [Hf|Hf].
  - right. apply bool_decide_eq_false_1 in Hf.
    destruct (d !! chosen) eqn:E; [|done]. exfalso. apply Hf. eauto.
  - left. apply negb_false_iff in Hf. by apply bool_decide_eq_true_1 in Hf.
Qed.

(** A call that does not return a dictionary leaves the files alone. *)
Lemma process_file_not_processed (filepath : text) (dry_run : bool) (w : world) :
  (exists r, (process_file filepath dry_run w).2 = Processed r) \/
  (files (process_file filepath dry_run w).1 = files w /\
   forall r, (process_file filepath dry_run w).2 <> Processed r).
Proof.
  unfold process_file.
  destruct (files w !! filepath) as [content|]; [|by right].
  destruct (extract_session_id content) as [[|c sid]|]; [by right| |by right].
  destruct (extract_start_date content) as [[s|]|]; [|by right|by right].
  destruct (resolve_collision _ _ _ _ _ _) as [chosen|]; [|by right].
  left. destruct dry_run; eauto.
Qed.

(** What one call does to the directory: a dry run nothing; a real run
    writes under the new name, which no other file had, and removes the
    old name when the new one differs; every other file stays as it was,
    and the directory has as many files as before. *)
Lemma process_file_directory (filepath : text) (dry_run : bool) (w w' : world)
  (o : outcome) :
  process_file filepath dry_run w = (w', o) ->
  (dry_run = true -> files w' = files w) /\
  size (files w') = size (files w) /\
  (forall p, p <> filepath -> is_Some (files w !! p) ->
             files w' !! p = files w !! p) /\
  (forall r, o = Processed r -> dry_run = false ->
     is_Some (files w' !! new_name r) /\
     (new_name r <> filepath ->
      files w !! new_name r = None /\ files w' !! filepath = None) /\
     (forall p, p <> filepath -> p <> new_name r ->
                files w' !! p = files w !! p)).
Proof.
  intros Hrun.
  destruct (process_file_not_processed filepath dry_run w) as [[r Hr]|Hsame].
  - rewrite Hrun in Hr. simpl in Hr. subst o.
    apply process_file_Processed in Hrun
      as (content & sid & s & e & Hfile & Hsid & Hstart & He & Hname & Hr' & Hdry & Hwet).
    cbv zeta in Hname. apply resolve_collision_free in Hname.
    destruct dry_run.
    { rewrite (Hdry eq_refl). split; [done|]. split; [done|]. split; [done|].
      intros r' _ [=]. }
    rewrite (Hwet eq_refl). clear Hdry Hwet.
    split; [done|].
    destruct (bool_decide (new_name r = filepath)) eqn:E.
    + apply bool_decide_eq_true_1 in E. rewrite E. split; [|split].
      * apply map_size_insert_Some. eauto.
      * intros p Hp _. by rewrite lookup_insert_ne.
      * intros r' [= <-] _. rewrite E. split; [|split]; [| done |].
        -- rewrite lookup_insert_eq. eauto.
        -- intros p Hp _. by rewrite lookup_insert_ne.
    + apply bool_decide_eq_false_1 in E.
      destruct Hname as [?|Hnone]; [done|]. split; [|split].
      * rewrite map_size_delete_Some by (rewrite lookup_insert_ne; eauto).
        by rewrite map_size_insert_None.
      * intros p Hp [c Hc]. rewrite lookup_delete_ne by done.
        rewrite lookup_insert_ne; [done|]. intros <-. congruence.
      * intros r' [= <-] _. split; [|split].
        -- rewrite lookup_delete_ne by done. rewrite lookup_insert_eq. eauto.
        -- intros _. split; [done | apply lookup_delete_eq].
        -- intros p Hp Hp'. rewrite lookup_delete_ne by done.
           by rewrite lookup_insert_ne.
  - rewrite Hrun in Hsame. simpl in Hsame. destruct Hsame as [Hsame Hnot].
    rewrite Hsame. split; [done|]. split; [done|]. split; [done|].
    intros r' ->. by destruct (Hnot r').
Qed.

(** X8. A dry run reports for a file what the real run does with it: the
    same skip, the same exception, or the same dictionary, new name
    included. *)
Theorem process_file_dry_run_outcome (filepath : text) (w : world) :
  (process_file filepath true w).2 = (process_file filepath false w).2.
Proof.
  unfold process_file.
  destruct (files w !! filepath) as [content|]; [|done].
  destruct (extract_session_id content) as [[|c sid]|]; [done| |done].
  destruct (extract_start_date content) as [[s|]|]; [|done|done].
  by destruct (resolve_collision _ _ _ _ _ _).
Qed.

Lemma ends_with_app (x suffix : text) : ends_with suffix (x ++ suffix) = true.
Proof. unfold ends_with. rewrite rev_app_distr. apply starts_with_app. Qed.

Lemma matches_md (x : text) : matches [] (T ".md") (x ++ T ".md") = true.
Proof.
  unfold matches. rewrite ends_with_app, length_app, andb_true_r.
  cbn [starts_with andb]. rewrite andb_true_r. apply Nat.leb_le.
  cbn [length Nat.add]. lia.
Qed.

(** The name the collision loop ends with is a Markdown name. *)
Lemma resolve_collision_md (fuel : nat) (d : gmap text text)
  (filepath name_stem : text) (chosen : text) :
  resolve_collision fuel d filepath name_stem (name_stem ++ T ".md") 1 = Some chosen ->
  matches [] (T ".md") chosen = true.
Proof.
  intros [[_ ->]|(_ & N & _ & -> & _)]%resolve_collision_Some.
  - apply matches_md.
  - unfold suffixed. rewrite !app_assoc. apply matches_md.
Qed.

(** One call on a Markdown file leaves every file that is not a Markdown
    file as it was. *)
Lemma process_file_other_kinds (filepath : text) (dry_run : bool) (w w' : world)
  (o : outcome) (p : text) :
  process_file filepath dry_run w = (w', o) ->
  matches [] (T ".md") filepath = true ->
  matches [] (T ".md") p = false ->
  files w' !! p = files w !! p.
Proof.
  intros Hrun Hmd Hp.
  assert (Hpf : p <> filepath) by (intros ->; congruence).
  destruct (process_file_not_processed filepath dry_run w) as [[r Hr]|[Hsame _]].
  - rewrite Hrun in Hr. simpl in Hr. subst o.
    destruct dry_run.
    + apply process_file_directory in Hrun as [Hdry _]. by rewrite Hdry.
    + pose proof Hrun as Hrun'.
      apply process_file_directory in Hrun as (_ & _ & _ & Hreal).
      destruct (Hreal r eq_refl eq_refl) as (_ & _ & Hframe).
      apply Hframe; [done|]. intros ->.
      apply process_file_Processed in Hrun'
        as (content & sid & s & e & _ & _ & _ & _ & Hname & _).
      cbv zeta in Hname. apply resolve_collision_md in Hname. congruence.
  - rewrite Hrun in Hsame. simpl in Hsame. by rewrite Hsame.
Qed.

Lemma process_all_directory (fs : list text) (dry_run : bool) (w w' : world)
  (results : list result) (res : option (list result)) :
  process_all fs dry_run w results = (w', res) ->
  size (files w') = size (files w) /\
  (dry_run = true -> files w' = files w) /\
  (Forall (fun f => matches [] (T ".md") f = true) fs ->
   forall p, matches [] (T ".md") p = false -> files w' !! p = files w !! p).
Proof.
  revert w results. induction fs as [|f rest IH]; intros w results; cbn [process_all].
  - by intros [= <- _].
  - destruct (process_file f dry_run w) as [w1 o] eqn:Hf.
    pose proof (process_file_directory _ _ _ _ _ Hf) as (Hdry & Hsize & _).
    assert (Hstep : forall results',
              process_all rest dry_run (print [] w1) results' = (w', res) ->
              size (files w') = size (files w) /\
              (dry_run = true -> files w' = files w) /\
              (Forall (fun f => matches [] (T ".md") f = true) (f :: rest) ->
               forall p, matches [] (T ".md") p = false ->
                         files w' !! p = files w !! p)).
    { intros results' (Hs & Hd & Hk)%IH. simpl in *. split; [lia|]. split.
      - intros ->. rewrite Hd by done. by apply Hdry.
      - intros [Hmd Hrest]%Forall_cons p Hp. rewrite Hk by done.
        by eapply process_file_other_kinds. }
    destruct o as [why|r| |]; [by apply Hstep | by apply Hstep | |].
    + intros [= <- _]. split; [done|]. split; [done|].
      intros [Hmd _]%Forall_cons p Hp. by eapply process_file_other_kinds.
    + intros [= <- _]. split; [done|]. split; [done|].
      intros [Hmd _]%Forall_cons p Hp. by eapply process_file_other_kinds.
Qed.

Lemma elem_of_glob {A : Type} (prefix suffix : text) (d : gmap text A) (n : text) :
  n ∈ glob prefix suffix d <-> is_Some (d !! n) /\ matches prefix suffix n = true.
Proof.
  unfold glob. rewrite list_elem_of_filter. split.
  - intros [Hm ([k v] & -> & Hin)%list_elem_of_fmap].
    apply elem_of_map_to_list in Hin. simpl in *. split; [eauto | done].
  - intros [[v Hv] Hm]. split; [done|].
    apply list_elem_of_fmap. exists (n, v). split; [done|].
    by apply elem_of_map_to_list.
Qed.

End RenameDirectoryFacts.

Section RenameMainFacts.
Import Rename.

Lemma sorted_glob_md (d : gmap text text) :
  Forall (fun f => matches [] (T ".md") f = true) (sorted (glob [] (T ".md") d)).
Proof.
  unfold sorted. rewrite merge_sort_Permutation.
  apply Forall_forall. intros f Hf. by apply elem_of_glob in Hf as [_ ?].
Qed.

(** X9. A run of the renamer keeps the number of files, touches Markdown
    files only, and as a dry run changes no file at all. *)
Theorem rename_main_directory (backup_dir : text) (dry_run : bool) (w : world) :
  size (files (main backup_dir dry_run w).1) = size (files w) /\
  (forall p, matches [] (T ".md") p = false ->
             files (main backup_dir dry_run w).1 !! p = files w !! p) /\
  (dry_run = true -> files (main backup_dir dry_run w).1 = files w).
Proof.
  unfold main.
  set (w0 := print [] (if dry_run then _ else _)).
  assert (Hw0 : files w0 = files w) by (unfold w0; by destruct dry_run).
  set (fs := glob [] (T ".md") (files w0)).
  set (w1 := print [] (print _ w0)).
  assert (Hw1 : files w1 = files w) by done.
  destruct (process_all (sorted fs) dry_run w1 []) as [w2 res] eqn:Hall.
  apply process_all_directory in Hall as (Hsize & Hdry & Hkind).
  specialize (Hkind (sorted_glob_md _)). rewrite Hw1 in *.
  destruct res as [results|]; simpl.
  - destruct dry_run; simpl; repeat split; try done; by apply Hdry.
  - repeat split; done.
Qed.

End RenameMainFacts.

(* ===================================================================== *)
(** ** What the reconciler does to the archive *)
(* ===================================================================== *)

Section UpdateDirectoryFacts.
Import Update.

(** One round writes at most one file: the indexed file of the session, or
    a file of the fresh file's name; it removes none. *)
Lemma reconcile_frame (existing : index) (name new_content : text)
  (w w' : world) (st st' : stats) :
  reconcile existing (name, new_content) (w, st) = Some (w', st') ->
  (forall p, is_Some (files w !! p) -> is_Some (files w' !! p)) /\
  (forall p, p <> name ->
             (forall sid un, existing !! sid <> Some (p, un)) ->
             files w' !! p = files w !! p).
Proof.
  unfold reconcile.
  destruct (session_id_of new_content name) as [sid|]; [|by intros [= <- _]].
  destruct (existing !! sid) as [[path un]|] eqn:Hix.
  - destruct (files w !! path) as [old|]; [|done].
    destruct (bool_decide _); intros [= <- _]; [done|]. simpl. split.
    + intros p Hp. destruct (decide (path = p)) as [->|Hne].
      * rewrite lookup_insert_eq. eauto.
      * by rewrite lookup_insert_ne.
    + intros p _ Hp. rewrite lookup_insert_ne; [done|].
      intros ->. by eapply Hp.
  - intros [= <- _]. simpl. split.
    + intros p Hp. destruct (decide (name = p)) as [->|Hne].
      * rewrite lookup_insert_eq. eauto.
      * by rewrite lookup_insert_ne.
    + intros p Hp _. by rewrite lookup_insert_ne.
Qed.

(** The loop, whether it ends with its counts or with an exception,
    removes no file and writes only indexed files and files of the fresh
    files' names. *)
Lemma reconcile_all_frame (existing : index)
  (new_files : list (text * scratch_file)) (w w' : world) (st : stats)
  (res : option stats) :
  reconcile_all existing new_files (w, st) = (w', res) ->
  (forall p, is_Some (files w !! p) -> is_Some (files w' !! p)) /\
  (forall p, p ∉ new_files.*1 ->
             (forall sid un, existing !! sid <> Some (p, un)) ->
             files w' !! p = files w !! p).
Proof.
  revert w st. induction new_files as [|[name file] rest IH]; intros w st;
    cbn [reconcile_all].
  - by intros [= <- _].
  - destruct file as [content|]; [|by intros [= <- _]].
    destruct (reconcile existing (name, content) (w, st)) as [[w1 st1]|] eqn:E;
      [|by intros [= <- _]].
    intros (Hkeep & Hframe)%IH.
    apply reconcile_frame in E as (Hkeep1 & Hframe1). split.
    + intros p Hp. by apply Hkeep, Hkeep1.
    + intros p Hp Hix. simpl in Hp. apply not_elem_of_cons in Hp as [Hne Hp].
      rewrite Hframe by done. by apply Hframe1.
Qed.

Lemma new_files_of_names (scratch : gmap text scratch_file) (p : text) :
  p ∈ (new_files_of scratch).*1 ->
  is_Some (scratch !! p) /\ dated_export p.
Proof.
  unfold new_files_of. intros ([n c] & -> & Hin)%list_elem_of_fmap.
  apply list_elem_of_omap in Hin as (n' & Hn' & Hc).
  apply elem_of_glob in Hn' as [Hs Hm].
  destruct (scratch !! n') as [c'|] eqn:E; [|done].
  injection Hc as <- <-. simpl. split; [eauto | done].
Qed.

(** X18. A run of the reconciler removes no file of the archive, and leaves
    as it was every file that the index does not name and whose name no
    fresh file has; when the collaborator failed, it leaves the whole
    archive as it was and returns the error. *)
Theorem update_extracts_directory (backup_dir : text) (ext : extraction)
  (w : world) :
  let w' := (update_extracts backup_dir ext w).1 in
  (forall p, is_Some (files w !! p) -> is_Some (files w' !! p)) /\
  (forall p,
      (forall sid un, (get_existing_files w).2 !! sid <> Some (p, un)) ->
      (forall out scratch, ext = Extracted out scratch ->
                           is_Some (scratch !! p) -> ~ dated_export p) ->
      files w' !! p = files w !! p) /\
  (forall stderr, ext = Failed stderr ->
     update_extracts backup_dir ext w
     = ((update_extracts backup_dir ext w).1, Error (T "Extraction failed")) /\
     files w' = files w).
Proof.
  unfold update_extracts.
  pose proof (get_existing_files_files w) as Hfiles.
  destruct (get_existing_files w) as [w1 existing]. simpl in Hfiles.
  destruct ext as [err|out scratch]; simpl.
  - rewrite Hfiles. repeat split; try done.
  - destruct (reconcile_all existing (new_files_of scratch) _) as [w2 res] eqn:E.
    apply reconcile_all_frame in E as (Hkeep & Hframe). simpl in *.
    rewrite Hfiles in *.
    destruct res; simpl in *.
    all: split; [done|]; split; [|done].
    all: intros p Hix Hfresh; apply Hframe; [|done].
    all: intros (Hs & Hd)%new_files_of_names; by eapply Hfresh.
Qed.

Lemma index_files_complete (names : list text) (w : world) (existing : index) :
  (forall sid, is_Some (existing !! sid) ->
               is_Some ((index_files names w existing).2 !! sid)) /\
  (forall f content sid,
      f ∈ names -> files w !! f = Some content ->
      session_id_of content f = Some sid ->
      is_Some ((index_files names w existing).2 !! sid)).
Proof.
  revert w existing. induction names as [|g rest IH]; intros w existing;
    cbn [index_files].
  - split; [done|]. intros f content sid Hf. by apply elem_of_nil in Hf.
  - destruct (files w !! g) as [cg|] eqn:Hg.
    + destruct (session_id_of cg g) as [sg|] eqn:Hsg.
      * destruct (IH w (<[sg := (g, extract_user_notes cg)]> existing)) as [Hk Hc].
        split.
        -- intros sid Hsid. apply Hk.
           destruct (decide (sg = sid)) as [->|Hne];
             [rewrite lookup_insert_eq; eauto | by rewrite lookup_insert_ne].
        -- intros f content sid [->|Hf]%elem_of_cons Hfile Hs; [|by eapply Hc].
           apply Hk. assert (cg = content) as -> by congruence.
           assert (sg = sid) as -> by congruence.
           rewrite lookup_insert_eq. eauto.
      * destruct (IH w existing) as [Hk Hc]. split; [done|].
        intros f content sid [->|Hf]%elem_of_cons Hfile Hs; [|by eapply Hc].
        congruence.
    + destruct (IH (print (T "  Warning: Could not read " ++ g ++ T ": "
                           ++ Rename.read_error) w) existing) as [Hk Hc].
      split; [done|].
      intros f content sid [->|Hf]%elem_of_cons Hfile Hs; [congruence|].
      by eapply Hc.
Qed.

Lemma index_files_entries (names : list text) (w : world) (existing : index)
  (sid path : text) (un : option text) :
  (index_files names w existing).2 !! sid = Some (path, un) ->
  existing !! sid = Some (path, un) \/
  (path ∈ names /\
   exists content,
     files w !! path = Some content /\
     session_id_of content path = Some sid /\
     un = extract_user_notes content).
Proof.
  revert w existing. induction names as [|g rest IH]; intros w existing;
    cbn [index_files]; [by left|].
  destruct (files w !! g) as [cg|] eqn:Hg.
  - destruct (session_id_of cg g) as [sg|] eqn:Hsg.
    + intros [Hin|(Hp & content & ?)]%IH.
      * destruct (decide (sg = sid)) as [->|Hne].
        -- rewrite lookup_insert_eq in Hin. injection Hin as <- <-.
           right. split; [by left | eauto].
        -- rewrite lookup_insert_ne in Hin by done. by left.
      * right. split; [by right | eauto].
    + intros [Hin|(Hp & content & ?)]%IH; [by left|].
      right. split; [by right | eauto].
  - intros [Hin|(Hp & content & ?)]%IH; [by left|].
    right. split; [by right | eauto].
Qed.

(** X19. The index has a session id exactly when a Markdown file of the
    archive has it; what it holds for the id is such a file, with the notes
    of that file's content; and when only one file has the id, it is that
    file. *)
Theorem get_existing_files_index (w : world) (sid : text) :
  (is_Some ((get_existing_files w).2 !! sid) <->
   exists f content,
     files w !! f = Some content /\
     matches [] (T ".md") f = true /\
     session_id_of content f = Some sid) /\
  (forall path un,
      (get_existing_files w).2 !! sid = Some (path, un) ->
      exists content,
        files w !! path = Some content /\
        matches [] (T ".md") path = true /\
        session_id_of content path = Some sid /\
        un = extract_user_notes content) /\
  (forall f content,
      files w !! f = Some content ->
      matches [] (T ".md") f = true ->
      session_id_of content f = Some sid ->
      (forall g cg, files w !! g = Some cg -> matches [] (T ".md") g = true ->
                    session_id_of cg g = Some sid -> g = f) ->
      (get_existing_files w).2 !! sid = Some (f, extract_user_notes content)).
Proof.
  assert (Hsound : forall path un,
             (get_existing_files w).2 !! sid = Some (path, un) ->
             exists content,
               files w !! path = Some content /\
               matches [] (T ".md") path = true /\
               session_id_of content path = Some sid /\
               un = extract_user_notes content).
  { intros path un H. unfold get_existing_files in H.
    apply index_files_entries in H as [H|(Hp & content & Hc & Hs & Hu)];
      [by rewrite lookup_empty in H|].
    apply elem_of_glob in Hp as [_ Hm]. by exists content. }
  assert (Hcomplete : forall f content,
             files w !! f = Some content -> matches [] (T ".md") f = true ->
             session_id_of content f = Some sid ->
             is_Some ((get_existing_files w).2 !! sid)).
  { intros f content Hf Hm Hs. unfold get_existing_files.
    eapply (proj2 (index_files_complete _ _ _)); [|exact Hf|exact Hs].
    apply elem_of_glob. eauto. }
  split; [|split; [done|]].
  - split.
    + intros [[path un] H]. apply Hsound in H as (content & ? & ? & ? & _).
      by exists path, content.
    + intros (f & content & Hf & Hm & Hs). by eapply Hcomplete.
  - intros f content Hf Hm Hs Honly.
    destruct (Hcomplete f content Hf Hm Hs) as [[path un] H].
    pose proof H as H'. apply Hsound in H' as (cp & Hp & Hmp & Hsp & ->).
    assert (path = f) as -> by (by eapply Honly).
    rewrite H. do 3 f_equal. congruence.
Qed.

End UpdateDirectoryFacts.

(* ===================================================================== *)
(** ** Dates written and read back *)
(* ===================================================================== *)

Section DateFacts.
Import Rename.

Lemma pad_length (k n : nat) : length (pad k n) = k.
Proof.
  revert n. induction k as [|k IH]; intros n; simpl; [done|].
  rewrite length_app, IH. simpl. lia.
Qed.

Lemma pad_digits (k n : nat) : Forall (fun c => is_digit c = true) (pad k n).
Proof.
  revert n. induction k as [|k IH]; intros n; simpl; [done|].
  apply Forall_app. split; [apply IH|]. apply Forall_singleton.
  pose proof (Nat.mod_upper_bound n 10 ltac:(lia)) as Hlt.
  unfold is_digit, between, code. rewrite nat_ascii_embedding by lia.
  apply andb_true_iff. split; apply Nat.leb_le; lia.
Qed.

Lemma to_nat_pad (k n : nat) : to_nat (pad k n) = n mod 10 ^ k.
Proof.
  revert n. induction k as [|k IH]; intros n.
  - change (0 = n mod 1). by rewrite Nat.mod_1_r.
  - cbn [pad]. rewrite to_nat_snoc, IH.
    pose proof (Nat.mod_upper_bound n 10 ltac:(lia)) as Hlt.
    unfold code. rewrite nat_ascii_embedding by lia.
    replace (48 + n mod 10 - 48) with (n mod 10) by lia.
    rewrite Nat.pow_succ_r', Nat.Div0.mod_mul_r. lia.
Qed.

(** X6. The date the renamer writes into a frontmatter or a report, of a
    year that has four digits, is ten characters long and reads back as
    the same date. *)
Theorem strptime_iso (d : date) :
  valid (year d) (month d) (day d) = true ->
  1000 <= year d ->
  length (iso d) = 10 /\ strptime_ymd (iso d) = Value d.
Proof.
  destruct d as [y m dd]. cbn [year month day]. intros Hv _.
  split.
  { unfold iso. cbn [year month day]. rewrite !length_app, !pad_length. done. }
  assert (Hy : slice 0 4 (iso (mk_date y m dd)) = pad 4 y).
  { unfold slice, iso. cbn [year]. rewrite drop_0.
    by rewrite take_app_length' by (by rewrite pad_length). }
  assert (Hm : slice 5 7 (iso (mk_date y m dd)) = pad 2 m).
  { unfold slice, iso. cbn [year month day].
    rewrite (app_assoc (pad 4 y)).
    rewrite drop_app_length' by (rewrite length_app, pad_length; done).
    by rewrite take_app_length' by (by rewrite pad_length). }
  assert (Hd : slice 8 10 (iso (mk_date y m dd)) = pad 2 dd).
  { unfold slice, iso. cbn [year month day].
    rewrite (app_assoc (pad 4 y)), (app_assoc _ (pad 2 m)), (app_assoc _ (T "-")).
    rewrite drop_app_length' by (rewrite !length_app, !pad_length; done).
    apply take_ge. by rewrite pad_length. }
  unfold strptime_ymd. rewrite Hy, Hm, Hd, !to_nat_pad.
  unfold valid in Hv. repeat (apply andb_true_iff in Hv as [Hv ?]).
  repeat match goal with
         | H : (_ <=? _) = true |- _ => apply Nat.leb_le in H
         | H : (_ <? _) = true |- _ => apply Nat.ltb_lt in H
         end.
  assert (Hdm : days_in_month y m <= 31).
  { unfold days_in_month. repeat case_match; lia. }
  rewrite !Nat.mod_small by (simpl; lia).
  unfold make, valid.
  repeat match goal with
         | H : _ <= _ |- _ => apply Nat.leb_le in H; rewrite H
         | H : _ < _ |- _ => apply Nat.ltb_lt in H; rewrite H
         end.
  done.
Qed.

End DateFacts.

(* ===================================================================== *)
(** ** The description is fit for a file name *)
(* ===================================================================== *)

Section DescriptionFacts.
Import Rename.

Lemma topic_slug (first_msg_lower slug : text) :
  topic first_msg_lower = Some slug ->
  Forall (fun c => slug_char c = true) slug /\ 0 < length slug <= 50.
Proof.
  unfold topic.
  repeat match goal with
         | |- context [if ?b then _ else _] => destruct b
         end;
    intros [= <-]; (split; [by apply (bool_decide_unpack _); vm_compute
                           | vm_compute; lia]).
Qed.

(** Whatever the content, the project name and the file name, the
    description is a non-empty string of at most 59 lower-case letters,
    digits and hyphens. *)
Lemma generate_description_slug (content : text) (project_name : option text)
  (filename : text) :
  Forall (fun c => slug_char c = true)
    (generate_description content project_name filename) /\
  0 < length (generate_description content project_name filename) <= 59.
Proof.
  assert (Hsan : forall p,
             Forall (fun c => slug_char c = true) (sanitize_description p) /\
             0 < length (sanitize_description p) <= 50).
  { intros p. destruct (sanitize_description_spec p) as (? & ? & _). done. }
  assert (Hconst : forall t : text,
             bool_decide (Forall (fun c => slug_char c = true) t) = true ->
             (length t <=? 50) = true -> negb (length t =? 0) = true ->
             Forall (fun c => slug_char c = true) t /\ 0 < length t <= 59).
  { intros t H1 H2 H3. apply bool_decide_eq_true_1 in H1.
    apply Nat.leb_le in H2. apply negb_true_iff, Nat.eqb_neq in H3.
    split; [done | lia]. }
  assert (Hfallback :
            Forall (fun c => slug_char c = true)
              match project_name with
              | Some (c :: p) => sanitize_description (c :: p)
              | _ => T "conversation"
              end /\
            0 < length match project_name with
                       | Some (c :: p) => sanitize_description (c :: p)
                       | _ => T "conversation"
                       end <= 59).
  { destruct project_name as [[|c p]|]; try (by apply Hconst).
    destruct (Hsan (c :: p)). split; [done | lia]. }
  unfold generate_description.
  destruct (is_agent_session content filename).
  - destruct project_name as [[|c p]|]; try (by apply Hconst).
    destruct (length (c :: p) <? 30) eqn:H30; [|by apply Hconst].
    destruct (Hsan (c :: p)) as [Hall Hlen].
    destruct (truthy _ && _); [|by apply Hconst].
    split.
    + apply Forall_app. split; [done|]. by apply (bool_decide_unpack _); vm_compute.
    + rewrite length_app. change (length (T "-subagent")) with 9. lia.
  - destruct (match search re_user content with
              | Some m => Some m
              | None => search re_human content
              end) as [m|]; [|done].
    destruct (_ || _); [done|].
    destruct (topic _) as [slug|] eqn:Ht; [|done].
    apply topic_slug in Ht as [? ?]. split; [done | lia].
Qed.

End DescriptionFacts.

(* ===================================================================== *)
(** ** Reconciling again after an update *)
(* ===================================================================== *)

Section RerunFacts.
Import Update.

Lemma contains_true (sub s : text) :
  contains sub s = true -> exists a b, s = a ++ sub ++ b.
Proof.
  unfold contains, find. destruct (find_from sub s 0) eqn:E; [|done].
  intros _. apply find_from_Some in E as (a & b & ? & _). eauto.
Qed.

Lemma contains_false (sub s a b : text) :
  contains sub s = false -> s <> a ++ sub ++ b.
Proof. intros H ->. by rewrite contains_occurs in H. Qed.

Lemma contains_prefix (sub x y : text) :
  contains sub (x ++ y) = false -> contains sub x = false.
Proof.
  intros H. destruct (contains sub x) eqn:E; [|done].
  apply contains_true in E as (a & b & ->).
  apply (contains_false sub _ a (b ++ y)) in H. exfalso. apply H.
  by rewrite <- !app_assoc.
Qed.

(** A string without a newline that occurs in a text lies on one side of
    each newline of the text. *)
Lemma occurrence_across_newline (r t a sub b : text) :
  r ++ newline :: t = a ++ sub ++ b ->
  sub <> [] -> newline ∉ sub ->
  (exists b', r = a ++ sub ++ b') \/
  (exists a', a = r ++ newline :: a' /\ t = a' ++ sub ++ b).
Proof.
  intros Heq Hne Hnl.
  apply app_eq_app in Heq as [l [[Hr Hrest]|[Ha Hrest]]].
  - symmetry in Hrest. apply app_eq_app in Hrest as [l2 [[Hl Hb]|[Hs Ht]]].
    + left. exists l2. by rewrite Hr, Hl.
    + destruct l2 as [|c l2].
      * rewrite app_nil_r in Hs. subst l. left. exists []. by rewrite app_nil_r.
      * simpl in Ht. injection Ht as <- _. exfalso. apply Hnl. rewrite Hs.
        apply elem_of_app. right. by left.
  - destruct l as [|c l].
    + simpl in Hrest. destruct sub as [|c sub]; [done|].
      injection Hrest as <- _. exfalso. apply Hnl. by left.
    + simpl in Hrest. injection Hrest as <- ->. right. exists l. by rewrite Ha.
Qed.

Lemma first_at_across_newline (r t sub : text) (i : nat) :
  sub <> [] -> newline ∉ sub ->
  contains sub r = false ->
  first_at sub t i ->
  first_at sub (r ++ newline :: t) (length r + 1 + i).
Proof.
  intros Hne Hnl Hr [(a & b & -> & <-) Hmin]. split.
  - exists (r ++ newline :: a), b. split; [by rewrite <- app_assoc|].
    rewrite length_app. simpl. lia.
  - intros a' b' Heq.
    apply occurrence_across_newline in Heq as [[b2 Hin]|(a2 & -> & Ht)]; [| |done|done].
    + by eapply contains_false in Hr.
    + apply Hmin in Ht. rewrite length_app. simpl. lia.
Qed.

Lemma first_at_before_final_newline (t sub : text) (i : nat) :
  sub <> [] -> newline ∉ sub ->
  first_at sub t i -> first_at sub (t ++ [newline]) i.
Proof.
  intros Hne Hnl [(a & b & -> & <-) Hmin]. split.
  - exists a, (b ++ [newline]). by rewrite <- !app_assoc.
  - intros a' b' Heq.
    apply occurrence_across_newline in Heq as [[b2 Hin]|(a2 & _ & Ht)]; [| |done|done].
    + by apply Hmin in Hin.
    + destruct a2, sub; done.
Qed.

Lemma replace_go_skip (old new x y : text) :
  replace_go old new (length x) (x ++ y) = replace_go old new 0 y.
Proof. induction x as [|c x IH]; [done|]. simpl. apply IH. Qed.

(** Up to its first occurrence nothing is replaced, and the scan goes on
    after it. *)
Lemma replace_first (old new pre post : text) :
  old <> [] ->
  first_at old (pre ++ old ++ post) (length pre) ->
  replace old new (pre ++ old ++ post) = pre ++ new ++ replace old new post.
Proof.
  intros Hne. unfold replace. destruct old as [|o old]; [done|]. clear Hne.
  induction pre as [|c pre IH]; intros [_ Hmin].
  - pose proof (starts_with_app (o :: old) post) as Hs. cbn [app] in Hs.
    cbn [app replace_go]. rewrite Hs. f_equal. cbn [length Nat.sub].
    rewrite Nat.sub_0_r. apply replace_go_skip.
  - cbn [app replace_go].
    destruct (starts_with (o :: old) (c :: pre ++ o :: old ++ post)) eqn:E.
    + apply starts_with_inv in E as [rest Hrest].
      specialize (Hmin [] rest Hrest). simpl in Hmin. lia.
    + cbn [app]. f_equal. apply IH. split; [by exists pre, post|].
      intros a b Heq.
      assert (Hc : (c :: pre) ++ (o :: old) ++ post = (c :: a) ++ (o :: old) ++ b)
        by (cbn [app]; f_equal; exact Heq).
      apply Hmin in Hc. simpl in Hc. lia.
Qed.

Lemma sentinels_plain :
  (newline ∉ USER_NOTES_START) /\ (newline ∉ USER_NOTES_END).
Proof. split; by apply (bool_decide_unpack _); vm_compute. Qed.

(** The notes the reconciler extracts end with the only end sentinel they
    hold. *)
Lemma extract_user_notes_first_end (old_content notes : text) :
  extract_user_notes old_content = Some notes ->
  exists mid,
    notes = USER_NOTES_START ++ mid ++ USER_NOTES_END /\
    first_at USER_NOTES_END notes (length (USER_NOTES_START ++ mid)).
Proof.
  unfold extract_user_notes.
  destruct (find USER_NOTES_START old_content) as [i|] eqn:Hs; [|done].
  destruct (find USER_NOTES_END old_content) as [j|] eqn:He; [|done].
  destruct (i <? j) eqn:Hij; [|done]. apply Nat.ltb_lt in Hij.
  intros Hnotes.
  assert (notes = slice i (j + length USER_NOTES_END) old_content) as ->
    by congruence.
  destruct (slice_between USER_NOTES_START USER_NOTES_END old_content i j
              "<"%char (tail USER_NOTES_END) eq_refl
              start_sentinel_single_opening Hs He Hij)
    as (pre & mid & post & Hc & Hpre & Hn).
  exists mid. split; [done|]. rewrite Hn.
  apply find_at_first in He as [(a & b & Hab & Ha) Hmin].
  assert (Hj : j = length pre + length (USER_NOTES_START ++ mid)).
  { apply (f_equal length) in Hn. unfold slice in Hn.
    apply (f_equal length) in Hab.
    rewrite length_take, length_drop in Hn. rewrite !length_app in Hab, Hn.
    rewrite !length_app. lia. }
  split.
  - exists (USER_NOTES_START ++ mid), []. by rewrite app_nil_r, <- app_assoc.
  - intros a' b' Heq. rewrite Heq in Hc.
    specialize (Hmin (pre ++ a') (b' ++ post)).
    rewrite length_app in Hmin.
    assert (j <= length pre + length a'); [|lia].
    apply Hmin. by rewrite Hc, <- !app_assoc.
Qed.

Lemma merge_with_notes (new_content notes : text) :
  notes <> [] ->
  merge_with_user_notes new_content (Some notes)
  = rstrip new_content ++ [newline; newline] ++ notes ++ [newline].
Proof. by destruct notes. Qed.

(** Merging extracted notes into a content without sentinels, and
    extracting again, gives the notes back; removing them from the merged
    text leaves the content and white space. *)
Lemma merged_notes_round_trip (new_content old_content notes : text) :
  extract_user_notes old_content = Some notes ->
  contains USER_NOTES_START new_content = false ->
  contains USER_NOTES_END new_content = false ->
  extract_user_notes (merge_with_user_notes new_content (Some notes)) = Some notes /\
  replace notes [] (merge_with_user_notes new_content (Some notes))
  = rstrip new_content ++ [newline; newline; newline].
Proof.
  intros Hold Hs He.
  destruct (extract_user_notes_first_end _ _ Hold) as (mid & Hnotes & Hfe).
  destruct sentinels_plain as [Hnls Hnle].
  assert (Hlen_s : 0 < length USER_NOTES_START) by (vm_compute; lia).
  assert (Hne_s : USER_NOTES_START <> []) by done.
  assert (Hne_e : USER_NOTES_END <> []) by done.
  assert (Hne : notes <> []) by (by rewrite Hnotes).
  rewrite merge_with_notes by done.
  set (r := rstrip new_content).
  destruct (rstrip_decompose new_content) as (ws & Hws & _). fold r in Hws.
  rewrite Hws in Hs, He. apply contains_prefix in Hs, He.
  assert (Hfs : first_at USER_NOTES_START notes 0).
  { split; [|intros; lia]. exists [], (mid ++ USER_NOTES_END). by rewrite Hnotes. }
  assert (Hshift : forall sub i,
             sub <> [] -> newline ∉ sub -> contains sub r = false ->
             first_at sub notes i ->
             first_at sub (r ++ [newline; newline] ++ notes ++ [newline])
               (length r + 1 + (0 + 1 + i))).
  { intros sub i H1 H2 H3 H4.
    apply (first_at_across_newline r _ sub _ H1 H2 H3).
    apply (first_at_across_newline [] _ sub _ H1 H2); [by destruct sub|].
    by apply first_at_before_final_newline. }
  pose proof (Hshift _ _ Hne_s Hnls Hs Hfs) as Hi.
  pose proof (Hshift _ _ Hne_e Hnle He Hfe) as Hj.
  assert (Hfinal : r ++ [newline; newline] ++ notes ++ [newline]
                   = (r ++ [newline; newline]) ++ notes ++ [newline])
    by (by rewrite <- app_assoc).
  split.
  - unfold extract_user_notes.
    rewrite (find_first_at _ _ _ Hi), (find_first_at _ _ _ Hj).
    assert (Hlt : (length r + 1 + (0 + 1 + 0)
                   <? length r + 1 + (0 + 1 + length (USER_NOTES_START ++ mid)))
                  = true)
      by (apply Nat.ltb_lt; rewrite length_app; lia).
    rewrite Hlt. f_equal. unfold slice. rewrite Hfinal.
    rewrite drop_app_length' by (rewrite length_app; simpl; lia).
    apply take_app_length'.
    rewrite Hnotes, !length_app. simpl. lia.
  - rewrite Hfinal. rewrite replace_first; [|done|].
    + rewrite replace_absent; [by rewrite <- app_assoc|].
      destruct (contains notes [newline]) eqn:E; [|done].
      apply contains_true in E as (a & b & Hab).
      apply (f_equal length) in Hab. rewrite Hnotes, !length_app in Hab.
      simpl in Hab. lia.
    + split; [by exists (r ++ [newline; newline]), [newline]|].
      intros a b Heq. rewrite <- Hfinal in Heq.
      destruct Hi as [_ Hmin].
      specialize (Hmin a ((mid ++ USER_NOTES_END) ++ b)).
      rewrite length_app. simpl.
      assert (length r + 1 + (0 + 1 + 0) <= length a); [|lia].
      apply Hmin. rewrite Heq, Hnotes. by rewrite <- !app_assoc.
Qed.

(** X17. Reconciling again after an update.  Let the archive hold, for an
    indexed session, the text an update wrote: a fresh content without
    sentinels merged with the notes of the old content.  When the same
    fresh content comes again, the index holds the same notes for the
    session, and the round counts the file as unchanged and writes
    nothing. *)
Theorem rerun_after_update_unchanged (w1 : world) (st : stats)
  (name new_content sid path old_content : text) (un' : option text) :
  contains USER_NOTES_START new_content = false ->
  contains USER_NOTES_END new_content = false ->
  files w1 !! path
  = Some (merge_with_user_notes new_content (extract_user_notes old_content)) ->
  session_id_of new_content name = Some sid ->
  (get_existing_files w1).2 !! sid = Some (path, un') ->
  un' = extract_user_notes old_content /\
  reconcile (get_existing_files w1).2 (name, new_content) (w1, st)
  = Some (print (T "  Unchanged: " ++ path) w1,
          mk_stats (updated st) (new st) (S (unchanged st)) (skipped st)
            (notes_preserved st)).
Proof.
  intros Hs He Hfile Hsid Hix.
  destruct (get_existing_files_sound _ _ _ _ Hix) as (content & Hc & Hun).
  assert (content = merge_with_user_notes new_content
                      (extract_user_notes old_content)) as -> by congruence.
  destruct (extract_user_notes old_content) as [notes|] eqn:Hold.
  - destruct (merged_notes_round_trip _ _ _ Hold Hs He) as [Hback Hrepl].
    rewrite Hback in Hun. split; [done|].
    apply (reconcile_unchanged _ _ _ _ _ _ _ _ _ Hsid Hix Hfile).
    subst un'. unfold without_notes.
    destruct notes as [|c n]; [by apply extract_user_notes_nonempty in Hold|].
    rewrite Hrepl, rstrip_app_space by (by repeat constructor).
    by rewrite rstrip_idemp.
  - assert (Hnone : extract_user_notes new_content = None).
    { unfold extract_user_notes. unfold contains in Hs.
      by destruct (find USER_NOTES_START new_content). }
    cbn [merge_with_user_notes] in Hun, Hfile. rewrite Hnone in Hun.
    split; [done|].
    apply (reconcile_unchanged _ _ _ _ _ _ _ _ _ Hsid Hix Hfile). by subst un'.
Qed.

Lemma rerun_after_update_unchanged_witness :
  reconcile (get_existing_files archive_updated).2 (export_a, transcript_a_longer)
    (archive_updated, mk_stats 1 0 0 0 1)
  = Some (print (T "  Unchanged: " ++ T "notes-on-a.md") archive_updated,
          mk_stats 1 0 1 0 1).
Proof.
  apply (rerun_after_update_unchanged archive_updated (mk_stats 1 0 0 0 1)
           export_a transcript_a_longer (T "ef08bb5d") (T "notes-on-a.md")
           (transcript_a ++ notes_block ++ [newline]) (Some notes_block)).
  - vm_compute. reflexivity.
  - vm_compute. reflexivity.
  - vm_compute. reflexivity.
  - vm_compute. reflexivity.
  - vm_compute. reflexivity.
Defined.

End RerunFacts.

(* ===================================================================== *)
(** ** The frontmatter is replaced, not stacked *)
(* ===================================================================== *)

Section FrontmatterFacts.
Import Rename.

Lemma search_go_within_line (r : regex) (l rest : text) (pos : nat) :
  newline ∉ l ->
  search_go true r false pos (l ++ newline :: rest)
  = search_go true r true (pos + length l + 1) rest.
Proof.
  revert pos. induction l as [|c l IH]; intros pos Hnl.
  - cbn [app search_go andb negb length]. rewrite Ascii.eqb_refl.
    f_equal. lia.
  - apply not_elem_of_cons in Hnl as [Hc Hnl].
    cbn [app search_go andb negb length].
    assert (Ascii.eqb c newline = false) as ->.
    { apply Ascii.eqb_neq. congruence. }
    rewrite IH by done. f_equal. lia.
Qed.

(** A line that does not begin as the pattern does is passed over. *)
Lemma search_bol_skip_line (p : ascii -> bool) (r : regex) (c : ascii)
  (l rest : text) (pos : nat) :
  p c = false -> newline ∉ c :: l ->
  search_go true (One p :: r) true pos ((c :: l) ++ newline :: rest)
  = search_go true (One p :: r) true (pos + length (c :: l) + 1) rest.
Proof.
  intros Hp [Hc Hnl]%not_elem_of_cons.
  cbn [app search_go andb negb match_here]. rewrite Hp.
  assert (Ascii.eqb c newline = false) as ->.
  { apply Ascii.eqb_neq. congruence. }
  rewrite search_go_within_line by done. cbn [length]. f_equal. lia.
Qed.

Lemma search_bol_skip_lines (p : ascii -> bool) (r : regex) (ls : list text)
  (rest : text) (pos : nat) :
  Forall (fun l => exists c l', l = c :: l' /\ p c = false /\ newline ∉ l) ls ->
  search_go true (One p :: r) true pos
    (concat (map (fun l => l ++ [newline]) ls) ++ rest)
  = search_go true (One p :: r) true
      (pos + length (concat (map (fun l => l ++ [newline]) ls))) rest.
Proof.
  intros H. revert pos.
  induction H as [|l ls (c & l' & -> & Hp & Hnl) _ IH]; intros pos.
  - simpl. f_equal. lia.
  - cbn [map concat]. rewrite <- !app_assoc.
    change ([newline] ++ concat (map (fun l => l ++ [newline]) ls) ++ rest)
      with (newline :: (concat (map (fun l => l ++ [newline]) ls) ++ rest)).
    rewrite search_bol_skip_line by done. rewrite IH. f_equal.
    rewrite !length_app. simpl. lia.
Qed.

Lemma match_here_Star_total (p : ascii -> bool) (r : regex) (pos : nat) (s : text) :
  is_Some (match_here r pos s) -> is_Some (match_here (Star p :: r) pos s).
Proof.
  intros H. rewrite match_here_Star. destruct s as [|c s]; [done|].
  destruct (p c); [|done]. by destruct (match_here (Star p :: r) (S pos) s).
Qed.

Lemma match_here_lit (l : text) (r : regex) (pos : nat) (s : text) :
  match_here (lit l ++ r) pos (l ++ s) = match_here r (pos + length l) s.
Proof.
  revert pos. induction l as [|c l IH]; intros pos.
  - simpl. f_equal. lia.
  - cbn [lit map app match_here length]. rewrite Ascii.eqb_refl.
    fold (lit l). rewrite IH. f_equal. lia.
Qed.

(** The closing line of a frontmatter matches, up to some of the white
    space after it. *)
Lemma search_frontmatter_end (pos : nat) (body : text) :
  exists k,
    search_go true re_frontmatter_end true pos (T "---" ++ newline :: body)
    = Some (mk_match pos (pos + 3 + k) []) /\
    Forall (fun c => is_space c = true) (take k (newline :: body)).
Proof.
  assert (Hsome : is_Some (match_here [Star is_space; Eol] (pos + 3)
                             (newline :: body))).
  { apply match_here_Star_total. cbn [match_here]. rewrite Ascii.eqb_refl. eauto. }
  destruct Hsome as [[e ms] Hm].
  pose proof Hm as (k & Hk & Hall & Hrest)%match_here_Star_inv.
  assert (e = pos + 3 + k /\ ms = []) as [-> ->].
  { revert Hrest. generalize (drop k (newline :: body)). intros t.
    cbn [match_here].
    destruct t as [|c t]; [|destruct (Ascii.eqb c newline)]; try done.
    all: by intros [= <- <-]. }
  exists k. split; [|done].
  assert (Hhere : match_here re_frontmatter_end pos (T "---" ++ newline :: body)
                  = Some (pos + 3 + k, [])).
  { unfold re_frontmatter_end. rewrite match_here_lit. exact Hm. }
  destruct (T "---" ++ newline :: body) eqn:E; cbn [search_go andb negb];
    by rewrite Hhere.
Qed.

Lemma Forall_not_newline (p : ascii -> bool) (s : text) :
  p newline = false -> Forall (fun c => p c = true) s -> newline ∉ s.
Proof.
  intros Hp Hall Hin. rewrite Forall_forall in Hall.
  apply Hall in Hin. congruence.
Qed.

Lemma iso_no_newline (d : date) : newline ∉ iso d.
Proof.
  unfold iso. rewrite !not_elem_of_app. repeat split.
  all: try (apply (Forall_not_newline is_digit); [done | apply pad_digits]).
  all: by apply (bool_decide_unpack _).
Qed.

Lemma join_lines (ls : list text) :
  join [newline] (ls ++ [[]]) = concat (map (fun l => l ++ [newline]) ls).
Proof.
  induction ls as [|l ls IH]; [done|].
  cbn [map concat]. rewrite <- IH, <- app_assoc.
  by destruct ls.
Qed.

(** The lines of a frontmatter between its two fences *)
Lemma create_frontmatter_lines (sid : text) (s e : date) (title : text)
  (project : option text) (sub : bool) :
  newline ∉ sid -> newline ∉ title ->
  (forall p, project = Some p -> newline ∉ p) ->
  exists ls,
    create_frontmatter sid s e title project sub
    = T "---" ++ [newline] ++ concat (map (fun l => l ++ [newline]) ls)
      ++ T "---" ++ [newline] /\
    Forall (fun l => exists c l', l = c :: l' /\ Ascii.eqb hyphen c = false /\
                                  newline ∉ l) ls.
Proof.
  intros Hsid Htitle Hproject.
  pose proof (iso_no_newline s) as Hs. pose proof (iso_no_newline e) as He.
  assert (Hlit : forall t : text, bool_decide (newline ∉ t) = true -> newline ∉ t).
  { intros t H. by apply bool_decide_eq_true_1 in H. }
  assert (Hq : forall t : text, newline ∉ t -> newline ∉ [dquote] ++ t ++ [dquote]).
  { intros t Ht. rewrite !not_elem_of_app. repeat split; [|done|]; by apply Hlit. }
  assert (Hkey : forall k v : text,
             bool_decide (newline ∉ k) = true -> newline ∉ v -> newline ∉ k ++ v).
  { intros k v Hk Hv. rewrite not_elem_of_app. split; [by apply Hlit | done]. }
  assert (Hshape : exists ls,
             create_frontmatter sid s e title project sub
             = join [newline] ((T "---" :: ls ++ [T "---"]) ++ [[]]) /\
             Forall (fun l => exists c l', l = c :: l' /\
                       Ascii.eqb hyphen c = false /\ newline ∉ l) ls).
  { exists ([ T "session_id: " ++ sid;
               T "title: " ++ [dquote] ++ title ++ [dquote];
               T "start_date: " ++ iso s;
               T "end_date: " ++ iso e ]
             ++ match project with
                | Some (c :: p) => [T "project: " ++ [dquote] ++ (c :: p) ++ [dquote]]
                | _ => []
                end
             ++ [ T "conversation_type: " ++ [dquote]
                    ++ (if sub then T "subagent" else T "conversation") ++ [dquote];
                  T "status: " ++ [dquote] ++ T "complete" ++ [dquote];
                  T "is_archived: false";
                  T "has_actionable_outcomes: false";
                  T "outcome_summary: " ++ [dquote] ++ [] ++ [dquote];
                  T "ai_model: " ++ [dquote] ++ T "claude-opus-4-5" ++ [dquote];
                  T "is_reviewed: false";
                  T "topics: []";
                  T "related_conversations: []";
                  T "tags: [claude-code, conversation]" ]).
    unfold create_frontmatter.
    destruct project as [[|c p]|]; destruct sub.
    all: split; [reflexivity|].
    all: repeat (apply Forall_cons; split;
      [eexists _, _; split; [reflexivity | split; [reflexivity|]]|]);
      try apply Forall_nil.
    all: try (apply Hkey; [reflexivity|]).
    all: try apply Hq.
    all: try done.
    all: try (by apply Hlit).
    all: by apply (Hproject _ eq_refl). }
  destruct Hshape as (ls & -> & Hls). exists ls. split; [|done].
  rewrite join_lines. cbn [map concat]. rewrite map_app, concat_app.
  cbn [map concat]. by rewrite app_nil_r, <- !app_assoc.
Qed.

Lemma drop_while_space_take (k : nat) (s : text) :
  Forall (fun c => is_space c = true) (take k s) ->
  lstrip (drop k s) = lstrip s.
Proof.
  revert s. induction k as [|k IH]; intros [|c s]; simpl; try done.
  intros [Hc Hall]%Forall_cons. unfold lstrip in *. cbn [drop_while].
  rewrite Hc. by apply IH.
Qed.

Lemma add_frontmatter_to_created (sid : text) (s e : date) (title : text)
  (project : option text) (sub : bool) (body fm : text) :
  newline ∉ sid -> newline ∉ title ->
  (forall p, project = Some p -> newline ∉ p) ->
  add_frontmatter_to_content
    (create_frontmatter sid s e title project sub ++ body) fm
  = fm ++ lstrip body.
Proof.
  intros Hsid Htitle Hproject.
  destruct (create_frontmatter_lines sid s e title project sub)
    as (ls & -> & Hls); [done..|].
  set (mid := concat (map (fun l => l ++ [newline]) ls)).
  unfold add_frontmatter_to_content. f_equal.
  rewrite <- !app_assoc.
  rewrite starts_with_app.
  change (drop 3 (T "---" ++ [newline] ++ mid ++ T "---" ++ [newline] ++ body))
    with (newline :: (mid ++ T "---" ++ newline :: body)).
  unfold search_bol, re_frontmatter_end.
  change (lit (T "---") ++ [Star is_space; Eol])
    with (One (Ascii.eqb hyphen) :: (lit (T "--") ++ [Star is_space; Eol])).
  assert (Hfirst : forall rest,
    search_go true (One (Ascii.eqb hyphen) :: lit (T "--") ++ [Star is_space; Eol])
      true 0 (newline :: rest)
    = search_go true (One (Ascii.eqb hyphen) :: lit (T "--") ++ [Star is_space; Eol])
      true 1 rest).
  { intros rest. reflexivity. }
  rewrite Hfirst. subst mid. rewrite search_bol_skip_lines by done.
  set (mid := concat (map (fun l => l ++ [newline]) ls)).
  destruct (search_frontmatter_end (1 + length mid) body) as (k & Hk & Hsp).
  unfold re_frontmatter_end in Hk.
  change (lit (T "---") ++ [Star is_space; Eol])
    with (One (Ascii.eqb hyphen) :: (lit (T "--") ++ [Star is_space; Eol])) in Hk.
  rewrite Hk. cbn [m_end].
  replace (3 + (1 + length mid + 3 + k))
    with (length (T "---" ++ [newline] ++ mid ++ T "---") + k)
    by (rewrite !length_app; simpl; lia).
  rewrite <- drop_drop.
  replace (T "---" ++ [newline] ++ mid ++ T "---" ++ [newline] ++ body)
    with ((T "---" ++ [newline] ++ mid ++ T "---") ++ newline :: body)
    by (by rewrite <- !app_assoc).
  rewrite drop_app_length.
  rewrite drop_while_space_take by done. done.
Qed.

Lemma case_not_newline (c : ascii) :
  c <> newline -> lower_char c <> newline /\ upper_char c <> newline.
Proof.
  destruct c as [[] [] [] [] [] [] [] []]; intros H;
    first [by exfalso; apply H | split; vm_compute; intros E; discriminate E].
Qed.

Lemma title_go_no_newline (prev_cased : bool) (s : text) :
  newline ∉ s -> newline ∉ title_go prev_cased s.
Proof.
  revert prev_cased. induction s as [|c s IH]; intros b; [done|].
  intros [Hc Hs]%not_elem_of_cons. cbn [title_go].
  destruct (case_not_newline c) as [Hl Hu]; [congruence|].
  destruct (is_alpha c); [destruct b|]; apply not_elem_of_cons;
    (split; [congruence | by apply IH]).
Qed.

Lemma replace_char_no_newline (s : text) :
  newline ∉ s -> newline ∉ replace_char hyphen " "%char s.
Proof.
  unfold replace_char. intros Hs (c & Hc & Hin)%list_elem_of_fmap.
  destruct (Ascii.eqb c hyphen); [discriminate Hc | by subst c].
Qed.

(** X11. The file [process_file] writes begins with the frontmatter it made,
    and that frontmatter is taken off whole when the file is given
    another. *)
Theorem process_file_written (filepath : text) (w w' : world) (r : result)
  (content : text) :
  files w !! filepath = Some content ->
  process_file filepath false w = (w', Processed r) ->
  exists fm body,
    add_frontmatter_to_content content fm = fm ++ body /\
    files w' !! new_name r = Some (fm ++ body) /\
    forall fm', add_frontmatter_to_content (fm ++ body) fm' = fm' ++ lstrip body.
Proof.
  intros Hfile (content' & sid & s & e & Hfile' & Hsid & _ & _ & _ & _ & _ & Hw)
    %process_file_Processed.
  assert (content' = content) as -> by congruence.
  specialize (Hw eq_refl).
  set (description :=
         generate_description content (extract_project_name content) filepath) in *.
  set (fm := create_frontmatter sid s e
               (title (replace_char hyphen " "%char description))
               (extract_project_name content)
               (is_agent_session content filepath)) in *.
  assert (Hwritten : files w' !! new_name r
                     = Some (add_frontmatter_to_content content fm)).
  { rewrite Hw. destruct (bool_decide (new_name r = filepath)) eqn:E.
    - by rewrite lookup_insert_eq.
    - apply bool_decide_eq_false in E.
      by rewrite lookup_delete_ne, lookup_insert_eq. }
  unfold add_frontmatter_to_content in Hwritten at 1.
  unfold add_frontmatter_to_content at 1.
  eexists fm, _. split; [reflexivity|]. split; [exact Hwritten|].
  intros fm'. apply add_frontmatter_to_created.
  - apply extract_session_id_shape in Hsid as (_ & Hchars & _).
    by apply (Forall_not_newline hex_or_hyphen_i).
  - apply title_go_no_newline, replace_char_no_newline.
    apply (Forall_not_newline slug_char); [done|].
    apply generate_description_slug.
  - intros p (_ & Hchars & _)%extract_project_name_shape.
    by apply (Forall_not_newline project_char).
Qed.

End FrontmatterFacts.

(* ===================================================================== *)
(** ** The dates the renamer reads *)
(* ===================================================================== *)

Section DateExtractionFacts.
Import Rename.

Lemma match_here_group_ymd (pos : nat) (s : text) (e : nat) (ms : list nat) :
  match_here (group re_ymd) pos s = Some (e, ms) ->
  exists y1 y2 y3 y4 m1 m2 d1 d2 rest,
    s = [y1; y2; y3; y4; hyphen; m1; m2; hyphen; d1; d2] ++ rest /\
    Forall (fun c => is_digit c = true) [y1; y2; y3; y4; m1; m2; d1; d2] /\
    ms = [pos; 10 + pos].
Proof.
  unfold group, re_ymd, exactly, lit. cbn [repeat app map list_ascii_of_string].
  cbn [match_here].
  repeat (destruct s as [|? s]; [done|];
          match goal with
          | |- context [if ?b then _ else _] => destruct b eqn:?; [|done]
          end).
  intros [= <- <-].
  repeat match goal with
         | H : Ascii.eqb _ _ = true |- _ => apply Ascii.eqb_eq in H; subst
         end.
  eexists _, _, _, _, _, _, _, _, s. split; [reflexivity|].
  split; [by repeat constructor | done].
Qed.

(** X5. A start date the renamer reads from a content of ASCII text is a
    date of the calendar, and it stands in the content as YYYY-MM-DD. *)
Theorem extract_start_date_sound (content : text) (d : date) :
  ascii_text content ->
  extract_start_date content = Value (Some d) ->
  valid (year d) (month d) (day d) = true /\
  exists i, slice i (i + 10) content = iso d.
Proof.
  intros _. unfold extract_start_date, search_bol.
  destruct (search_go true re_start_date true 0 content) as [m|] eqn:E; [|done].
  destruct (strptime_ymd (group_of content m 1)) as [d'|] eqn:Hp; [|done].
  intros [= ->].
  apply search_go_sound in E as (k & _ & _ & Hm). rewrite Nat.add_0_l in Hm.
  change re_start_date
    with ((lit (T "Date:") ++ [Star is_space]) ++ group re_ymd) in Hm.
  apply match_here_plain_prefix in Hm as (k' & _ & Hm); [|reflexivity].
  apply match_here_group_ymd in Hm
    as (y1 & y2 & y3 & y4 & m1 & m2 & d1 & d2 & rest & Hs & Hdig & Hms).
  rewrite drop_drop in Hs.
  assert (Hg : group_of content m 1
               = [y1; y2; y3; y4; hyphen; m1; m2; hyphen; d1; d2]).
  { unfold group_of. rewrite Hms. cbn [lookup list_lookup Nat.mul Nat.sub Nat.add].
    unfold slice.
    assert (10 + (k + k') - (k + k') = 10) as Hten by lia.
    cbn [Nat.add] in Hten |- *. rewrite Hten.
    by rewrite Hs. }
  rewrite Hg in Hp. unfold strptime_ymd, slice in Hp.
  cbn [drop take Nat.sub] in Hp. unfold make in Hp.
  destruct (valid _ _ _) eqn:Hv; [|done]. injection Hp as <-.
  cbn [year month day]. split; [done|].
  exists (k + k'). unfold iso. cbn [year month day].
  apply Forall_cons in Hdig as [Hy1 Hdig]. apply Forall_cons in Hdig as [Hy2 Hdig].
  apply Forall_cons in Hdig as [Hy3 Hdig]. apply Forall_cons in Hdig as [Hy4 Hdig].
  apply Forall_cons in Hdig as [Hm1 Hdig]. apply Forall_cons in Hdig as [Hm2 Hdig].
  apply Forall_cons in Hdig as [Hd1 Hdig]. apply Forall_cons in Hdig as [Hd2 _].
  assert (P4 : pad 4 (to_nat [y1; y2; y3; y4]) = [y1; y2; y3; y4])
    by (apply (pad_to_nat [y1; y2; y3; y4]); by repeat constructor).
  assert (P2 : pad 2 (to_nat [m1; m2]) = [m1; m2])
    by (apply (pad_to_nat [m1; m2]); by repeat constructor).
  assert (P2' : pad 2 (to_nat [d1; d2]) = [d1; d2])
    by (apply (pad_to_nat [d1; d2]); by repeat constructor).
  rewrite P4, P2, P2'. unfold slice.
  replace (k + k' + 10 - (k + k')) with 10 by lia.
  by rewrite Hs.
Qed.

Lemma extract_start_date_sound_witness :
  valid 2026 1 13 = true /\
  exists i, slice i (i + 10) transcript_a = iso (mk_date 2026 1 13).
Proof.
  apply (extract_start_date_sound transcript_a (mk_date 2026 1 13)).
  - apply (bool_decide_unpack _). vm_compute. exact I.
  - vm_compute. reflexivity.
Defined.

End DateExtractionFacts.

(* ===================================================================== *)
(** ** The two scripts, function by function *)
(* ===================================================================== *)

Section RenameProperties.
Import Rename.

(** X1. A session id the renamer reads from a content is a non-empty
    stretch of that content, made of hexadecimal digits of either case and
    hyphens. *)
Theorem rename_session_id_shape (content sid : text) :
  extract_session_id content = Some sid ->
  0 < length sid /\
  Forall (fun c => hex_or_hyphen_i c = true) sid /\
  exists i, slice i (i + length sid) content = sid.
Proof. apply extract_session_id_shape. Qed.

Lemma rename_session_id_shape_witness :
  0 < length session_a /\
  Forall (fun c => hex_or_hyphen_i c = true) session_a /\
  exists i, slice i (i + length session_a) transcript_a = session_a.
Proof.
  apply (rename_session_id_shape transcript_a session_a).
  vm_compute. reflexivity.
Defined.

(** X2. A project name the renamer extracts is a stretch of the content of
    3 to 49 letters, digits, underscores and hyphens that does not start
    with a hyphen. *)
Theorem project_name_shape (content project : text) :
  extract_project_name content = Some project ->
  3 <= length project <= 49 /\
  Forall (fun c => project_char c = true) project /\
  head project <> Some hyphen /\
  exists i, slice i (i + length project) content = project.
Proof. apply extract_project_name_shape. Qed.

Lemma project_name_shape_witness :
  3 <= length (T "agent-tools") <= 49 /\
  Forall (fun c => project_char c = true) (T "agent-tools") /\
  head (T "agent-tools") <> Some hyphen /\
  exists i, slice i (i + length (T "agent-tools")) transcript_tools = T "agent-tools".
Proof.
  apply (project_name_shape transcript_tools (T "agent-tools")).
  vm_compute. reflexivity.
Defined.

(** X3. What the slug sanitizer ensures for every input of ASCII text: a
    non-empty slug of at most 50 lower-case letters, digits and hyphens
    that does not start with a hyphen; for an input of at most 50
    characters the slug does not end with a hyphen either; and an input
    without a letter or a digit gives the default slug. *)
Theorem sanitize_description_slug (desc : text) :
  ascii_text desc ->
  Forall (fun c => slug_char c = true) (sanitize_description desc) /\
  0 < length (sanitize_description desc) <= 50 /\
  head (sanitize_description desc) <> Some hyphen /\
  (length desc <= 50 -> last (sanitize_description desc) <> Some hyphen) /\
  (Forall (fun c => is_alpha c || is_digit c = false) desc ->
   sanitize_description desc = T "conversation").
Proof. intros _. apply sanitize_description_spec. Qed.

Lemma sanitize_description_slug_witness :
  Forall (fun c => slug_char c = true) (sanitize_description (T "My Project (v2)!")) /\
  0 < length (sanitize_description (T "My Project (v2)!")) <= 50 /\
  head (sanitize_description (T "My Project (v2)!")) <> Some hyphen /\
  (length (T "My Project (v2)!") <= 50 ->
   last (sanitize_description (T "My Project (v2)!")) <> Some hyphen) /\
  (Forall (fun c => is_alpha c || is_digit c = false) (T "My Project (v2)!") ->
   sanitize_description (T "My Project (v2)!") = T "conversation").
Proof.
  apply (sanitize_description_slug (T "My Project (v2)!")).
  apply (bool_decide_unpack _). vm_compute. exact I.
Defined.

(** X4. Whatever the content, the project name and the file name, the
    description [generate_description] returns is a non-empty string of at
    most 59 lower-case letters, digits and hyphens. *)
Theorem description_is_slug (content : text) (project_name : option text)
  (filename : text) :
  Forall (fun c => slug_char c = true)
    (generate_description content project_name filename) /\
  0 < length (generate_description content project_name filename) <= 59.
Proof. apply generate_description_slug. Qed.

Lemma strptime_iso_witness :
  length (iso (mk_date 2026 1 13)) = 10 /\
  strptime_ymd (iso (mk_date 2026 1 13)) = Value (mk_date 2026 1 13).
Proof.
  apply (strptime_iso (mk_date 2026 1 13)).
  - vm_compute. reflexivity.
  - cbn [year]. lia.
Defined.

(** X7. What one call of [process_file] does to the directory.  A dry run
    changes no file.  The directory has as many files afterwards as
    before, and every other file that was there keeps its content.  A real
    run that returns a dictionary has written the file of the new name; if
    that name differs from the old one, no file had it before and the file
    of the old name is gone; all files of other names are as they were. *)
Theorem process_file_effect (filepath : text) (dry_run : bool) (w w' : world)
  (o : outcome) :
  process_file filepath dry_run w = (w', o) ->
  (dry_run = true -> files w' = files w) /\
  size (files w') = size (files w) /\
  (forall p, p <> filepath -> is_Some (files w !! p) ->
             files w' !! p = files w !! p) /\
  (forall r, o = Processed r -> dry_run = false ->
     is_Some (files w' !! new_name r) /\
     (new_name r <> filepath ->
      files w !! new_name r = None /\ files w' !! filepath = None) /\
     (forall p, p <> filepath -> p <> new_name r ->
                files w' !! p = files w !! p)).
Proof. apply process_file_directory. Qed.

Lemma process_file_effect_witness :
  size (files (process_file export_topic false inbox_topic).1) = 2 /\
  files (process_file export_topic false inbox_topic).1
    !! T "01-01-2024--01-02-2024-topic.md" = Some (T "an earlier session") /\
  is_Some (files (process_file export_topic false inbox_topic).1
             !! new_name result_topic) /\
  files (process_file export_topic false inbox_topic).1 !! export_topic = None.
Proof.
  destruct (process_file_effect export_topic false inbox_topic
              (process_file export_topic false inbox_topic).1
              (Processed result_topic) ltac:(vm_compute; reflexivity))
    as (_ & Hsize & Hothers & Hrun).
  destruct (Hrun result_topic eq_refl eq_refl) as (Hnew & Hold & _).
  destruct Hold as [_ Hold]; [vm_compute; discriminate|].
  split; [by rewrite Hsize|]. split; [|by split].
  rewrite Hothers; [reflexivity | vm_compute; discriminate | vm_compute; eauto].
Defined.

(** X10. A frontmatter made by [create_frontmatter] is replaced, not
    stacked: when the session id, the title and the project name have no
    newline, putting another frontmatter before a text that begins with
    the made one takes the made one off whole, with the white space after
    it. *)
Theorem frontmatter_replaced (sid : text) (s e : date) (title : text)
  (project : option text) (sub : bool) (body fm : text) :
  newline ∉ sid -> newline ∉ title ->
  (forall p, project = Some p -> newline ∉ p) ->
  add_frontmatter_to_content
    (create_frontmatter sid s e title project sub ++ body) fm
  = fm ++ lstrip body.
Proof. apply add_frontmatter_to_created. Qed.

Lemma frontmatter_replaced_witness :
  add_frontmatter_to_content
    (create_frontmatter session_a (mk_date 2026 1 13) (mk_date 2026 1 15)
       (T "Agent Tools") (Some (T "agent-tools")) false ++ transcript_tools)
    (T "---" ++ [newline] ++ T "---" ++ [newline])
  = (T "---" ++ [newline] ++ T "---" ++ [newline]) ++ lstrip transcript_tools.
Proof.
  apply (frontmatter_replaced session_a (mk_date 2026 1 13) (mk_date 2026 1 15)
           (T "Agent Tools") (Some (T "agent-tools")) false transcript_tools).
  - apply (bool_decide_unpack _). vm_compute. exact I.
  - apply (bool_decide_unpack _). vm_compute. exact I.
  - intros p [= <-]. apply (bool_decide_unpack _). vm_compute. exact I.
Defined.

Lemma process_file_written_witness :
  exists fm body,
    add_frontmatter_to_content transcript_topic fm = fm ++ body /\
    files (process_file export_topic false inbox_topic).1 !! new_name result_topic
    = Some (fm ++ body) /\
    forall fm', add_frontmatter_to_content (fm ++ body) fm' = fm' ++ lstrip body.
Proof.
  apply (process_file_written export_topic inbox_topic
           (process_file export_topic false inbox_topic).1 result_topic
           transcript_topic).
  - vm_compute. reflexivity.
  - vm_compute. reflexivity.
Defined.

End RenameProperties.

Section UpdateProperties.
Import Update.

(** X12. The two scripts read the same session line: the id the reconciler
    takes from a content is the id the renamer takes from it, cut before
    its first hyphen. *)
Theorem session_id_cut_at_hyphen (content : text) :
  extract_session_id_from_content content
  = first_segment hyphen <$> Rename.extract_session_id content.
Proof. apply truncated_session_id. Qed.

Lemma session_id_of_shape_witness :
  0 < length (T "ef08bb5d") /\
  Forall (fun c => hex_or_hyphen_i c = true /\ c <> hyphen) (T "ef08bb5d").
Proof.
  apply (session_id_of_shape transcript_a export_a (T "ef08bb5d")).
  vm_compute. reflexivity.
Defined.

(** X14. A session id the reconciler takes from a file name is a stretch of
    the name, of at least two lower-case hexadecimal digits. *)
Theorem filename_session_id_shape (filename sid : text) :
  extract_session_id_from_filename filename = Some sid ->
  2 <= length sid /\
  Forall (fun c => hex c = true) sid /\
  exists i, slice i (i + length sid) filename = sid.
Proof. apply extract_session_id_from_filename_shape. Qed.

Lemma filename_session_id_shape_witness :
  2 <= length (T "ef08bb5d") /\
  Forall (fun c => hex c = true) (T "ef08bb5d") /\
  exists i, slice i (i + length (T "ef08bb5d")) export_a = T "ef08bb5d".
Proof.
  apply (filename_session_id_shape export_a (T "ef08bb5d")).
  vm_compute. reflexivity.
Defined.

(** X15. The notes the reconciler extracts are a region of the content
    that opens with the start sentinel and closes with the end
    sentinel. *)
Theorem user_notes_region (content notes : text) :
  extract_user_notes content = Some notes ->
  exists pre mid post,
    content = pre ++ notes ++ post /\
    notes = USER_NOTES_START ++ mid ++ USER_NOTES_END.
Proof. apply extract_user_notes_region. Qed.

Lemma user_notes_region_witness :
  exists pre mid post,
    transcript_a ++ notes_block ++ [newline] = pre ++ notes_block ++ post /\
    notes_block = USER_NOTES_START ++ mid ++ USER_NOTES_END.
Proof.
  apply (user_notes_region (transcript_a ++ notes_block ++ [newline]) notes_block).
  vm_compute. reflexivity.
Defined.

(** X16. Notes survive a round trip: merging extracted notes into a fresh
    content that has no sentinel, and extracting again, gives the same
    notes; and taking the notes out of the merged text leaves the fresh
    content, stripped at its end, and three newlines. *)
Theorem user_notes_round_trip (new_content old_content notes : text) :
  extract_user_notes old_content = Some notes ->
  contains USER_NOTES_START new_content = false ->
  contains USER_NOTES_END new_content = false ->
  extract_user_notes (merge_with_user_notes new_content (Some notes)) = Some notes /\
  replace notes [] (merge_with_user_notes new_content (Some notes))
  = rstrip new_content ++ [newline; newline; newline].
Proof. apply merged_notes_round_trip. Qed.

Lemma user_notes_round_trip_witness :
  extract_user_notes (merge_with_user_notes transcript_a_longer (Some notes_block))
  = Some notes_block /\
  replace notes_block [] (merge_with_user_notes transcript_a_longer (Some notes_block))
  = rstrip transcript_a_longer ++ [newline; newline; newline].
Proof.
  apply (user_notes_round_trip transcript_a_longer
           (transcript_a ++ notes_block ++ [newline]) notes_block).
  - vm_compute. reflexivity.
  - vm_compute. reflexivity.
  - vm_compute. reflexivity.
Defined.

End UpdateProperties.

(* ===================================================================== *)
(** ** The counts of a reconciliation *)
(* ===================================================================== *)

Section UpdateCountFacts.
Import Update.

Lemma tally_total (vs : list verdict) :
  tally VUpdated vs + tally VNew vs + tally VUnchanged vs + tally VSkipped vs
  = length vs.
Proof.
  unfold tally. induction vs as [|v vs IH]; [done|].
  rewrite !filter_cons. destruct v; repeat case_decide; try done; simpl; lia.
Qed.

Lemma reconcile_notes_preserved (existing : index) (new_file : text * text)
  (w w' : world) (st st' : stats) :
  reconcile existing new_file (w, st) = Some (w', st') ->
  notes_preserved st <= updated st ->
  notes_preserved st' <= updated st'.
Proof.
  destruct new_file as [name new_content]. unfold reconcile.
  destruct (session_id_of new_content name) as [sid|];
    [|intros [= <- <-]; simpl; lia].
  destruct (existing !! sid) as [[path un]|];
    [|intros [= <- <-]; simpl; lia].
  destruct (files w !! path) as [old_content|]; [|done].
  case_match; intros [= <- <-]; simpl; [lia|].
  destruct (truthy un); lia.
Qed.

Lemma reconcile_all_notes_preserved (existing : index)
  (new_files : list (text * scratch_file)) (w w' : world) (st st' : stats) :
  reconcile_all existing new_files (w, st) = (w', Some st') ->
  notes_preserved st <= updated st ->
  notes_preserved st' <= updated st'.
Proof.
  revert w st. induction new_files as [|[name file] rest IH]; intros w st;
    cbn [reconcile_all].
  - by intros [= <- <-].
  - destruct file as [content|]; [|done].
    destruct (reconcile existing (name, content) (w, st)) as [[w1 st1]|] eqn:E;
      [|done].
    intros Hrest Hle. apply (IH _ _ Hrest).
    by apply (reconcile_notes_preserved _ _ _ _ _ _ E).
Qed.

(** X20. How a run of the reconciler ends after a successful extraction.
    When every file the glob lists can be read, the run ends with its
    counts; updated, new, unchanged and skipped add up to the number of
    files listed, and the count of preserved notes is at most the count of
    updated files.  When a listed file cannot be read, an exception ends
    the run and there are no counts. *)
Theorem update_extracts_counts (backup_dir out : text)
  (scratch : gmap text scratch_file) (w : world) :
  (Forall (fun new_file => readable new_file.2) (new_files_of scratch) ->
   exists w' st,
     update_extracts backup_dir (Extracted out scratch) w = (w', Counts st) /\
     updated st + new st + unchanged st + skipped st
     = length (new_files_of scratch) /\
     notes_preserved st <= updated st) /\
  ((exists name, scratch !! name = Some NotUtf8 /\ dated_export name) ->
   (update_extracts backup_dir (Extracted out scratch) w).2 = Exception).
Proof.
  unfold update_extracts.
  pose proof (get_existing_files_files w) as Hfiles.
  pose proof (get_existing_files_in_dir w) as Hinv.
  destruct (get_existing_files w) as [w1 existing]. simpl in *.
  split.
  - intros Hread.
    match goal with
    | |- context [reconcile_all existing ?nf (?w2, ?st0)] =>
        destruct (reconcile_all_counts existing nf w2 st0)
          as (w' & st' & vs & Hrun & Hlen & Hu & Hn & Hc & Hs & _)
    end.
    { simpl. by rewrite Hfiles. }
    { done. }
    rewrite Hrun. exists w', st'. split; [done|].
    split.
    + simpl in *. rewrite Hu, Hn, Hc, Hs, <- Hlen. apply tally_total.
    + apply (reconcile_all_notes_preserved _ _ _ _ _ _ Hrun). simpl. lia.
  - intros (name & Hfile & Hname).
    match goal with
    | |- context [reconcile_all existing ?nf (?w2, ?st0)] =>
        pose proof (reconcile_all_unreadable existing nf w2 st0) as Hbad;
        destruct (reconcile_all existing nf (w2, st0)) as [w' res]
    end.
    simpl in Hbad. rewrite Hbad; [done|].
    exists name. by apply new_files_of_lists.
Qed.

Lemma update_extracts_counts_witness :
  (exists w' st,
     update_extracts (T "/backup") (Extracted (T "ok") scratch_with_agent) archive
     = (w', Counts st) /\
     updated st + new st + unchanged st + skipped st
     = length (new_files_of scratch_with_agent) /\
     notes_preserved st <= updated st) /\
  (update_extracts (T "/backup") (Extracted (T "ok") scratch_undecodable) archive).2
  = Exception.
Proof.
  split.
  - apply (proj1 (update_extracts_counts (T "/backup") (T "ok")
                    scratch_with_agent archive)).
    assert (Hnew : new_files_of scratch_with_agent
                   = [(T "claude-conversation-draft.md", Utf8 (T "no header here"));
                      (export_a, Utf8 transcript_a_longer)])
      by (vm_compute; reflexivity).
    rewrite Hnew. repeat constructor; eexists; reflexivity.
  - apply (proj2 (update_extracts_counts (T "/backup") (T "ok")
                    scratch_undecodable archive)).
    exists export_a. split; vm_compute; reflexivity.
Defined.

End UpdateCountFacts.
